(** * pytomo3d.adjoint.adjsrc: a shallow embedding and its properties

    The module under study is [src/pytomo3d/adjoint/adjsrc.py] (Python 2).
    It computes adjoint sources per channel through the external package
    [pyadjoint], and post-processes them (zero padding, interpolation,
    weighted summation, missing-component fill, rotation) with [obspy].

    Layout of the development:
    - [Num]: the arithmetic the code performs on Python floats, kept
      abstract (every general theorem holds for any arithmetic, in
      particular IEEE binary64), with an exact instance on [Qc] and a
      binary64 instance on primitive floats;
    - Python strings, lists, dictionaries (association lists in iteration
      order) and exceptions;
    - [Trace] objects live in a heap and a [Stream] is a list of
      references, because [zero_padding_stream] and
      [sum_adj_on_component] mutate the traces they are given;
    - the external collaborators (measurement engine, geodesy routine,
      interpolation, rotation, [fnmatch]) are the fields of [Externals];
    - the functions of the module, in the order of the source
      ([load_adjoint_config_yaml], which reads a file and hands it to
      [yaml] and [pyadjoint.Config], is not modelled);
    - the properties, function by function, then what the functions
      keep, refuse and compose to beyond those;
    - concrete runs on the instances. *)

From Stdlib Require Import QArith Qcanon ZArith String Ascii Floats.
From stdpp Require Import base list strings numbers.

Local Open Scope string_scope.
Local Open Scope list_scope.

(** ** Python exceptions and results *)

Inductive Exn :=
| ValueError (msg : string)
| IndexError
| KeyError (key : string)
| ZeroDivisionError
| OverflowError
| UnboundLocalError (name : string)
| ExternalError (what : string).

Inductive Result (A : Type) :=
| Ok (a : A)
| Raise (e : Exn).
Arguments Ok {A} a.
Arguments Raise {A} e.

(** ** Arithmetic on Python floats *)

(** The operations the source applies to [float] values, to [UTCDateTime]
    time stamps (seconds) and to the items of sample arrays.
    [fdiv] is [None] where Python raises [ZeroDivisionError]; [ftrunc] is
    Python's [int(x)] (truncation toward zero), which raises on
    infinities and NaN; [of_Z] is the implicit [int] to [float]
    conversion of mixed arithmetic; [fgtb x y] is [x > y]. *)
Class Num (F : Type) := {
  fzero : F;
  fone : F;
  fadd : F -> F -> F;
  fsub : F -> F -> F;
  fmul : F -> F -> F;
  fdiv : F -> F -> option F;
  fgtb : F -> F -> bool;
  ftrunc : F -> Result Z;
  of_Z : Z -> F
}.

(** ** Python strings *)

(** [s[-1]]: the last character, as a one-character string; [IndexError]
    on the empty string. *)
Fixpoint last_char (s : string) : option string :=
  match s with
  | EmptyString => None
  | String c EmptyString => Some (String c EmptyString)
  | String _ rest => last_char rest
  end.

(** [s[0:2]]: slicing never raises. *)
Definition first_two (s : string) : string :=
  match s with
  | String a (String b _) => String a (String b EmptyString)
  | _ => s
  end.

(** [s.split(".")]: always at least one part. *)
Fixpoint split_dot (s : string) : list string :=
  match s with
  | EmptyString => [EmptyString]
  | String c rest =>
      if Ascii.eqb c "."%char then EmptyString :: split_dot rest
      else match split_dot rest with
           | [] => [String c EmptyString]
           | p :: ps => String c p :: ps
           end
  end.

Definition upper_char (c : ascii) : ascii :=
  let n := nat_of_ascii c in
  if (97 <=? n)%nat && (n <=? 122)%nat then ascii_of_nat (n - 32) else c.

(** [s.upper()] on ASCII. *)
Fixpoint upper (s : string) : string :=
  match s with
  | EmptyString => EmptyString
  | String c rest => String (upper_char c) (upper rest)
  end.

(** ** Python dictionaries

    A [dict] is kept as the list of its items in iteration order (which
    the source relies on: [adjsrcs.keys()[0]], the first channel of a
    component); keys are unique. *)
Definition dict (V : Type) := list (string * V).

Definition dict_keys {V} (d : dict V) : list string := d.*1.

Fixpoint dict_get {V} (d : dict V) (k : string) : option V :=
  match d with
  | [] => None
  | (k', v) :: rest => if String.eqb k' k then Some v else dict_get rest k
  end.

(** [d[k] = v]: an existing key keeps its place. *)
Fixpoint dict_set {V} (d : dict V) (k : string) (v : V) : dict V :=
  match d with
  | [] => [(k, v)]
  | (k', v') :: rest =>
      if String.eqb k' k then (k, v) :: rest else (k', v') :: dict_set rest k v
  end.

Definition dict_wf {V} (d : dict V) : Prop := NoDup (dict_keys d).

(** ** The data model: obspy and pyadjoint objects *)

(** An [obspy.Trace]: the fields of [tr.stats] the module reads or
    writes, and the sample array [tr.data]. [npts] and [endtime] are
    derived by obspy from the array and are functions here. *)
Record Trace (F : Type) := mkTrace {
  stats_network : string;
  stats_station : string;
  stats_location : string;
  stats_channel : string;
  stats_starttime : F;
  stats_delta : F;
  data : list F
}.
Arguments mkTrace {F}.
Arguments stats_network {F}.
Arguments stats_station {F}.
Arguments stats_location {F}.
Arguments stats_channel {F}.
Arguments stats_starttime {F}.
Arguments stats_delta {F}.
Arguments data {F}.

(** A [pyadjoint.AdjointSource]. *)
Record AdjointSource (F : Type) := mkAdjointSource {
  adj_src_type : string;
  misfit : F;
  dt : F;
  min_period : F;
  max_period : F;
  component : string;
  adjoint_source : list F;
  network : string;
  station : string
}.
Arguments mkAdjointSource {F}.
Arguments adj_src_type {F}.
Arguments misfit {F}.
Arguments dt {F}.
Arguments min_period {F}.
Arguments max_period {F}.
Arguments component {F}.
Arguments adjoint_source {F}.
Arguments network {F}.
Arguments station {F}.

(** A [pyadjoint.Config]; only its identity matters to this module. *)
Record Config (F : Type) := mkConfig {
  config_min_period : F;
  config_max_period : F
}.
Arguments mkConfig {F}.

(** A [pyflex.Window]. *)
Record Window (F : Type) := mkWindow {
  channel_id : string;
  relative_starttime : F;
  relative_endtime : F
}.
Arguments mkWindow {F}.
Arguments channel_id {F}.
Arguments relative_starttime {F}.
Arguments relative_endtime {F}.

(** An [obspy] origin, event and station. [preferred_origin] is [None]
    where [event.preferred_origin()] is [None] (or falsy). *)
Record Origin (F : Type) := mkOrigin {
  latitude : F;
  longitude : F;
  time : F
}.
Arguments mkOrigin {F}.
Arguments latitude {F}.
Arguments longitude {F}.
Arguments time {F}.

Record Event (F : Type) := mkEvent {
  preferred_origin : option (Origin F);
  origins : list (Origin F)
}.
Arguments mkEvent {F}.
Arguments preferred_origin {F}.
Arguments origins {F}.

Record Station (F : Type) := mkStation {
  station_latitude : F;
  station_longitude : F
}.
Arguments mkStation {F}.
Arguments station_latitude {F}.
Arguments station_longitude {F}.

(** [inventory[i][j]]: networks, each a list of stations. *)
Definition Inventory (F : Type) := list (list (Station F)).

(** A reference to a [Trace] object, and a [Stream]: the list of the
    references it holds, in order. *)
Definition loc := nat.
Definition Stream := list loc.

(** A dynamically typed argument, for the [isinstance] checks. *)
Inductive PyObj (F : Type) :=
| PStream (s : Stream)
| PTrace (l : loc)
| PConfig (c : Config F)
| POther.
Arguments PStream {F} s.
Arguments PTrace {F} l.
Arguments PConfig {F} c.
Arguments POther {F}.

(** What the module asks of the outside world, in order of occurrence. *)
Inductive Effect (F : Type) :=
| CallAdjointSource (obs syn : Trace F) (windows : list (list F))
| CallGps2DistAzimuth (lat1 lon1 lat2 lon2 : F)
| CallInterpolate (sampling_rate start : F) (npts : nat) (tr : loc)
| CallRotate (back_azimuth : F)
| PrintExn (e : Exn).
Arguments CallAdjointSource {F}.
Arguments CallGps2DistAzimuth {F}.
Arguments CallInterpolate {F}.
Arguments CallRotate {F}.
Arguments PrintExn {F}.

(** The external collaborators.
    - [fnmatch name pattern]: Python's [fnmatch.fnmatch], which
      [Stream.select] applies to upper-cased identifiers;
    - [calculate_adjoint_source]: [pyadjoint]'s measurement engine, which
      returns an adjoint source or raises;
    - [gps2DistAzimuth lat1 lon1 lat2 lon2]: obspy's geodesy routine,
      returning (distance, azimuth from point 1 to point 2, azimuth from
      point 2 to point 1), or raising on invalid coordinates;
    - [trace_interpolate]: [Trace.interpolate(sampling_rate, starttime,
      npts)], returning the trace as it is afterwards, or raising;
    - [stream_rotate]: [Stream.rotate("RT->NE", back_azimuth)], which
      works in place: the traces as they are afterwards, and the
      exception it raised, if any. *)
Class Externals (F : Type) := {
  fnmatch : string -> string -> bool;
  calculate_adjoint_source :
    string -> Trace F -> Trace F -> Config F -> list (list F) ->
    bool -> bool -> Result (AdjointSource F);
  gps2DistAzimuth : F -> F -> F -> F -> Result (F * F * F);
  trace_interpolate : F -> F -> nat -> Trace F -> Result (Trace F);
  stream_rotate : F -> list (Trace F) -> list (Trace F) * option Exn
}.

(** ** The interpreter state and its monad *)

Record World (F : Type) := mkWorld {
  heap : list (Trace F);
  effects : list (Effect F)
}.
Arguments mkWorld {F}.
Arguments heap {F}.
Arguments effects {F}.

(** A computation returns or raises, and leaves a world in both cases
    (what was mutated before an exception stays mutated). *)
Definition M (F A : Type) := World F -> Result A * World F.

Definition ret {F A} (a : A) : M F A := fun w => (Ok a, w).

Definition bind {F A B} (m : M F A) (k : A -> M F B) : M F B :=
  fun w => match m w with
           | (Ok a, w') => k a w'
           | (Raise e, w') => (Raise e, w')
           end.

Definition raise {F A} (e : Exn) : M F A := fun w => (Raise e, w).

(** [try: m except: h]. *)
Definition try_except {F A} (m : M F A) (h : Exn -> M F A) : M F A :=
  fun w => match m w with
           | (Ok a, w') => (Ok a, w')
           | (Raise e, w') => h e w'
           end.

Definition lift {F A} (r : Result A) : M F A := fun w => (r, w).

Definition emit {F} (ev : Effect F) : M F unit :=
  fun w => (Ok tt, mkWorld (heap w) (effects w ++ [ev])).

(** Reading through a reference. A Python program cannot hold a
    reference to nothing; the model raises [IndexError] there. *)
Definition deref {F} (l : loc) : M F (Trace F) :=
  fun w => match heap w !! l with
           | Some tr => (Ok tr, w)
           | None => (Raise IndexError, w)
           end.

(** Mutating the object behind a reference. *)
Definition assign {F} (l : loc) (tr : Trace F) : M F unit :=
  fun w => (Ok tt, mkWorld (<[l := tr]> (heap w)) (effects w)).

(** A new object. *)
Definition alloc {F} (tr : Trace F) : M F loc :=
  fun w => (Ok (length (heap w)), mkWorld (heap w ++ [tr]) (effects w)).

Declare Scope py_scope.
Delimit Scope py_scope with py.
Notation "x <- m ;; k" := (bind m (fun x => k))
  (at level 100, m at next level, right associativity) : py_scope.
Notation "m ;;; k" := (bind m (fun _ => k))
  (at level 100, right associativity) : py_scope.
Local Open Scope py_scope.

(** [for x in xs: body x]. *)
Fixpoint for_each {F A} (xs : list A) (body : A -> M F unit) : M F unit :=
  match xs with
  | [] => ret tt
  | x :: rest => body x ;;; for_each rest body
  end.

(** [for x in xs: acc = body acc x]: a loop that carries local
    variables. *)
Fixpoint for_fold {F A S} (xs : list A) (body : S -> A -> M F S) (acc : S)
  : M F S :=
  match xs with
  | [] => ret acc
  | x :: rest => acc' <- body acc x ;; for_fold rest body acc'
  end.

(** [xs[0]]. *)
Definition first_item {F A} (xs : list A) : M F A :=
  match xs with
  | [] => raise IndexError
  | x :: _ => ret x
  end.

(** ** The module, function by function *)

(** *** [plot_adjsrc_figure] (lines 11-33)

    The function prints at most one line and asks the adjoint source to
    plot itself into a file: what it does is the list of these events,
    in order. [os.path.join] is the one of POSIX systems. *)
Inductive FigureEvent (F : Type) :=
| PrintLine (line : string)
| CallPlot (adjsrc : AdjointSource F) (filename : string).
Arguments PrintLine {F} line.
Arguments CallPlot {F} adjsrc filename.

(** [s.startswith("/")] and [s.endswith("/")]. *)
Definition startswith_slash (s : string) : bool :=
  match s with
  | String c _ => Ascii.eqb c "/"
  | EmptyString => false
  end.

Definition endswith_slash (s : string) : bool :=
  match last_char s with
  | Some c => String.eqb c "/"
  | None => false
  end.

(** [os.path.join(a, b)]. *)
Definition path_join (a b : string) : string :=
  if startswith_slash b then b
  else if String.eqb a "" || endswith_slash a then (a ++ b)%string
  else (a ++ "/" ++ b)%string.

Definition plot_adjsrc_figure {F} (figure_dir figure_id : string)
  (adjsrc : AdjointSource F) (_verbose : bool) (figure_format : string)
  : list (FigureEvent F) :=
  let outfn := (figure_id ++ "." ++ figure_format)%string in
  let figfn := path_join figure_dir outfn in
  (if _verbose then [PrintLine ("Output fig: " ++ figfn)%string] else []) ++
  [CallPlot adjsrc figfn].

Section Adjsrc.
Context {F : Type} {NF : Num F} {X : Externals F}.

Local Abbreviation Py := (M F).

(** *** Trace and Stream methods of obspy *)

Definition npts (tr : Trace F) : nat := length (data tr).

(** [tr.stats.endtime]: the time of the last sample. *)
Definition stats_endtime (tr : Trace F) : F :=
  match npts tr with
  | O => stats_starttime tr
  | S n => fadd (stats_starttime tr) (fmul (of_Z (Z.of_nat n)) (stats_delta tr))
  end.

(** [tr.id]. *)
Definition trace_id (tr : Trace F) : string :=
  stats_network tr ++ "." ++ stats_station tr ++ "." ++
  stats_location tr ++ "." ++ stats_channel tr.

(** [Trace()]. *)
Definition new_trace : Trace F :=
  mkTrace "" "" "" "" fzero fone [].

Definition set_data (tr : Trace F) (d : list F) : Trace F :=
  mkTrace (stats_network tr) (stats_station tr) (stats_location tr)
          (stats_channel tr) (stats_starttime tr) (stats_delta tr) d.

Definition set_starttime (tr : Trace F) (t : F) : Trace F :=
  mkTrace (stats_network tr) (stats_station tr) (stats_location tr)
          (stats_channel tr) t (stats_delta tr) (data tr).

Definition set_delta (tr : Trace F) (d : F) : Trace F :=
  mkTrace (stats_network tr) (stats_station tr) (stats_location tr)
          (stats_channel tr) (stats_starttime tr) d (data tr).

Definition set_channel (tr : Trace F) (c : string) : Trace F :=
  mkTrace (stats_network tr) (stats_station tr) (stats_location tr)
          c (stats_starttime tr) (stats_delta tr) (data tr).

Definition set_station (tr : Trace F) (s : string) : Trace F :=
  mkTrace (stats_network tr) s (stats_location tr)
          (stats_channel tr) (stats_starttime tr) (stats_delta tr) (data tr).

Definition set_network (tr : Trace F) (n : string) : Trace F :=
  mkTrace n (stats_station tr) (stats_location tr)
          (stats_channel tr) (stats_starttime tr) (stats_delta tr) (data tr).

Definition set_location (tr : Trace F) (l : string) : Trace F :=
  mkTrace (stats_network tr) (stats_station tr) l
          (stats_channel tr) (stats_starttime tr) (stats_delta tr) (data tr).

(** The references of a stream whose trace satisfies [p], in order: the
    stream that [Stream.select] returns holds the same objects. *)
Definition select_by (h : list (Trace F)) (p : Trace F -> bool)
  (s : Stream) : Stream :=
  List.filter
    (fun l => match h !! l with Some tr => p tr | None => false end) s.

(** [select] skips the test on [id] when [id] is empty ([if id and
    not fnmatch(...)]). *)
Definition matches_id (id : string) (tr : Trace F) : bool :=
  match id with
  | EmptyString => true
  | _ => fnmatch (upper (trace_id tr)) (upper id)
  end.

Definition matches_channel (pat : string) (tr : Trace F) : bool :=
  fnmatch (upper (stats_channel tr)) (upper pat).

(** [stream.select(id=id)]. *)
Definition select_id (s : Stream) (id : string) : Py Stream :=
  fun w => (Ok (select_by (heap w) (matches_id id) s), w).

(** [stream.select(channel=pat)]. *)
Definition select_channel (s : Stream) (pat : string) : Py Stream :=
  fun w => (Ok (select_by (heap w) (matches_channel pat) s), w).

(** *** [_stats_channel_window] (lines 36-46) *)

Definition _stats_channel_window (windows : list (list (Window F)))
  : Result (dict nat) :=
  foldl (fun acc chan_win =>
           match acc with
           | Raise e => Raise e
           | Ok channel_win_dict =>
               match chan_win with
               | [] => Raise IndexError
               | w :: _ =>
                   Ok (dict_set channel_win_dict (channel_id w) (length chan_win))
               end
           end)
        (Ok []) windows.

(** *** [_clean_adj_results] (lines 49-60) *)

Fixpoint _clean_adj_loop {A B} (items : dict A) (chan_nwin_dict : dict B)
  (clean_adj_dict : dict A) (clean_nwin_dict : dict B)
  : Result (dict A * dict B) :=
  match items with
  | [] => Ok (clean_adj_dict, clean_nwin_dict)
  | (chan_id, chan_adj) :: rest =>
      let clean_adj_dict := dict_set clean_adj_dict chan_id chan_adj in
      match dict_get chan_nwin_dict chan_id with
      | None => Raise (KeyError chan_id)
      | Some nwin =>
          _clean_adj_loop rest chan_nwin_dict clean_adj_dict
                          (dict_set clean_nwin_dict chan_id nwin)
      end
  end.

Definition _clean_adj_results {A B} (chan_adj_dict : dict A)
  (chan_nwin_dict : dict B) : Result (dict A * dict B) :=
  _clean_adj_loop chan_adj_dict chan_nwin_dict [] [].

(** *** [calculate_adjsrc_on_trace] (lines 77-120) *)

(** [np.array(windows)] has shape [(n, 2)]: at least one row, and every
    row of two items. *)
Definition shape_is_n_by_2 (windows : list (list F)) : bool :=
  match windows with
  | [] => false
  | _ => forallb (fun row => Nat.eqb (length row) 2) windows
  end.

Definition calculate_adjsrc_on_trace (obs syn : PyObj F)
  (windows : list (list F)) (config : PyObj F) (adj_src_type : string)
  (adjoint_src_flag plot_flag : bool) : Py (option (AdjointSource F)) :=
  match obs with
  | PTrace obs =>
    match syn with
    | PTrace syn =>
      match config with
      | PConfig config =>
        if negb (shape_is_n_by_2 windows) then
          raise (ValueError
            "Input windows dimension incorrect, dimention(*, 2) expected")
        else
          try_except
            (obs_tr <- deref obs ;;
             syn_tr <- deref syn ;;
             emit (CallAdjointSource obs_tr syn_tr windows) ;;;
             adjsrc <- lift (calculate_adjoint_source adj_src_type obs_tr
                               syn_tr config windows adjoint_src_flag
                               plot_flag) ;;
             ret (Some adjsrc))
            (fun _ => ret None)
      | _ => raise (ValueError "Input config should be pyadjoint.Config")
      end
    | _ => raise (ValueError "Input syn should be obspy.Trace")
    end
  | _ => raise (ValueError "Input obs should be obspy.Trace")
  end.

(** *** [calculate_adjsrc_on_stream] (lines 123-185) *)

(** One turn of the loop over [windows], on the dictionary built so
    far. *)
Definition adjsrc_on_channel (observed synthetic : Stream)
  (config : PyObj F) (adj_src_type : string)
  (plot_flag adjoint_src_flag : bool)
  (channel_adj_dict : dict (AdjointSource F)) (chan_win : list (Window F))
  : Py (dict (AdjointSource F)) :=
  match chan_win with
  | [] => ret channel_adj_dict
  | w0 :: _ =>
      let obsd_id := channel_id w0 in
      obs <- try_except
               (sel <- select_id observed obsd_id ;; first_item sel)
               (fun _ => raise (ValueError
                  ("Missing observed trace for window: " ++ obsd_id))) ;;
      syn <- try_except
               (obs_tr <- deref obs ;;
                match last_char (stats_channel obs_tr) with
                | None => raise IndexError
                | Some c =>
                    sel <- select_channel synthetic ("*" ++ c) ;;
                    first_item sel
                end)
               (fun _ => raise (ValueError
                  ("Missing synthetic trace matching obsd id: " ++ obsd_id))) ;;
      let wins :=
        map (fun _win => [relative_starttime _win; relative_endtime _win])
            chan_win in
      adjsrc <- calculate_adjsrc_on_trace (PTrace obs) (PTrace syn) wins
                  config adj_src_type adjoint_src_flag plot_flag ;;
      match adjsrc with
      | None => ret channel_adj_dict
      | Some adjsrc => ret (dict_set channel_adj_dict obsd_id adjsrc)
      end
  end.

Definition calculate_adjsrc_on_stream (observed synthetic : Stream)
  (windows : list (list (Window F))) (config : PyObj F)
  (adj_src_type : string) (plot_flag adjoint_src_flag : bool)
  : Py (dict (AdjointSource F)) :=
  for_fold windows
    (adjsrc_on_channel observed synthetic config adj_src_type plot_flag
       adjoint_src_flag)
    [].

(** *** [adjsrc_function] (lines 188-223)

    [windows] is [None] for Python's [None]; the result is [None] where
    the function executes a bare [return]. *)
Definition adjsrc_function (observed synthetic : PyObj F)
  (windows : option (list (list (Window F)))) (config : PyObj F)
  (adj_src_type : string)
  : Py (option (dict (AdjointSource F) * dict nat)) :=
  match observed with
  | PStream observed =>
    match synthetic with
    | PStream synthetic =>
      match windows with
      | None => ret None
      | Some [] => ret None
      | Some windows =>
        match config with
        | PConfig _ =>
            channel_nwins_dict <- lift (_stats_channel_window windows) ;;
            channel_adj_dict <-
              calculate_adjsrc_on_stream observed synthetic windows config
                adj_src_type false true ;;
            res <- lift (_clean_adj_results channel_adj_dict
                           channel_nwins_dict) ;;
            ret (Some res)
        | _ => raise (ValueError "Input config should be pyadjoint.Config")
        end
      end
    | _ => raise (ValueError "Input synthetic should be obspy.Stream")
    end
  | _ => raise (ValueError "Input observed should be obspy.Stream")
  end.

(** The default of the keyword argument [adj_src_type]. *)
Definition default_adj_src_type : string := "multitaper_misfit".

(** *** [calculate_baz] (lines 226-239) *)

Definition calculate_baz (elat elon slat slon : F) : Py F :=
  emit (CallGps2DistAzimuth elat elon slat slon) ;;;
  r <- lift (gps2DistAzimuth elat elon slat slon) ;;
  let '(_, baz, _) := r in
  ret baz.

(** *** [_convert_adj_to_trace] (lines 242-257) *)

(** [obj.attr = v] on the object behind a reference. *)
Definition modify (l : loc) (f : Trace F -> Trace F) : Py unit :=
  tr <- deref l ;; assign l (f tr).

(** [xs[i]] on a list. *)
Definition item {A} (xs : list A) (i : nat) : Py A :=
  match xs !! i with
  | Some x => ret x
  | None => raise IndexError
  end.

(** [xs[-1]] on a list. *)
Definition last_item {A} (xs : list A) : Py A :=
  match list.last xs with
  | Some x => ret x
  | None => raise IndexError
  end.

Definition _convert_adj_to_trace (adj : AdjointSource F) (starttime : F)
  (chan_id : string) : Py loc :=
  tr <- alloc new_trace ;;
  modify tr (fun t => set_data t (adjoint_source adj)) ;;;
  modify tr (fun t => set_starttime t starttime) ;;;
  modify tr (fun t => set_delta t (dt adj)) ;;;
  chan <- last_item (split_dot chan_id) ;;
  modify tr (fun t => set_channel t chan) ;;;
  modify tr (fun t => set_station t (station adj)) ;;;
  modify tr (fun t => set_network t (network adj)) ;;;
  loc_code <- item (split_dot chan_id) 2 ;;
  modify tr (fun t => set_location t loc_code) ;;;
  ret tr.

(** *** [_convert_trace_to_adj] (lines 260-270)

    [adj] is the object the caller has just built; it is updated and
    returned. *)
Definition _convert_trace_to_adj (tr : loc) (adj : AdjointSource F)
  : Py (AdjointSource F) :=
  t <- deref tr ;;
  match last_char (stats_channel t) with
  | None => raise IndexError
  | Some comp =>
      ret (mkAdjointSource (adj_src_type adj) (misfit adj) (stats_delta t)
             (min_period adj) (max_period adj) comp (data t)
             (stats_network t) (stats_station t))
  end.

(** *** [zero_padding_stream] (lines 273-299) *)

(** [np.zeros(n)]. *)
Definition zeros (n : nat) : list F := replicate n fzero.

(** [arr[start:stop] = src], for a slice within [arr] of the length of
    [src]. *)
Definition slice_assign (arr : list F) (start : nat) (src : list F)
  : list F :=
  take start arr ++ src ++ drop (start + length src) arr.

(** [int(x / dt) + 1], then [max(., 0)]. *)
Definition padding_count (x dt : F) : Py Z :=
  match fdiv x dt with
  | None => raise ZeroDivisionError
  | Some q => n <- lift (ftrunc q) ;; ret (Z.max (n + 1) 0)
  end.

(** The body of the loop, on one trace. *)
Definition zero_padding_trace (starttime endtime : F) (tr : loc) : Py unit :=
  t <- deref tr ;;
  let dt := stats_delta t in
  let npts := npts t in
  let tr_starttime := stats_starttime t in
  let tr_endtime := stats_endtime t in
  npts_before <- padding_count (fsub tr_starttime starttime) dt ;;
  npts_after <- padding_count (fsub endtime tr_endtime) dt ;;
  let padding_starttime := fsub tr_starttime (fmul (of_Z npts_before) dt) in
  let padding_array :=
    slice_assign
      (zeros (Z.to_nat npts_before + npts + Z.to_nat npts_after))
      (Z.to_nat npts_before) (data t) in
  modify tr (fun t => set_data t padding_array) ;;;
  modify tr (fun t => set_starttime t padding_starttime).

Definition zero_padding_stream (stream : Stream) (starttime endtime : F)
  : Py unit :=
  if fgtb starttime endtime then
    raise (ValueError "Starttime is larger than endtime")
  else for_each stream (zero_padding_trace starttime endtime).

(** *** [sum_adj_on_component] (lines 302-328) *)

(** [a += b] on numpy arrays of one dimension: [b] has the length of [a],
    or one item that is added to every item of [a]. *)
Definition iadd (a b : list F) : Result (list F) :=
  if Nat.eqb (length b) (length a) then Ok (zip_with fadd a b)
  else match b with
       | [x] => Ok (map (fun y => fadd y x) a)
       | _ => Raise (ValueError "operands could not be broadcast together")
       end.

(** The local variables the two loops carry. *)
Record SumState := mkSumState {
  new_stream : Stream;
  done_comps : list string;
  comp_tr : option loc
}.

(** The body of the inner loop. *)
Definition sum_channel (adj_stream : Stream) (comp : string)
  (st : SumState) (chan : string * F) : Py SumState :=
  let '(chan_id, chan_weight) := chan in
  if negb (existsb (String.eqb comp) (done_comps st)) then
    sel <- select_id adj_stream chan_id ;;
    tr <- first_item sel ;;
    modify tr (fun t => set_data t (map (fun x => fmul x chan_weight) (data t))) ;;;
    modify tr (fun t => set_location t "") ;;;
    ret (mkSumState (new_stream st) (done_comps st ++ [comp]) (Some tr))
  else
    match comp_tr st with
    | None => raise (UnboundLocalError "comp_tr")
    | Some tr =>
        t <- deref tr ;;
        sel <- select_id adj_stream chan_id ;;
        other <- first_item sel ;;
        o <- deref other ;;
        d <- lift (iadd (data t) (map (fun x => fmul chan_weight x) (data o))) ;;
        modify tr (fun t => set_data t d) ;;;
        ret st
    end.

(** The body of the outer loop. *)
Definition sum_component (adj_stream : Stream) (st : SumState)
  (entry : string * dict F) : Py SumState :=
  let '(comp, comp_weights) := entry in
  st <- for_fold comp_weights (sum_channel adj_stream comp) st ;;
  match comp_tr st with
  | None => raise (UnboundLocalError "comp_tr")
  | Some tr =>
      ret (mkSumState (new_stream st ++ [tr]) (done_comps st) (comp_tr st))
  end.

Definition sum_adj_on_component (adj_stream : Stream)
  (weight_dict : dict (dict F)) : Py Stream :=
  st <- for_fold weight_dict (sum_component adj_stream)
          (mkSumState [] [] None) ;;
  ret (new_stream st).

(** *** [postprocess_adjsrc] (lines 331-423) *)

(** Lines 364-368: one trace per adjoint source, in the order of
    [adjsrcs.iteritems()]. *)
Definition adjsrcs_to_stream (adjsrcs : dict (AdjointSource F))
  (adj_starttime : F) : Py Stream :=
  for_fold adjsrcs
    (fun adj_stream entry =>
       let '(chan_id, adj) := entry in
       _tr <- _convert_adj_to_trace adj adj_starttime chan_id ;;
       ret (adj_stream ++ [_tr]))
    [].

(** Line 380: [Stream.interpolate] interpolates every trace in place. *)
Definition stream_interpolate (stream : Stream) (sampling_rate : F)
  (starttime : F) (npts : nat) : Py unit :=
  for_each stream
    (fun tr =>
       t <- deref tr ;;
       emit (CallInterpolate sampling_rate starttime npts tr) ;;;
       t' <- lift (trace_interpolate sampling_rate starttime npts t) ;;
       assign tr t').

(** What lines 354-389 leave in the local variables that the rest of
    the function reads. *)
Record Prepared := mkPrepared {
  elat : F;
  elon : F;
  slat : F;
  slon : F;
  time_offset : F;
  adj_stream : Stream
}.

(** Lines 354-389: geometry, conversion, zero padding, interpolation
    and the optional summation. *)
Definition prepare_adj_stream (adjsrcs : dict (AdjointSource F))
  (adj_starttime : F) (raw_synthetic : Stream) (inventory : Inventory F)
  (event : Event F) (sum_over_comp_flag : bool)
  (weight_dict : option (dict (dict F))) : Py Prepared :=
  origin <- match preferred_origin event with
            | Some o => ret o
            | None => first_item (origins event)
            end ;;
  let elat := latitude origin in
  let elon := longitude origin in
  let event_time := time origin in
  net0 <- first_item inventory ;;
  sta0 <- first_item net0 ;;
  let slat := station_latitude sta0 in
  let slon := station_longitude sta0 in
  adj_stream <- adjsrcs_to_stream adjsrcs adj_starttime ;;
  raw0 <- first_item raw_synthetic ;;
  raw0 <- deref raw0 ;;
  let interp_starttime := stats_starttime raw0 in
  let interp_delta := stats_delta raw0 in
  let interp_npts := npts raw0 in
  let interp_endtime :=
    fadd interp_starttime (fmul interp_delta (of_Z (Z.of_nat interp_npts))) in
  let time_offset := fsub interp_starttime event_time in
  zero_padding_stream adj_stream interp_starttime interp_endtime ;;;
  sampling_rate <- match fdiv fone interp_delta with
                   | Some r => ret r
                   | None => raise ZeroDivisionError
                   end ;;
  stream_interpolate adj_stream sampling_rate interp_starttime interp_npts ;;;
  adj_stream <- (if sum_over_comp_flag then
                   match weight_dict with
                   | None => raise (ValueError
                       "weight_dict should be assigned if you wantto add")
                   | Some weight_dict =>
                       sum_adj_on_component adj_stream weight_dict
                   end
                 else ret adj_stream) ;;
  ret (mkPrepared elat elon slat slon time_offset adj_stream).

(** [missinglist.remove(c)]: the first occurrence goes, [ValueError]
    when there is none. *)
Fixpoint list_remove (xs : list string) (c : string)
  : Result (list string) :=
  match xs with
  | [] => Raise (ValueError "list.remove(x): x not in list")
  | x :: rest =>
      if String.eqb x c then Ok rest
      else match list_remove rest c with
           | Ok rest' => Ok (x :: rest')
           | Raise e => Raise e
           end
  end.

(** Lines 391-401: a zero trace for every component of Z, R, T that no
    trace of the stream carries. *)
Definition fill_missing_components (adj_stream : Stream) : Py Stream :=
  let missinglist := ["Z"; "R"; "T"] in
  tr_template <- first_item adj_stream ;;
  missinglist <- for_fold adj_stream
                   (fun missinglist tr =>
                      t <- deref tr ;;
                      match last_char (stats_channel t) with
                      | None => raise IndexError
                      | Some c => lift (list_remove missinglist c)
                      end)
                   missinglist ;;
  for_fold missinglist
    (fun adj_stream component =>
       template <- deref tr_template ;;
       zero_adj <- alloc template ;;
       modify zero_adj
         (fun t => set_data t (map (fun _ => fzero) (data t))) ;;;
       modify zero_adj
         (fun t => set_channel t
                     (first_two (stats_channel template) ++ component)) ;;;
       ret (adj_stream ++ [zero_adj]))
    adj_stream.

(** The traces of a stream as they are now. *)
Fixpoint deref_all (s : Stream) : Py (list (Trace F)) :=
  match s with
  | [] => ret []
  | l :: rest => t <- deref l ;; ts <- deref_all rest ;; ret (t :: ts)
  end.

(** The traces of a stream take the states [ts], one by one. *)
Fixpoint assign_all (s : Stream) (ts : list (Trace F)) : Py unit :=
  match s, ts with
  | l :: s', t :: ts' => assign l t ;;; assign_all s' ts'
  | _, _ => ret tt
  end.

(** [[tr.stats.channel[-1] for tr in adj_stream]]. *)
Fixpoint stream_components (s : Stream) : Py (list string) :=
  match s with
  | [] => ret []
  | l :: rest =>
      t <- deref l ;;
      match last_char (stats_channel t) with
      | None => raise IndexError
      | Some c => cs <- stream_components rest ;; ret (c :: cs)
      end
  end.

Definition mem (c : string) (cs : list string) : bool :=
  existsb (String.eqb c) cs.

(** Lines 403-411. *)
Definition rotate_adj_stream (p : Prepared) (adj_stream : Stream)
  : Py unit :=
  baz <- calculate_baz (elat p) (elon p) (slat p) (slon p) ;;
  components <- stream_components adj_stream ;;
  if mem "R" components && mem "T" components then
    emit (CallRotate baz) ;;;
    ts <- deref_all adj_stream ;;
    let '(ts', failure) := stream_rotate baz ts in
    assign_all adj_stream ts' ;;;
    match failure with
    | Some e => emit (PrintExn e)
    | None => ret tt
    end
  else ret tt.

(** Lines 413-421. *)
Definition final_adjsrcs (adjsrcs : dict (AdjointSource F))
  (adj_stream : Stream) : Py (list (AdjointSource F)) :=
  _temp_id <- first_item (dict_keys adjsrcs) ;;
  a0 <- match dict_get adjsrcs _temp_id with
        | Some a => ret a
        | None => raise (KeyError _temp_id)
        end ;;
  let adj_src_type := adj_src_type a0 in
  let minp := min_period a0 in
  let maxp := max_period a0 in
  for_fold adj_stream
    (fun final_adjsrcs tr =>
       let _adj :=
         mkAdjointSource adj_src_type fzero fzero minp maxp "" [] "" "" in
       a <- _convert_trace_to_adj tr _adj ;;
       ret (final_adjsrcs ++ [a]))
    [].

Definition postprocess_adjsrc (adjsrcs : dict (AdjointSource F))
  (adj_starttime : F) (raw_synthetic : Stream) (inventory : Inventory F)
  (event : Event F) (sum_over_comp_flag : bool)
  (weight_dict : option (dict (dict F)))
  : Py (list (AdjointSource F) * F) :=
  p <- prepare_adj_stream adjsrcs adj_starttime raw_synthetic inventory
         event sum_over_comp_flag weight_dict ;;
  adj_stream <- fill_missing_components (adj_stream p) ;;
  rotate_adj_stream p adj_stream ;;;
  final <- final_adjsrcs adjsrcs adj_stream ;;
  ret (final, time_offset p).

End Adjsrc.

(** * Properties *)

(** ** Dictionaries *)

Section DictFacts.
Context {V : Type}.
Implicit Types (d : dict V) (k : string) (v : V).

Lemma dict_get_None d k : dict_get d k = None <-> k ∉ dict_keys d.
Proof.
  induction d as [|[k' v'] d IH]; simpl.
  - split; [intros _; apply not_elem_of_nil | done].
  - destruct (String.eqb_spec k' k) as [->|Hne].
    + split; [done | intros []; left].
    + rewrite IH, not_elem_of_cons.
      split; [intros ?; split; [congruence | done] | by intros [_ ?]].
Qed.

Lemma dict_get_Some_keys d k v : dict_get d k = Some v -> k ∈ dict_keys d.
Proof.
  intros Hget. destruct (decide (k ∈ dict_keys d)) as [|Hn]; [done|].
  apply dict_get_None in Hn. congruence.
Qed.

Lemma dict_get_is_Some d k : is_Some (dict_get d k) <-> k ∈ dict_keys d.
Proof.
  rewrite <- not_eq_None_Some, dict_get_None.
  split; [apply dec_stable | auto].
Qed.

Lemma dict_set_fresh d k v :
  k ∉ dict_keys d -> dict_set d k v = d ++ [(k, v)].
Proof.
  induction d as [|[k' v'] d IH]; simpl; [done|].
  rewrite not_elem_of_cons. intros [Hne Hd].
  destruct (String.eqb_spec k' k); [congruence|]. by rewrite IH.
Qed.

Lemma dict_get_set d k k' v :
  dict_get (dict_set d k v) k' =
  if String.eqb k k' then Some v else dict_get d k'.
Proof.
  induction d as [|[k0 v0] d IH]; simpl.
  - done.
  - destruct (String.eqb_spec k0 k) as [->|Hne]; simpl.
    + by destruct (String.eqb_spec k k').
    + destruct (String.eqb_spec k0 k') as [->|Hne'].
      * destruct (String.eqb_spec k k'); [congruence | done].
      * apply IH.
Qed.

Lemma dict_keys_set d k k' v :
  k' ∈ dict_keys (dict_set d k v) <-> k' = k \/ k' ∈ dict_keys d.
Proof.
  rewrite <- !dict_get_is_Some, dict_get_set.
  destruct (String.eqb_spec k k') as [->|Hne].
  - split; [by left | by eexists].
  - split; [by right | by intros [?|?]; [congruence|]].
Qed.

Lemma dict_get_app d d' k :
  dict_get (d ++ d') k =
  match dict_get d k with Some v => Some v | None => dict_get d' k end.
Proof.
  induction d as [|[k0 v0] d IH]; simpl; [done|].
  by destruct (String.eqb k0 k).
Qed.

End DictFacts.

(** ** The monad *)

Section MonadFacts.
Context {F : Type}.

Lemma bind_Ok {A B} (m : M F A) (k : A -> M F B) w a w1 :
  m w = (Ok a, w1) -> bind m k w = k a w1.
Proof. unfold bind. by intros ->. Qed.

Lemma bind_Raise {A B} (m : M F A) (k : A -> M F B) w e w1 :
  m w = (Raise e, w1) -> bind m k w = (Raise e, w1).
Proof. unfold bind. by intros ->. Qed.

Lemma bind_ret {A B} (a : A) (k : A -> M F B) w :
  bind (ret a) k w = k a w.
Proof. done. Qed.

Lemma for_fold_cons {A S} (x : A) (xs : list A) (body : S -> A -> M F S)
  (acc : S) :
  for_fold (x :: xs) body acc =
  bind (body acc x) (fun acc' => for_fold xs body acc').
Proof. done. Qed.

Lemma for_each_cons {A} (x : A) (xs : list A) (body : A -> M F unit) :
  for_each (x :: xs) body = bind (body x) (fun _ => for_each xs body).
Proof. done. Qed.

Lemma bind_Ok_inv {A B} (m : M F A) (k : A -> M F B) w b w2 :
  bind m k w = (Ok b, w2) ->
  exists a w1, m w = (Ok a, w1) /\ k a w1 = (Ok b, w2).
Proof.
  unfold bind. destruct (m w) as [[a|e] w1]; [eauto | discriminate].
Qed.

Lemma lift_Ok_inv {A} (r : Result A) (w : World F) a w1 :
  lift r w = (Ok a, w1) -> r = Ok a /\ w1 = w.
Proof. unfold lift. by intros [= -> ->]. Qed.

Lemma first_item_Ok_inv {A} (xs : list A) (w : World F) x w1 :
  first_item xs w = (Ok x, w1) -> head xs = Some x /\ w1 = w.
Proof. destruct xs; simpl; unfold raise, ret; by intros [= -> ->]. Qed.

Lemma deref_Ok_inv (l : loc) (w : World F) t w1 :
  deref l w = (Ok t, w1) -> heap w !! l = Some t /\ w1 = w.
Proof.
  unfold deref. destruct (heap w !! l); [by intros [= -> ->] | discriminate].
Qed.

Lemma deref_Some (l : loc) (w : World F) t :
  heap w !! l = Some t -> deref l w = (Ok t, w).
Proof. unfold deref. by intros ->. Qed.

Lemma modify_Some (l : loc) (f : Trace F -> Trace F) (w : World F) t :
  heap w !! l = Some t ->
  modify l f w = (Ok tt, mkWorld (<[l := f t]> (heap w)) (effects w)).
Proof. intros Hl. unfold modify, bind. by rewrite (deref_Some _ _ _ Hl). Qed.

Lemma modify_Ok_inv (l : loc) (f : Trace F -> Trace F) (w : World F) u w1 :
  modify l f w = (Ok u, w1) ->
  exists t, heap w !! l = Some t /\
            w1 = mkWorld (<[l := f t]> (heap w)) (effects w).
Proof.
  unfold modify. intros Hm.
  apply bind_Ok_inv in Hm as (t & w0 & Hd & Ha).
  apply deref_Ok_inv in Hd as [Hl ->].
  exists t. split; [done|]. unfold assign in Ha. congruence.
Qed.

End MonadFacts.

(** Taking a successful run apart, one statement at a time: the first
    statement returned [a] and left the world [w] ([H1]), and [H] is the
    run of what follows. *)
Tactic Notation "step" hyp(H) "as" simple_intropattern(a)
  simple_intropattern(w) ident(H1) :=
  apply bind_Ok_inv in H as (a & w & H1 & H).

Section Properties.
Context {F : Type} {NF : Num F} {X : Externals F}.

Local Abbreviation Py := (M F).
Implicit Types (w : World F) (h : list (Trace F)) (t : Trace F) (l : loc).

(** ** [_clean_adj_results] *)

(** The loop copies [items] behind what it has built, and one window
    count per item, or stops at the first item without a count. *)
Lemma _clean_adj_loop_spec {A B} (items : dict A) (nwin : dict B)
  (ca : dict A) (cn : dict B) :
  NoDup (dict_keys ca ++ dict_keys items) ->
  dict_keys cn = dict_keys ca ->
  match _clean_adj_loop items nwin ca cn with
  | Ok (a, n) =>
      a = ca ++ items /\
      exists vs, n = cn ++ vs /\
        Forall2 (fun item v => v.1 = item.1 /\ dict_get nwin item.1 = Some v.2)
                items vs
  | Raise e =>
      exists k, e = KeyError k /\ k ∈ dict_keys items /\ dict_get nwin k = None
  end.
Proof.
  revert ca cn. induction items as [|[k a] items IH]; intros ca cn Hnd Hk; simpl.
  - split; [by rewrite app_nil_r|]. exists []. by rewrite app_nil_r.
  - simpl in Hnd. apply list.NoDup_app in Hnd as (Hca & Hdisj & Hitems).
    assert (k ∉ dict_keys ca) as Hfresh.
    { intros Hin. apply (Hdisj _ Hin). left. }
    destruct (dict_get nwin k) as [n|] eqn:Hn.
    + rewrite (dict_set_fresh ca) by done.
      rewrite (dict_set_fresh cn) by (by rewrite Hk).
      specialize (IH (ca ++ [(k, a)]) (cn ++ [(k, n)])).
      destruct (_clean_adj_loop items nwin _ _) as [[a' n']|e].
      * destruct IH as (-> & vs & -> & Hvs).
        -- unfold dict_keys in *. rewrite fmap_app, <- app_assoc. simpl.
           apply list.NoDup_app. split_and!; [done| |done].
           intros x Hx. apply Hdisj in Hx. done.
        -- unfold dict_keys in *. rewrite !fmap_app. by rewrite Hk.
        -- split; [by rewrite <- app_assoc|].
           exists ((k, n) :: vs). split; [by rewrite <- app_assoc|].
           constructor; [done|done].
      * destruct IH as (k' & -> & Hin & Hnone).
        -- unfold dict_keys in *. rewrite fmap_app, <- app_assoc. simpl.
           apply list.NoDup_app. split_and!; [done| |done].
           intros x Hx. apply Hdisj in Hx. done.
        -- unfold dict_keys in *. rewrite !fmap_app. by rewrite Hk.
        -- exists k'. split_and!; [done| |done]. by right.
    + exists k. split_and!; [done| |done]. left.
Qed.

Lemma dict_get_counts {A B} (items : dict A) (nwin vs : dict B) k :
  Forall2 (fun item v => v.1 = item.1 /\ dict_get nwin item.1 = Some v.2)
          items vs ->
  dict_keys vs = dict_keys items /\
  (k ∈ dict_keys items -> dict_get vs k = dict_get nwin k).
Proof.
  induction 1 as [|[k0 a] [k1 n] items vs [Hk Hn] _ [IHk IH]]; simpl in *.
  - split; [done|]. by intros ?%elem_of_nil.
  - subst k1. split; [by f_equal|].
    destruct (String.eqb_spec k0 k) as [->|Hne]; [done|].
    intros [?|?]%elem_of_cons; [congruence | auto].
Qed.

(** C8, as the code has it: [_clean_adj_results] returns the adjoint
    mapping as it is and the window counts of exactly its channels, and
    it raises [KeyError] when, and only when, a channel of the adjoint
    mapping has no window count. Orphans of the count mapping are
    dropped; an orphan of the adjoint mapping is an error. *)
Theorem clean_adj_results_restricts_counts {A B}
  (chan_adj_dict : dict A) (chan_nwin_dict : dict B) :
  dict_wf chan_adj_dict ->
  match _clean_adj_results chan_adj_dict chan_nwin_dict with
  | Ok (clean_adj_dict, clean_nwin_dict) =>
      clean_adj_dict = chan_adj_dict /\
      dict_keys clean_nwin_dict = dict_keys chan_adj_dict /\
      forall k, k ∈ dict_keys chan_adj_dict ->
        is_Some (dict_get chan_nwin_dict k) /\
        dict_get clean_nwin_dict k = dict_get chan_nwin_dict k
  | Raise e =>
      exists k, e = KeyError k /\ k ∈ dict_keys chan_adj_dict /\
                dict_get chan_nwin_dict k = None
  end.
Proof.
  intros Hwf. unfold _clean_adj_results.
  pose proof (_clean_adj_loop_spec chan_adj_dict chan_nwin_dict [] []) as Hloop.
  destruct (_clean_adj_loop _ _ _ _) as [[a n]|e]; [|by apply Hloop].
  destruct Hloop as (-> & vs & -> & Hvs); [done..|]. simpl.
  split; [done|]. split; [by apply (dict_get_counts _ _ _ "" Hvs)|].
  intros k Hk. destruct (dict_get_counts _ _ _ k Hvs) as [Hkeys Hget].
  rewrite Hget by done. split; [|done].
  rewrite <- Hget by done. apply dict_get_is_Some. by rewrite Hkeys.
Qed.

(** ** [adjsrc_function] without windows *)

(** C9: with streams for [observed] and [synthetic], and [windows]
    either [None] or empty, [adjsrc_function] returns [None]; the world
    is as before, so nothing was measured. The configuration is not
    looked at. *)
Theorem adjsrc_function_no_windows (observed synthetic : Stream)
  (windows : option (list (list (Window F)))) (config : PyObj F)
  (adj_src_type : string) w :
  windows = None \/ windows = Some [] ->
  adjsrc_function (PStream observed) (PStream synthetic) windows config
    adj_src_type w = (Ok None, w).
Proof. by intros [-> | ->]. Qed.

(** ** [calculate_baz] *)

(** C4, as the code has it: [calculate_baz] returns the middle item of
    the triple of [gps2DistAzimuth], which is the azimuth from the first
    point (the event) to the second (the station), and not the last
    item, the back azimuth. *)
Lemma calculate_baz_middle (elat elon slat slon : F) w d az baz :
  gps2DistAzimuth elat elon slat slon = Ok (d, az, baz) ->
  calculate_baz elat elon slat slon w =
  (Ok az, mkWorld (heap w)
            (effects w ++ [CallGps2DistAzimuth elat elon slat slon])).
Proof. intros Hg. unfold calculate_baz, bind, emit, lift. simpl. by rewrite Hg. Qed.

Lemma calculate_baz_effects (elat elon slat slon : F) w r w1 :
  calculate_baz elat elon slat slon w = (r, w1) ->
  w1 = mkWorld (heap w)
         (effects w ++ [CallGps2DistAzimuth elat elon slat slon]).
Proof.
  unfold calculate_baz, bind, emit, lift. simpl.
  destruct (gps2DistAzimuth _ _ _ _) as [[[d az] baz]|e]; simpl;
    by intros [= _ <-].
Qed.

(** ** The window aggregator *)

Lemma select_by_head h (p : Trace F -> bool) (s : Stream) l :
  head (select_by h p s) = Some l ->
  exists t, h !! l = Some t /\ p t = true /\ l ∈ s.
Proof.
  unfold select_by. intros Hh.
  assert (In l (List.filter
    (fun l => match h !! l with Some tr => p tr | None => false end) s)) as Hin.
  { destruct (List.filter _ s); [done|]. injection Hh as ->. by left. }
  apply filter_In in Hin as [Hs Hp].
  destruct (h !! l) as [t|]; [|done].
  exists t. split_and!; [done..|]. by apply list_elem_of_In.
Qed.

(** The row pairs built from a non-empty window list have the shape
    that [calculate_adjsrc_on_trace] asks for. *)
Lemma window_rows_shape (chan_win : list (Window F)) :
  chan_win <> [] ->
  shape_is_n_by_2
    (map (fun _win => [relative_starttime _win; relative_endtime _win])
         chan_win) = true.
Proof.
  destruct chan_win as [|w0 rest]; [done|]. intros _. simpl.
  induction rest as [|w1 rest IH]; [done|]. done.
Qed.

(** What the body of the loop looks up and asks the engine, for one
    window list: the channel identity of its first window, and the
    engine's answer on the observed trace with that identity and the
    synthetic trace of the same component. [None] stands for an empty
    window list or a missing trace. *)
Definition channel_measurement h (observed synthetic : Stream)
  (config : Config F) (adj_src_type : string)
  (adjoint_src_flag plot_flag : bool) (chan_win : list (Window F))
  : option (string * Result (AdjointSource F)) :=
  w0 ← head chan_win;
  obs ← head (select_by h (matches_id (channel_id w0)) observed);
  obs_tr ← h !! obs;
  c ← last_char (stats_channel obs_tr);
  syn ← head (select_by h (matches_channel ("*" ++ c)) synthetic);
  syn_tr ← h !! syn;
  Some (channel_id w0,
        calculate_adjoint_source adj_src_type obs_tr syn_tr config
          (map (fun _win => [relative_starttime _win; relative_endtime _win])
               chan_win)
          adjoint_src_flag plot_flag).

(** One turn of the loop, when both traces are there: the answer of the
    engine is stored, and a failure of the engine leaves the dictionary
    as it was. *)
Lemma adjsrc_on_channel_measured (observed synthetic : Stream)
  (config : Config F) ty plot_flag adj_flag d chan_win w id r :
  channel_measurement (heap w) observed synthetic config ty adj_flag
    plot_flag chan_win = Some (id, r) ->
  exists w',
    adjsrc_on_channel observed synthetic (PConfig config) ty plot_flag
      adj_flag d chan_win w =
    (Ok (match r with Ok a => dict_set d id a | Raise _ => d end), w') /\
    heap w' = heap w.
Proof.
  unfold channel_measurement. intros Hm.
  destruct chan_win as [|w0 rest] eqn:Hcw; [done|]. rewrite <- Hcw in *.
  assert (chan_win <> []) as Hne by (by rewrite Hcw).
  assert (head chan_win = Some w0) as Hhead by (by rewrite Hcw).
  rewrite Hhead in Hm. simpl in Hm.
  destruct (head (select_by _ (matches_id _) observed)) as [obs|] eqn:Hobs;
    [|done]. simpl in Hm.
  destruct (heap w !! obs) as [obs_tr|] eqn:Hobs_tr; [|done]. simpl in Hm.
  destruct (last_char (stats_channel obs_tr)) as [c|] eqn:Hc; [|done].
  simpl in Hm.
  destruct (head (select_by _ (matches_channel _) synthetic)) as [syn|] eqn:Hsyn;
    [|done]. simpl in Hm.
  destruct (heap w !! syn) as [syn_tr|] eqn:Hsyn_tr; [|done]. simpl in Hm.
  injection Hm as <- <-.
  unfold adjsrc_on_channel. rewrite Hcw. rewrite <- Hcw.
  unfold bind at 1, try_except, select_id, bind, first_item.
  destruct (select_by (heap w) (matches_id (channel_id w0)) observed)
    as [|obs' sel] eqn:Hsel; [done|]. injection Hobs as ->.
  unfold ret. unfold deref at 1. rewrite Hobs_tr, Hc.
  unfold select_channel.
  destruct (select_by (heap w) (matches_channel ("*" ++ c)) synthetic)
    as [|syn' sel'] eqn:Hsel'; [done|]. injection Hsyn as ->.
  unfold calculate_adjsrc_on_trace.
  rewrite (window_rows_shape chan_win Hne). simpl.
  unfold try_except, bind, deref. rewrite Hobs_tr, Hsyn_tr.
  unfold emit, lift. simpl.
  destruct (calculate_adjoint_source _ _ _ _ _ _ _) as [a|e]; simpl;
    by eexists.
Qed.

(** A missing trace aborts the loop with [ValueError]. *)
Lemma adjsrc_on_channel_missing (observed synthetic : Stream)
  (config : PyObj F) ty plot_flag adj_flag d chan_win w cfg :
  chan_win <> [] ->
  channel_measurement (heap w) observed synthetic cfg ty adj_flag
    plot_flag chan_win = None ->
  exists msg,
    adjsrc_on_channel observed synthetic config ty plot_flag adj_flag d
      chan_win w = (Raise (ValueError msg), w).
Proof.
  unfold channel_measurement. intros Hne Hm.
  destruct chan_win as [|w0 rest] eqn:Hcw; [done|]. simpl in Hm.
  unfold adjsrc_on_channel.
  unfold bind at 1, try_except, select_id, bind, first_item.
  destruct (select_by (heap w) (matches_id (channel_id w0)) observed)
    as [|obs sel] eqn:Hsel; [by eexists|].
  destruct (select_by_head (heap w) (matches_id (channel_id w0)) observed obs)
    as (obs_tr & Hobs_tr & _); [by rewrite Hsel|].
  simpl in Hm. rewrite Hobs_tr in Hm. simpl in Hm.
  unfold ret, deref. rewrite Hobs_tr.
  destruct (last_char (stats_channel obs_tr)) as [c|]; [|by eexists].
  simpl in Hm. unfold select_channel.
  destruct (select_by (heap w) (matches_channel ("*" ++ c)) synthetic)
    as [|syn sel'] eqn:Hsel'; [by eexists|].
  destruct (select_by_head (heap w) (matches_channel ("*" ++ c)) synthetic syn)
    as (syn_tr & Hsyn_tr & _); [by rewrite Hsel'|].
  simpl in Hm. by rewrite Hsyn_tr in Hm.
Qed.

Lemma calculate_adjsrc_on_stream_loop (observed synthetic : Stream)
  (windows : list (list (Window F))) (config : Config F) ty plot_flag
  adj_flag d0 w :
  (forall chan_win, chan_win ∈ windows -> chan_win <> [] ->
     is_Some (channel_measurement (heap w) observed synthetic config ty
                adj_flag plot_flag chan_win)) ->
  exists d w',
    for_fold windows
      (adjsrc_on_channel observed synthetic (PConfig config) ty plot_flag
         adj_flag) d0 w = (Ok d, w') /\
    heap w' = heap w /\
    forall id, id ∈ dict_keys d <->
      id ∈ dict_keys d0 \/
      exists chan_win a, chan_win ∈ windows /\
        channel_measurement (heap w) observed synthetic config ty adj_flag
          plot_flag chan_win = Some (id, Ok a).
Proof.
  revert d0 w. induction windows as [|chan_win windows IH]; intros d0 w Hres.
  - exists d0, w. split_and!; [done..|]. intros id. split; [by left|].
    intros [?|(cw & a & Hin & _)]; [done|]. by apply elem_of_nil in Hin.
  - simpl. destruct (decide (chan_win = [])) as [->|Hne].
    + destruct (IH d0 w) as (d & w' & Hrun & Hheap & Hkeys).
      { intros cw Hin. apply Hres. by right. }
      exists d, w'. split_and!; [by rewrite <- Hrun|done|].
      intros id. rewrite Hkeys. split; intros [?|(cw & a & Hin & Hm)]; auto.
      * right. exists cw, a. split; [by right | done].
      * apply elem_of_cons in Hin as [->|Hin]; [done|]. right. eauto.
    + destruct (Hres chan_win) as [[id0 r] Hm]; [by left | done |].
      destruct (adjsrc_on_channel_measured observed synthetic config ty
                  plot_flag adj_flag d0 chan_win w id0 r Hm)
        as (w1 & Hstep & Hheap1).
      destruct (IH (match r with Ok a => dict_set d0 id0 a | Raise _ => d0 end)
                  w1) as (d & w' & Hrun & Hheap & Hkeys).
      { rewrite Hheap1. intros cw Hin. apply Hres. by right. }
      exists d, w'. split_and!.
      * by rewrite (bind_Ok _ _ _ _ _ Hstep).
      * congruence.
      * intros id. rewrite Hkeys, Hheap1. clear Hkeys Hrun IH.
        split.
        -- intros [Hin|(cw & a & Hin & Hcw)].
           ++ destruct r as [a|e]; [|by left].
              apply dict_keys_set in Hin as [->|Hin]; [|by left].
              right. exists chan_win, a. split; [by left | done].
           ++ right. exists cw, a. split; [by right | done].
        -- intros [Hin|(cw & a & Hin & Hcw)].
           ++ left. destruct r; [|done]. apply dict_keys_set. by right.
           ++ apply elem_of_cons in Hin as [->|Hin].
              ** left. rewrite Hm in Hcw. injection Hcw as -> ->.
                 apply dict_keys_set. by left.
              ** right. eauto.
Qed.

(** C3: when the traces of every channel with windows are there,
    [calculate_adjsrc_on_stream] returns, whatever the measurement
    engine does, and its result holds exactly the channels that head a
    non-empty window list for which the engine returned: a channel whose
    measurement raised is left out, and the exception goes no further. *)
Theorem calculate_adjsrc_on_stream_isolates_failures
  (observed synthetic : Stream) (windows : list (list (Window F)))
  (config : Config F) (adj_src_type : string)
  (plot_flag adjoint_src_flag : bool) w :
  (forall chan_win, chan_win ∈ windows -> chan_win <> [] ->
     is_Some (channel_measurement (heap w) observed synthetic config
                adj_src_type adjoint_src_flag plot_flag chan_win)) ->
  exists channel_adj_dict w',
    calculate_adjsrc_on_stream observed synthetic windows (PConfig config)
      adj_src_type plot_flag adjoint_src_flag w = (Ok channel_adj_dict, w') /\
    heap w' = heap w /\
    forall id, id ∈ dict_keys channel_adj_dict <->
      exists chan_win adjsrc, chan_win ∈ windows /\
        channel_measurement (heap w) observed synthetic config adj_src_type
          adjoint_src_flag plot_flag chan_win = Some (id, Ok adjsrc).
Proof.
  intros Hres. unfold calculate_adjsrc_on_stream.
  destruct (calculate_adjsrc_on_stream_loop observed synthetic windows config
              adj_src_type plot_flag adjoint_src_flag [] w Hres)
    as (d & w' & Hrun & Hheap & Hkeys).
  exists d, w'. split_and!; [done..|]. intros id. rewrite Hkeys.
  split; [intros [Hin|?]; [by apply elem_of_nil in Hin | done] | by right].
Qed.

(** ** Zero padding *)

Lemma slice_assign_zeros (nb na : nat) (d : list F) :
  slice_assign (zeros (nb + length d + na)) nb d = zeros nb ++ d ++ zeros na.
Proof.
  unfold slice_assign, zeros.
  rewrite take_replicate, drop_replicate.
  do 2 f_equal; f_equal; lia.
Qed.

(** [int((tr_starttime - starttime) / dt)] is [i]. *)
Definition leading_quotient (starttime : F) t (i : Z) : Prop :=
  exists q, fdiv (fsub (stats_starttime t) starttime) (stats_delta t) = Some q /\
            ftrunc q = Ok i.

(** [int((endtime - tr_endtime) / dt)] is [j]. *)
Definition trailing_quotient (endtime : F) t (j : Z) : Prop :=
  exists q, fdiv (fsub endtime (stats_endtime t)) (stats_delta t) = Some q /\
            ftrunc q = Ok j.

(** A trace between [nb] leading and [na] trailing zeros, starting [nb]
    samples earlier. *)
Definition padded t (nb na : Z) : Trace F :=
  set_starttime
    (set_data t (zeros (Z.to_nat nb) ++ data t ++ zeros (Z.to_nat na)))
    (fsub (stats_starttime t) (fmul (of_Z nb) (stats_delta t))).

Lemma padding_count_run (x dt : F) q i w :
  fdiv x dt = Some q -> ftrunc q = Ok i ->
  padding_count x dt w = (Ok (Z.max (i + 1) 0), w).
Proof.
  intros Hq Hi. unfold padding_count. rewrite Hq.
  unfold bind, lift, ret. by rewrite Hi.
Qed.

Lemma zero_padding_trace_run (starttime endtime : F) l w t i j :
  heap w !! l = Some t ->
  leading_quotient starttime t i -> trailing_quotient endtime t j ->
  zero_padding_trace starttime endtime l w =
  (Ok tt, mkWorld (<[l := padded t (Z.max (i + 1) 0) (Z.max (j + 1) 0)]> (heap w))
            (effects w)).
Proof.
  intros Hl (q1 & Hq1 & Hi) (q2 & Hq2 & Hj). unfold zero_padding_trace.
  rewrite (bind_Ok _ _ _ _ _ (deref_Some _ _ _ Hl)).
  rewrite (bind_Ok _ _ _ _ _ (padding_count_run _ _ _ _ _ Hq1 Hi)).
  rewrite (bind_Ok _ _ _ _ _ (padding_count_run _ _ _ _ _ Hq2 Hj)).
  rewrite (bind_Ok _ _ _ _ _ (modify_Some _ _ _ _ Hl)).
  assert (l < length (heap w)) as Hlt by (by eapply lookup_lt_Some).
  erewrite modify_Some by (by apply list_lookup_insert_eq). simpl.
  rewrite list_insert_insert_eq. unfold npts, padded.
  by rewrite slice_assign_zeros.
Qed.

Lemma zero_padding_loop (stream : Stream) (starttime endtime : F) w :
  NoDup stream ->
  (forall l, l ∈ stream -> exists t i j,
     heap w !! l = Some t /\ leading_quotient starttime t i /\
     trailing_quotient endtime t j) ->
  exists w',
    for_each stream (zero_padding_trace starttime endtime) w = (Ok tt, w') /\
    effects w' = effects w /\
    (forall l, l ∉ stream -> heap w' !! l = heap w !! l) /\
    forall l t i j, l ∈ stream -> heap w !! l = Some t ->
      leading_quotient starttime t i -> trailing_quotient endtime t j ->
      heap w' !! l = Some (padded t (Z.max (i + 1) 0) (Z.max (j + 1) 0)).
Proof.
  revert w. induction stream as [|l0 stream IH]; intros w Hnd Hall.
  - exists w. split_and!; [done..|]. by intros l t i j ?%elem_of_nil.
  - apply list.NoDup_cons in Hnd as [Hl0 Hnd].
    destruct (Hall l0) as (t0 & i0 & j0 & Hh0 & Hi0 & Hj0); [left|].
    pose proof (zero_padding_trace_run starttime endtime l0 w t0 i0 j0
                  Hh0 Hi0 Hj0) as Hstep.
    set (w1 := mkWorld _ _) in Hstep.
    assert (forall l, l <> l0 -> heap w1 !! l = heap w !! l) as Hother.
    { intros l Hne. simpl. by apply list_lookup_insert_ne. }
    destruct (IH w1 Hnd) as (w' & Hrun & Heff & Hout & Hin).
    { intros l Hl. rewrite Hother by (by intros ->). apply Hall. by right. }
    exists w'. split_and!.
    + simpl. by rewrite (bind_Ok _ _ _ _ _ Hstep).
    + by rewrite Heff.
    + intros l [Hne Hl]%not_elem_of_cons. rewrite Hout by done. by apply Hother.
    + intros l t i j [->|Hl]%elem_of_cons Ht Hi Hj.
      * rewrite Hout by done. simpl. rewrite list_lookup_insert_eq.
        -- rewrite Hh0 in Ht. injection Ht as ->.
           destruct Hi as (q & Hq & Hi), Hi0 as (q0 & Hq0 & Hi0).
           destruct Hj as (q' & Hq' & Hj), Hj0 as (q0' & Hq0' & Hj0).
           rewrite Hq in Hq0. injection Hq0 as <-.
           rewrite Hq' in Hq0'. injection Hq0' as <-.
           congruence.
        -- by eapply lookup_lt_Some.
      * apply Hin; [done| |done..]. rewrite Hother; [done|by intros ->].
Qed.

(** C2, as the code has it: [zero_padding_stream] never trims. Every
    trace of the stream keeps its samples, between
    [max(int((tr_starttime - starttime) / dt) + 1, 0)] leading and
    [max(int((endtime - tr_endtime) / dt) + 1, 0)] trailing zeros, and
    starts that many samples earlier; nothing else changes. The [+ 1]
    pads a side that is already covered: whenever the leading quotient
    is not negative, as for a trace that starts exactly at [starttime],
    the array grows and padding is not the identity. *)
Theorem zero_padding_stream_adds_margin (stream : Stream)
  (starttime endtime : F) w :
  NoDup stream ->
  fgtb starttime endtime = false ->
  (forall l, l ∈ stream -> exists t i j,
     heap w !! l = Some t /\ leading_quotient starttime t i /\
     trailing_quotient endtime t j) ->
  exists w',
    zero_padding_stream stream starttime endtime w = (Ok tt, w') /\
    effects w' = effects w /\
    (forall l, l ∉ stream -> heap w' !! l = heap w !! l) /\
    forall l t i j, l ∈ stream -> heap w !! l = Some t ->
      leading_quotient starttime t i -> trailing_quotient endtime t j ->
      exists t',
        heap w' !! l = Some t' /\
        data t' = zeros (Z.to_nat (Z.max (i + 1) 0)) ++ data t ++
                  zeros (Z.to_nat (Z.max (j + 1) 0)) /\
        stats_starttime t' =
          fsub (stats_starttime t)
               (fmul (of_Z (Z.max (i + 1) 0)) (stats_delta t)) /\
        stats_delta t' = stats_delta t /\
        trace_id t' = trace_id t /\
        ((0 <= i)%Z -> length (data t) < length (data t')).
Proof.
  intros Hnd Hle Hall. unfold zero_padding_stream. rewrite Hle.
  destruct (zero_padding_loop stream starttime endtime w Hnd Hall)
    as (w' & Hrun & Heff & Hout & Hin).
  exists w'. split_and!; [done..|].
  intros l t i j Hl Ht Hi Hj. eexists. split; [by eapply Hin|].
  simpl. split_and!; [done..|].
  intros Hi0. rewrite !length_app. unfold zeros. rewrite !length_replicate. lia.
Qed.

(** ** Weighted summation *)

(** The trace that [stream.select(id=id)[0]] returns. *)
Definition resolve h (s : Stream) (id : string) : option loc :=
  head (select_by h (matches_id id) s).

(** The sample array of that trace. *)
Definition samples h (s : Stream) (id : string) : option (list F) :=
  l ← resolve h s id; t ← h !! l; Some (data t).

(** Every channel identity of a weight dictionary, in iteration order,
    and the first one of each component. *)
Definition channels (wd : dict (dict F)) : list string :=
  mjoin ((fun e => dict_keys e.2) <$> wd).

Definition first_channels (wd : dict (dict F)) : list string :=
  omap (fun e => head (dict_keys e.2)) wd.

(** The weighted sum of the sample arrays of one component, in the
    order in which the code accumulates it: the first array times its
    weight, then each further weight times its array, added item by
    item. *)
Definition add_channel h (s : Stream) (acc : option (list F))
  (chan : string * F) : option (list F) :=
  a ← acc; d ← samples h s chan.1;
  Some (zip_with fadd a (map (fun x => fmul chan.2 x) d)).

Definition weighted_sum h (s : Stream) (comp_weights : dict F)
  : option (list F) :=
  match comp_weights with
  | [] => None
  | (id1, w1) :: rest =>
      foldl (add_channel h s)
            (map (fun x => fmul x w1) <$> samples h s id1) rest
  end.

(** What the summation needs of its input to go through as intended:
    - components are the keys of a dictionary, and each has a channel;
    - every channel identity selects a trace of the stream, and
      different identities select different traces;
    - the arrays of one component have one length;
    - the first trace of a component, once its location code is
      cleared, is selected by no other channel identity. *)
Record sum_ready h (s : Stream) (wd : dict (dict F)) : Prop := {
  ready_comps : NoDup (dict_keys wd);
  ready_nonempty : Forall (fun e => e.2 <> []) wd;
  ready_resolved : Forall (fun id => is_Some (resolve h s id)) (channels wd);
  ready_distinct : NoDup (resolve h s <$> channels wd);
  ready_lengths :
    Forall (fun e =>
      Forall (fun c => length <$> samples h s c =
                       length <$> (head (dict_keys e.2) ≫= samples h s))
             (dict_keys e.2)) wd;
  ready_no_clash :
    Forall (fun id1 =>
      Forall (fun c => c = id1 \/
                (fun t1 => matches_id c (set_location t1 "")) <$>
                  (resolve h s id1 ≫= (h !!.)) = Some false)
             (channels wd)) (first_channels wd)
}.

Lemma resolve_Some h s id l :
  resolve h s id = Some l ->
  exists t, h !! l = Some t /\ matches_id id t = true /\ l ∈ s.
Proof. apply select_by_head. Qed.

(** The first match of a filter stays the first match under a stricter
    test that it still passes. *)
Lemma head_filter_stable {A} (p p' : A -> bool) (xs : list A) x :
  head (List.filter p xs) = Some x ->
  (forall y, p' y = true -> p y = true) -> p' x = true ->
  head (List.filter p' xs) = Some x.
Proof.
  intros Hh Himp Hx. induction xs as [|y xs IH]; [done|]. simpl in *.
  destruct (p y) eqn:Hy.
  - injection Hh as ->. by rewrite Hx.
  - destruct (p' y) eqn:Hy'; [|by apply IH].
    apply Himp in Hy'. congruence.
Qed.

Lemma matches_id_names (id : string) t t' :
  trace_id t = trace_id t' -> matches_id id t = matches_id id t'.
Proof. unfold matches_id. by intros ->. Qed.

Lemma existsb_eqb_false (c : string) (cs : list string) :
  c ∉ cs -> existsb (String.eqb c) cs = false.
Proof.
  induction cs as [|c' cs IH]; [done|]. intros [Hne Hcs]%not_elem_of_cons.
  simpl. destruct (String.eqb_spec c c'); [done|]. by apply IH.
Qed.

Lemma existsb_eqb_snoc (c : string) (cs : list string) :
  existsb (String.eqb c) (cs ++ [c]) = true.
Proof.
  rewrite existsb_app. simpl. rewrite String.eqb_refl.
  by rewrite orb_true_r.
Qed.

Section SumProof.
Variables (h0 : list (Trace F)) (s : Stream) (wd : dict (dict F)).
Hypothesis Hready : sum_ready h0 s wd.

(** The heap during the summation: as at the start outside [mods], and
    the traces of [mods] with their location code cleared and other
    samples. *)
Definition agrees (mods : list loc) h : Prop :=
  length h = length h0 /\
  (forall l, l ∉ mods -> h !! l = h0 !! l) /\
  (forall l, l ∈ mods -> exists t0 d,
     h0 !! l = Some t0 /\ h !! l = Some (set_location (set_data t0 d) "")).

(** [mods] holds first traces of components only. *)
Definition first_locs (mods : list loc) : Prop :=
  forall l, l ∈ mods ->
    exists id1, id1 ∈ first_channels wd /\ resolve h0 s id1 = Some l.

Lemma no_clash id1 c l1 t1 :
  id1 ∈ first_channels wd -> c ∈ channels wd -> c <> id1 ->
  resolve h0 s id1 = Some l1 -> h0 !! l1 = Some t1 ->
  matches_id c (set_location t1 "") = false.
Proof.
  intros Hid1 Hc Hne Hl1 Ht1.
  pose proof (ready_no_clash _ _ _ Hready) as Hnc.
  rewrite list.Forall_forall in Hnc. specialize (Hnc id1 Hid1).
  rewrite list.Forall_forall in Hnc. destruct (Hnc c Hc) as [?|Hm]; [done|].
  rewrite Hl1 in Hm. simpl in Hm. rewrite Ht1 in Hm. simpl in Hm. congruence.
Qed.

(** Selection by a channel identity finds the same trace during the
    summation as at its start, as long as that trace is untouched. *)
Lemma resolve_stable mods h c lc :
  agrees mods h -> first_locs mods -> c ∈ channels wd ->
  resolve h0 s c = Some lc -> lc ∉ mods -> resolve h s c = Some lc.
Proof.
  intros (Hlen & Hout & Hin) Hfirst Hc Hlc Hfresh.
  unfold resolve, select_by in *.
  eapply head_filter_stable; [exact Hlc | |].
  - intros y Hy. destruct (decide (y ∈ mods)) as [Hmod|Hmod].
    + destruct (Hin y Hmod) as (t0 & d & Ht0 & Hty). rewrite Hty in Hy.
      destruct (Hfirst y Hmod) as (id1 & Hid1 & Hres).
      assert (c <> id1) as Hne.
      { intros ->. unfold resolve, select_by in Hres. congruence. }
      rewrite (matches_id_names c _ (set_location t0 "")) in Hy by done.
      by rewrite (no_clash id1 c y t0) in Hy.
    + by rewrite <- (Hout y Hmod).
  - rewrite (Hout lc Hfresh).
    destruct (select_by_head _ _ _ _ Hlc) as (t & -> & Hm & _). done.
Qed.

Lemma agrees_update mods h l t0 d :
  agrees mods h -> l ∈ mods -> h0 !! l = Some t0 ->
  agrees mods (<[l := set_location (set_data t0 d) ""]> h).
Proof.
  intros (Hlen & Hout & Hin) Hl Ht0. split_and!.
  - by rewrite length_insert.
  - intros l' Hl'. rewrite list_lookup_insert_ne by (by intros ->). auto.
  - intros l' Hl'. destruct (decide (l = l')) as [<-|Hne].
    + exists t0, d. split; [done|]. apply list_lookup_insert_eq.
      rewrite Hlen. by eapply lookup_lt_Some.
    + rewrite list_lookup_insert_ne by done. auto.
Qed.

Lemma agrees_extend mods h l t0 d :
  agrees mods h -> l ∉ mods -> h0 !! l = Some t0 ->
  agrees (l :: mods) (<[l := set_location (set_data t0 d) ""]> h).
Proof.
  intros (Hlen & Hout & Hin) Hl Ht0. split_and!.
  - by rewrite length_insert.
  - intros l' [Hne Hl']%not_elem_of_cons.
    rewrite list_lookup_insert_ne by done. auto.
  - intros l' Hl'. destruct (decide (l = l')) as [<-|Hne].
    + exists t0, d. split; [done|]. apply list_lookup_insert_eq.
      rewrite Hlen. by eapply lookup_lt_Some.
    + rewrite list_lookup_insert_ne by done.
      apply elem_of_cons in Hl' as [?|Hl']; [congruence | auto].
Qed.

(** The channels of a component after the first: each array is added
    to the trace of the component, in place. *)
Lemma sum_rest_run comp l1 t1 mods (rest : dict F) a st w :
  agrees (l1 :: mods) (heap w) -> first_locs (l1 :: mods) ->
  h0 !! l1 = Some t1 ->
  heap w !! l1 = Some (set_location (set_data t1 a) "") ->
  existsb (String.eqb comp) (done_comps st) = true ->
  comp_tr st = Some l1 ->
  Forall (fun c => c ∈ channels wd /\
            exists lc, resolve h0 s c = Some lc /\ (lc ∉ l1 :: mods) /\
                       length <$> samples h0 s c = Some (length a))
         (dict_keys rest) ->
  exists a' w',
    for_fold rest (sum_channel s comp) st w = (Ok st, w') /\
    effects w' = effects w /\
    heap w' = <[l1 := set_location (set_data t1 a') ""]> (heap w) /\
    foldl (add_channel h0 s) (Some a) rest = Some a' /\
    length a' = length a.
Proof.
  intros Hag Hfirst Ht1. revert a w Hag.
  induction rest as [|[c wc] rest IH]; intros a w Hag Hcur Hdone Hctr Hall.
  - exists a, w. split_and!; [done..| |done|done].
    by rewrite list_insert_id.
  - apply list.Forall_cons in Hall as [(Hc & lc & Hlc & Hfresh & Hlen) Hall].
    simpl in Hc, Hlc, Hlen.
    destruct (resolve_Some _ _ _ _ Hlc) as (tc & Htc & _ & _).
    assert (samples h0 s c = Some (data tc)) as Hsam.
    { unfold samples. rewrite Hlc. simpl. by rewrite Htc. }
    rewrite Hsam in Hlen. simpl in Hlen. injection Hlen as Hlen.
    pose proof (resolve_stable _ _ _ _ Hag Hfirst Hc Hlc Hfresh) as Hsel.
    assert (heap w !! lc = Some tc) as Htc'.
    { destruct Hag as (_ & Hout & _). by rewrite Hout. }
    set (d := zip_with fadd a (map (fun x => fmul wc x) (data tc))).
    set (w1 := mkWorld (<[l1 := set_location (set_data t1 d) ""]> (heap w))
                       (effects w)).
    assert (sum_channel s comp st (c, wc) w = (Ok st, w1)) as Hstep.
    { unfold sum_channel. rewrite Hdone, Hctr. simpl.
      rewrite (bind_Ok _ _ _ _ _ (deref_Some _ _ _ Hcur)).
      unfold select_id, bind at 1. unfold resolve in Hsel.
      destruct (select_by (heap w) (matches_id c) s) as [|lc' sel]; [done|].
      injection Hsel as ->. simpl. rewrite bind_ret.
      rewrite (bind_Ok _ _ _ _ _ (deref_Some _ _ _ Htc')).
      unfold iadd. simpl. rewrite length_map, Hlen, Nat.eqb_refl.
      unfold bind at 1, lift.
      rewrite (bind_Ok _ _ _ _ _ (modify_Some _ _ _ _ Hcur)). done. }
    assert (length d = length a) as Hd.
    { unfold d. rewrite length_zip_with, length_map. lia. }
    assert (l1 < length (heap w)) as Hlt by (by eapply lookup_lt_Some).
    destruct (IH d w1) as (a' & w' & Hrun & Heff & Hheap & Hfold & Hlen').
    + apply agrees_update; [done | left | done].
    + simpl. by apply list_lookup_insert_eq.
    + done.
    + done.
    + by rewrite Hd.
    + exists a', w'. split_and!.
      * simpl. by rewrite (bind_Ok _ _ _ _ _ Hstep).
      * done.
      * rewrite Hheap. simpl. apply list_insert_insert_eq.
      * simpl. rewrite <- Hfold. f_equal.
        unfold add_channel. simpl. by rewrite Hsam.
      * congruence.
Qed.

Lemma agrees_equiv mods mods' h :
  (forall l, l ∈ mods <-> l ∈ mods') -> agrees mods h -> agrees mods' h.
Proof.
  intros Heq (Hlen & Hout & Hin). split_and!; [done| |].
  - intros l Hl. apply Hout. by rewrite Heq.
  - intros l Hl. apply Hin. by rewrite Heq.
Qed.

(** One component: its first trace is scaled and loses its location
    code, and then receives the other arrays. *)
Lemma sum_component_run mods st w comp id1 k1 (rest : dict F) :
  agrees mods (heap w) -> first_locs mods ->
  existsb (String.eqb comp) (done_comps st) = false ->
  id1 ∈ first_channels wd ->
  Forall (fun c => c ∈ channels wd) (id1 :: dict_keys rest) ->
  NoDup (resolve h0 s <$> (id1 :: dict_keys rest)) ->
  Forall (fun c => forall lc, resolve h0 s c = Some lc -> lc ∉ mods)
         (id1 :: dict_keys rest) ->
  Forall (fun c => length <$> samples h0 s c = length <$> samples h0 s id1)
         (dict_keys rest) ->
  exists l1 t1 d w',
    resolve h0 s id1 = Some l1 /\ h0 !! l1 = Some t1 /\
    weighted_sum h0 s ((id1, k1) :: rest) = Some d /\
    sum_component s st (comp, (id1, k1) :: rest) w =
      (Ok (mkSumState (new_stream st ++ [l1]) (done_comps st ++ [comp])
             (Some l1)), w') /\
    effects w' = effects w /\
    heap w' = <[l1 := set_location (set_data t1 d) ""]> (heap w) /\
    agrees (l1 :: mods) (heap w').
Proof.
  intros Hag Hfirst Hdone Hid1 Hchan Hnd Hfresh Hlen.
  apply list.Forall_cons in Hchan as [Hc1 Hchan].
  apply list.Forall_cons in Hfresh as [Hfresh1 Hfresh].
  pose proof (ready_resolved _ _ _ Hready) as Hres.
  rewrite list.Forall_forall in Hres.
  destruct (Hres id1 Hc1) as [l1 Hl1].
  destruct (resolve_Some _ _ _ _ Hl1) as (t1 & Ht1 & _ & _).
  specialize (Hfresh1 l1 Hl1).
  pose proof (resolve_stable _ _ _ _ Hag Hfirst Hc1 Hl1 Hfresh1) as Hsel.
  assert (heap w !! l1 = Some t1) as Ht1'.
  { destruct Hag as (_ & Hout & _). by rewrite Hout. }
  assert (l1 < length (heap w)) as Hlt by (by eapply lookup_lt_Some).
  assert (samples h0 s id1 = Some (data t1)) as Hsam.
  { unfold samples. rewrite Hl1. simpl. by rewrite Ht1. }
  set (a0 := map (fun x => fmul x k1) (data t1)).
  set (st1 := mkSumState (new_stream st) (done_comps st ++ [comp]) (Some l1)).
  set (w1' := mkWorld (<[l1 := set_location (set_data t1 a0) ""]> (heap w))
                      (effects w)).
  assert (sum_channel s comp st (id1, k1) w = (Ok st1, w1')) as Hstep.
  { unfold sum_channel. rewrite Hdone. simpl.
    unfold select_id, bind at 1. unfold resolve in Hsel.
    destruct (select_by (heap w) (matches_id id1) s) as [|l1' sel]; [done|].
    injection Hsel as ->. simpl. rewrite bind_ret.
    rewrite (bind_Ok _ _ _ _ _ (modify_Some _ _ _ _ Ht1')).
    assert (heap (mkWorld (<[l1 := set_data t1 a0]> (heap w)) (effects w))
              !! l1 = Some (set_data t1 a0)) as Ht1''.
    { simpl. by apply list_lookup_insert_eq. }
    rewrite (bind_Ok _ _ _ _ _ (modify_Some _ _ _ _ Ht1'')).
    unfold ret, st1, w1'. simpl. by rewrite list_insert_insert_eq. }
  assert (agrees (l1 :: mods) (heap w1')) as Hag1.
  { by apply agrees_extend. }
  assert (first_locs (l1 :: mods)) as Hfirst1.
  { intros l [->|Hl]%elem_of_cons; [by exists id1 | by apply Hfirst]. }
  destruct (sum_rest_run comp l1 t1 mods rest a0 st1 w1')
    as (d & w' & Hrun & Heff & Hheap & Hfold & _);
    [done..| by apply list_lookup_insert_eq | by apply existsb_eqb_snoc | done | |].
  { rewrite list.Forall_forall. intros c Hc.
    rewrite list.Forall_forall in Hchan, Hfresh, Hlen.
    split; [by apply Hchan|].
    destruct (Hres c (Hchan c Hc)) as [lc Hlc]. exists lc.
    split_and!; [done| |].
    - apply not_elem_of_cons. split; [|by eapply Hfresh].
      intros ->. rewrite fmap_cons in Hnd.
      apply list.NoDup_cons in Hnd as [Hnot _]. apply Hnot.
      rewrite Hl1, <- Hlc. by apply list_elem_of_fmap_2.
    - rewrite (Hlen c Hc), Hsam. simpl. unfold a0. by rewrite length_map. }
  exists l1, t1, d, w'. split_and!; [done..| | | | |].
  - unfold weighted_sum. by rewrite Hsam.
  - unfold sum_component. rewrite for_fold_cons. unfold bind at 1.
    by rewrite (bind_Ok _ _ _ _ _ Hstep), Hrun.
  - by rewrite Heff.
  - rewrite Hheap. simpl. apply list_insert_insert_eq.
  - rewrite Hheap. simpl. rewrite list_insert_insert_eq.
    by apply agrees_extend.
Qed.

Lemma channels_app (wd1 wd2 : dict (dict F)) :
  channels (wd1 ++ wd2) = channels wd1 ++ channels wd2.
Proof. unfold channels. by rewrite fmap_app, join_app. Qed.

Lemma first_channel_elem (wd' : dict (dict F)) (e : string * dict F) id :
  e ∈ wd' -> head (dict_keys e.2) = Some id -> id ∈ first_channels wd'.
Proof. intros He Hid. apply list_elem_of_omap. by exists e. Qed.

Lemma channel_elem (wd' : dict (dict F)) (e : string * dict F) c :
  e ∈ wd' -> c ∈ dict_keys e.2 -> c ∈ channels wd'.
Proof.
  intros He Hc. apply list_elem_of_join. exists (dict_keys e.2).
  split; [done|]. by apply (list_elem_of_fmap_2 (fun e => dict_keys e.2)).
Qed.

Lemma head_elem {A} (xs : list A) x : head xs = Some x -> x ∈ xs.
Proof. destruct xs; [done|]. intros [= ->]. left. Qed.

(** The trace of a component once it is summed: the first trace of the
    component as it was, but for its samples, which are the weighted
    sum, and its location code, which is empty. *)
Definition summed h (e : string * dict F) (l : loc) : Prop :=
  exists id1 t1 d,
    head (dict_keys e.2) = Some id1 /\ resolve h0 s id1 = Some l /\
    h0 !! l = Some t1 /\ weighted_sum h0 s e.2 = Some d /\
    h !! l = Some (set_location (set_data t1 d) "").

Lemma sum_outer_run (wd1 wd2 : dict (dict F)) st w :
  wd = wd1 ++ wd2 ->
  agrees (new_stream st) (heap w) ->
  Forall2 (summed (heap w)) wd1 (new_stream st) ->
  done_comps st = dict_keys wd1 ->
  exists st' w',
    for_fold wd2 (sum_component s) st w = (Ok st', w') /\
    effects w' = effects w /\
    agrees (new_stream st') (heap w') /\
    Forall2 (summed (heap w')) wd (new_stream st').
Proof.
  revert wd1 st w. induction wd2 as [|[comp cw] wd2 IH];
    intros wd1 st w Hwd Hag Hsum Hdone.
  - rewrite app_nil_r in Hwd. subst wd1. by exists st, w.
  - assert ((comp, cw) ∈ wd) as He.
    { rewrite Hwd. apply elem_of_app. right. left. }
    destruct cw as [|[id1 k1] rest].
    { pose proof (ready_nonempty _ _ _ Hready) as Hne.
      rewrite list.Forall_forall in Hne. by destruct (Hne _ He). }
    (* every trace summed so far is the first trace of a component of wd1 *)
    assert (forall l, l ∈ new_stream st ->
              exists id1', id1' ∈ first_channels wd /\ id1' ∈ channels wd1 /\
                           resolve h0 s id1' = Some l) as Hprev.
    { intros l Hl. apply list_elem_of_lookup in Hl as [i Hi].
      destruct (Forall2_lookup_r _ _ _ _ _ Hsum Hi)
        as (e' & He' & id1' & t1' & d' & Hhd & Hres & _).
      apply list_elem_of_lookup_2 in He'. exists id1'. split_and!; [| |done].
      - apply (first_channel_elem wd e'); [|done].
        rewrite Hwd. apply elem_of_app. by left.
      - apply (channel_elem wd1 e'); [done|]. by apply head_elem. }
    assert (first_locs (new_stream st)) as Hfirst.
    { intros l Hl. destruct (Hprev l Hl) as (id1' & ? & _ & ?). eauto. }
    (* what the readiness of the input says about this component *)
    pose proof (ready_comps _ _ _ Hready) as Hcomps.
    rewrite Hwd in Hcomps. unfold dict_keys in Hcomps.
    rewrite fmap_app, fmap_cons in Hcomps. simpl in Hcomps.
    apply list.NoDup_app in Hcomps as (_ & Hcomp & _).
    assert (comp ∉ done_comps st) as Hnew.
    { rewrite Hdone. intros Hin. apply (Hcomp _ Hin). left. }
    pose proof (ready_distinct _ _ _ Hready) as Hdist.
    rewrite Hwd, channels_app in Hdist.
    change (channels ((comp, (id1, k1) :: rest) :: wd2))
      with ((id1 :: dict_keys rest) ++ channels wd2) in Hdist.
    rewrite !fmap_app in Hdist.
    apply list.NoDup_app in Hdist as (_ & Hdisj & Hdist).
    apply list.NoDup_app in Hdist as (Hdist & _ & _).
    assert (forall c, c ∈ id1 :: dict_keys rest -> c ∈ channels wd) as Hchan.
    { intros c Hc. by apply (channel_elem wd (comp, (id1, k1) :: rest)). }
    pose proof (ready_lengths _ _ _ Hready) as Hlens.
    rewrite list.Forall_forall in Hlens. specialize (Hlens _ He).
    simpl in Hlens. apply list.Forall_cons in Hlens as [_ Hlens].
    destruct (sum_component_run (new_stream st) st w comp id1 k1 rest)
      as (l1 & t1 & d & w1 & Hl1 & Ht1 & Hws & Hrun & Heff & Hheap & Hag1);
      [done | done | by apply existsb_eqb_false
      | by apply (first_channel_elem wd (comp, (id1, k1) :: rest))
      | by apply list.Forall_forall | done | | done |].
    { apply list.Forall_forall. intros c Hc lc Hlc Hin.
      destruct (Hprev lc Hin) as (id1' & _ & Hin' & Hres').
      apply (Hdisj (Some lc)).
      - rewrite <- Hres'. by apply list_elem_of_fmap_2.
      - apply elem_of_app. left. rewrite <- Hlc. by apply list_elem_of_fmap_2. }
    assert (l1 ∉ new_stream st) as Hl1new.
    { intros Hin. destruct (Hprev l1 Hin) as (id1' & _ & Hin' & Hres').
      apply (Hdisj (Some l1)).
      - rewrite <- Hres'. by apply list_elem_of_fmap_2.
      - apply elem_of_app. left. rewrite <- Hl1.
        apply list_elem_of_fmap_2. left. }
    assert (l1 < length (heap w)) as Hlt.
    { destruct Hag as (Hlen & _). rewrite Hlen. by eapply lookup_lt_Some. }
    destruct (IH (wd1 ++ [(comp, (id1, k1) :: rest)])
                (mkSumState (new_stream st ++ [l1]) (done_comps st ++ [comp])
                   (Some l1)) w1)
      as (st' & w' & Hloop & Heff' & Hag' & Hsum').
    + by rewrite <- app_assoc.
    + simpl. eapply agrees_equiv; [|exact Hag1].
      intros l. rewrite elem_of_app, elem_of_cons, list_elem_of_singleton.
      tauto.
    + simpl. apply Forall2_app.
      * apply Forall2_same_length_lookup. split; [by eapply Forall2_length|].
        intros i e' l Hi Hi'.
        destruct (Forall2_lookup_lr _ _ _ _ _ _ Hsum Hi Hi')
          as (id1' & t1' & d' & ? & ? & ? & ? & Hcur).
        exists id1', t1', d'. split_and!; [done..|].
        rewrite Hheap, list_lookup_insert_ne; [done|].
        intros ->. apply Hl1new. by eapply list_elem_of_lookup_2.
      * constructor; [|constructor]. exists id1, t1, d.
        split_and!; [done..|]. rewrite Hheap. by apply list_lookup_insert_eq.
    + simpl. rewrite Hdone. unfold dict_keys. by rewrite fmap_app.
    + exists st', w'. split_and!; [|congruence|done|done].
      rewrite for_fold_cons. by rewrite (bind_Ok _ _ _ _ _ Hrun).
Qed.

End SumProof.

(** The summation on a ready input, in full: it returns one reference
    per component, the first trace of that component, which by then
    carries the weighted sum and no location code; every other trace is
    as before. *)
Lemma sum_adj_on_component_run (adj_stream : Stream)
  (weight_dict : dict (dict F)) w :
  sum_ready (heap w) adj_stream weight_dict ->
  exists new_stream w',
    sum_adj_on_component adj_stream weight_dict w = (Ok new_stream, w') /\
    effects w' = effects w /\
    length (heap w') = length (heap w) /\
    (forall l, l ∉ new_stream -> heap w' !! l = heap w !! l) /\
    Forall2 (summed (heap w) adj_stream (heap w')) weight_dict new_stream.
Proof.
  intros Hready.
  destruct (sum_outer_run (heap w) adj_stream weight_dict Hready []
              weight_dict (mkSumState [] [] None) w)
    as (st' & w' & Hrun & Heff & (Hlen & Hout & _) & Hsum); [done| |done..|].
  { split_and!; [done..|]. by intros l ?%elem_of_nil. }
  exists (new_stream st'), w'. split_and!; [|done..].
  unfold sum_adj_on_component. by rewrite (bind_Ok _ _ _ _ _ Hrun).
Qed.

(** X15: On a ready input, [sum_adj_on_component] returns one trace per
    component of the weight dictionary, in order, whose samples are the
    weighted sum of the sample arrays of the channels named for that
    component, and whose location code is empty. *)
Theorem sum_adj_on_component_weighted_sum (adj_stream : Stream)
  (weight_dict : dict (dict F)) w :
  sum_ready (heap w) adj_stream weight_dict ->
  exists new_stream w',
    sum_adj_on_component adj_stream weight_dict w = (Ok new_stream, w') /\
    Forall2
      (fun entry l => exists tr,
         heap w' !! l = Some tr /\
         weighted_sum (heap w) adj_stream entry.2 = Some (data tr) /\
         stats_location tr = "")
      weight_dict new_stream.
Proof.
  intros Hready.
  destruct (sum_adj_on_component_run adj_stream weight_dict w Hready)
    as (ns & w' & Hrun & _ & _ & _ & Hsum).
  exists ns, w'. split; [done|].
  eapply list.Forall2_impl; [exact Hsum|].
  intros e l (id1 & t1 & d & _ & _ & _ & Hd & Hl). by eexists.
Qed.

(** ** Post-processing: conversion and the time offset *)

Lemma modify_last h t (f : Trace F -> Trace F) effs :
  modify (length h) f (mkWorld (h ++ [t]) effs)
  = (Ok tt, mkWorld (h ++ [f t]) effs).
Proof.
  erewrite modify_Some by (simpl; apply list_lookup_middle; done).
  simpl. f_equal. f_equal.
  rewrite insert_app_r_alt by done. by rewrite Nat.sub_diag.
Qed.

(** A conversion that returns has added one trace, behind all others,
    and nothing else. *)
Lemma _convert_adj_to_trace_inv (adj : AdjointSource F) (starttime : F)
  (chan_id : string) w l w' :
  _convert_adj_to_trace adj starttime chan_id w = (Ok l, w') ->
  l = length (heap w) /\ effects w' = effects w /\
  exists t, heap w' = heap w ++ [t].
Proof.
  unfold _convert_adj_to_trace. unfold bind at 1, alloc at 1.
  rewrite !(bind_Ok _ _ _ _ _ (modify_last _ _ _ _)).
  unfold bind at 1, last_item.
  destruct (list.last (split_dot chan_id)) as [chan|]; [|done].
  unfold ret at 1.
  rewrite !(bind_Ok _ _ _ _ _ (modify_last _ _ _ _)).
  unfold bind at 1, item.
  destruct (split_dot chan_id !! 2) as [loc_code|]; [|done].
  unfold ret at 1.
  rewrite !(bind_Ok _ _ _ _ _ (modify_last _ _ _ _)).
  unfold ret. intros [= <- <-]. simpl. eauto.
Qed.

Lemma adjsrcs_to_stream_loop (adjsrcs : dict (AdjointSource F))
  (adj_starttime : F) s0 w s w' :
  for_fold adjsrcs
    (fun adj_stream entry =>
       let '(chan_id, adj) := entry in
       _tr <- _convert_adj_to_trace adj adj_starttime chan_id ;;
       ret (adj_stream ++ [_tr]))
    s0 w = (Ok s, w') ->
  effects w' = effects w /\ exists ts, heap w' = heap w ++ ts.
Proof.
  revert s0 w. induction adjsrcs as [|[chan_id adj] adjsrcs IH]; intros s0 w.
  - intros [= _ <-]. split; [done|]. exists []. by rewrite app_nil_r.
  - rewrite for_fold_cons. intros Hrun.
    step Hrun as s1 w1 Hstep. step Hstep as l w2 Hconv.
    apply _convert_adj_to_trace_inv in Hconv as (_ & Heff & t & Hheap).
    injection Hstep as <- <-.
    apply IH in Hrun as (Heff' & ts & Hheap').
    split; [congruence|]. exists (t :: ts).
    by rewrite Hheap', Hheap, <- app_assoc.
Qed.

Lemma adjsrcs_to_stream_inv (adjsrcs : dict (AdjointSource F))
  (adj_starttime : F) w s w' :
  adjsrcs_to_stream adjsrcs adj_starttime w = (Ok s, w') ->
  effects w' = effects w /\ exists ts, heap w' = heap w ++ ts.
Proof. apply adjsrcs_to_stream_loop. Qed.

(** [event.preferred_origin() or event.origins[0]]. *)
Definition event_origin (event : Event F) : option (Origin F) :=
  match preferred_origin event with
  | Some o => Some o
  | None => head (origins event)
  end.

(** What the preparation reads of its arguments: the origin of the
    event, the first station of the inventory, and for the time offset
    the start time of the first raw synthetic trace. *)
Lemma prepare_adj_stream_geometry (adjsrcs : dict (AdjointSource F))
  (adj_starttime : F) (raw_synthetic : Stream) (inventory : Inventory F)
  (event : Event F) (sum_over_comp_flag : bool)
  (weight_dict : option (dict (dict F))) w p w1 raw0 raw_tr :
  head raw_synthetic = Some raw0 -> heap w !! raw0 = Some raw_tr ->
  prepare_adj_stream adjsrcs adj_starttime raw_synthetic inventory event
    sum_over_comp_flag weight_dict w = (Ok p, w1) ->
  exists origin net0 sta0,
    event_origin event = Some origin /\
    head inventory = Some net0 /\ head net0 = Some sta0 /\
    elat p = latitude origin /\ elon p = longitude origin /\
    slat p = station_latitude sta0 /\ slon p = station_longitude sta0 /\
    time_offset p = fsub (stats_starttime raw_tr) (time origin).
Proof.
  intros Hraw0 Hraw_tr Hrun. unfold prepare_adj_stream in Hrun.
  step Hrun as origin w0 Horigin.
  assert (event_origin event = Some origin /\ w0 = w) as [Hor ->].
  { unfold event_origin. destruct (preferred_origin event).
    - by injection Horigin as <- <-.
    - by apply first_item_Ok_inv in Horigin. }
  step Hrun as net0 w0 Hnet. apply first_item_Ok_inv in Hnet as [Hnet ->].
  step Hrun as sta0 w0 Hsta. apply first_item_Ok_inv in Hsta as [Hsta ->].
  step Hrun as s0 w0 Hconv.
  apply adjsrcs_to_stream_inv in Hconv as (_ & ts & Hheap).
  step Hrun as raw0' w2 Hraw. apply first_item_Ok_inv in Hraw as [Hraw ->].
  rewrite Hraw0 in Hraw. injection Hraw as <-.
  step Hrun as raw_tr' w2 Hraw. apply deref_Ok_inv in Hraw as [Hraw ->].
  rewrite Hheap, (lookup_app_l_Some _ _ _ _ Hraw_tr) in Hraw.
  injection Hraw as <-.
  step Hrun as u1 w2 Hpad. step Hrun as rate w3 Hrate.
  step Hrun as u2 w4 Hint. step Hrun as s1 w5 Hsum.
  injection Hrun as <- _. simpl. by exists origin, net0, sta0.
Qed.

(** C5: the time offset that [postprocess_adjsrc] returns is the start
    time of the first raw synthetic trace minus the origin time of the
    event; when the synthetic starts [d] after the origin time [T0],
    and the arithmetic is exact on these two numbers, it is [d]. *)
Theorem postprocess_adjsrc_time_offset (adjsrcs : dict (AdjointSource F))
  (adj_starttime : F) (raw_synthetic : Stream) (inventory : Inventory F)
  (event : Event F) (sum_over_comp_flag : bool)
  (weight_dict : option (dict (dict F))) w final offset w' raw0 raw_tr
  origin :
  head raw_synthetic = Some raw0 -> heap w !! raw0 = Some raw_tr ->
  event_origin event = Some origin ->
  postprocess_adjsrc adjsrcs adj_starttime raw_synthetic inventory event
    sum_over_comp_flag weight_dict w = (Ok (final, offset), w') ->
  offset = fsub (stats_starttime raw_tr) (time origin) /\
  forall T0 d, time origin = T0 -> stats_starttime raw_tr = fadd T0 d ->
    fsub (fadd T0 d) T0 = d -> offset = d.
Proof.
  intros Hraw0 Hraw_tr Horigin Hrun. unfold postprocess_adjsrc in Hrun.
  step Hrun as p w1 Hprep. step Hrun as filled w2 Hfill.
  step Hrun as u w3 Hrot. step Hrun as final' w4 Hfinal.
  injection Hrun as _ <- _.
  destruct (prepare_adj_stream_geometry _ _ _ _ _ _ _ _ _ _ _ _
              Hraw0 Hraw_tr Hprep)
    as (origin' & _ & _ & Horigin' & _ & _ & _ & _ & _ & _ & Hoff).
  rewrite Horigin in Horigin'. injection Horigin' as <-.
  split; [done|]. intros T0 d HT0 Hstart Hexact. congruence.
Qed.

(** ** Post-processing: the missing components *)

Lemma list_remove_inv (xs : list string) c xs' :
  list_remove xs c = Ok xs' ->
  (forall x, x ∈ xs -> x = c \/ x ∈ xs') /\ (forall x, x ∈ xs' -> x ∈ xs).
Proof.
  revert xs'. induction xs as [|y xs IH]; intros xs'; simpl; [done|].
  destruct (String.eqb_spec y c) as [->|Hne].
  - intros [= ->]. split.
    + intros x [->|?]%elem_of_cons; auto.
    + intros x ?. by right.
  - destruct (list_remove xs c) as [xs0|]; [|done]. intros [= <-].
    destruct (IH xs0 eq_refl) as [IH1 IH2]. split.
    + intros x [->|Hx]%elem_of_cons; [right; left|].
      destruct (IH1 x Hx); [by left | right; by right].
    + intros x [->|Hx]%elem_of_cons; [left | right; auto].
Qed.

(** The component letters of a stream, as a relation on the heap. *)
Definition has_components h (s : Stream) (cs : list string) : Prop :=
  Forall2 (fun l c => exists t, h !! l = Some t /\
                                last_char (stats_channel t) = Some c) s cs.

Lemma stream_components_inv (s : Stream) w cs w' :
  stream_components s w = (Ok cs, w') ->
  w' = w /\ has_components (heap w) s cs.
Proof.
  revert cs w'. induction s as [|l s IH]; intros cs w'; simpl.
  - intros [= <- <-]. split; [done | constructor].
  - intros Hrun. step Hrun as t w0 Hl. apply deref_Ok_inv in Hl as [Hl ->].
    destruct (last_char (stats_channel t)) as [c|] eqn:Hc; [|done].
    step Hrun as cs0 w0 Hrest. injection Hrun as <- <-.
    apply IH in Hrest as [-> Hrest]. split; [done|].
    constructor; [by exists t | done].
Qed.

Lemma stream_components_run (s : Stream) w cs :
  has_components (heap w) s cs -> stream_components s w = (Ok cs, w).
Proof.
  induction 1 as [|l c s cs (t & Hl & Hc) _ IH]; simpl; [done|].
  rewrite (bind_Ok _ _ _ _ _ (deref_Some _ _ _ Hl)), Hc.
  by rewrite (bind_Ok _ _ _ _ _ IH).
Qed.

Lemma has_components_ext h ext (s : Stream) cs :
  has_components h s cs -> has_components (h ++ ext) s cs.
Proof.
  intros Hcs. eapply list.Forall2_impl; [exact Hcs|].
  intros l c (t & Hl & Hc). exists t. split; [|done].
  by apply lookup_app_l_Some.
Qed.

(** The loop that strikes the components present off the list. *)
Lemma missing_loop_inv (s : Stream) (ml ml' : list string) w w' :
  for_fold s
    (fun missinglist tr =>
       t <- deref tr ;;
       match last_char (stats_channel t) with
       | None => raise IndexError
       | Some c => lift (list_remove missinglist c)
       end) ml w = (Ok ml', w') ->
  w' = w /\
  exists cs, has_components (heap w) s cs /\
    (forall x, x ∈ ml -> x ∈ cs \/ x ∈ ml') /\
    (forall x, x ∈ ml' -> x ∈ ml).
Proof.
  revert ml. induction s as [|l s IH]; intros ml.
  - intros [= <- <-]. split; [done|]. exists []. split; [constructor|]. auto.
  - rewrite for_fold_cons. intros Hrun. step Hrun as ml1 w1 Hstep.
    step Hstep as t w0 Hl. apply deref_Ok_inv in Hl as [Hl ->].
    destruct (last_char (stats_channel t)) as [c|] eqn:Hc; [|done].
    apply lift_Ok_inv in Hstep as [Hrem ->].
    apply list_remove_inv in Hrem as [Hrem1 Hrem2].
    apply IH in Hrun as (-> & cs & Hcs & Hin & Hsub). split; [done|].
    exists (c :: cs). split_and!.
    + constructor; [by exists t | done].
    + intros x Hx. destruct (Hrem1 x Hx) as [->|Hx']; [left; left|].
      destruct (Hin x Hx'); [left; by right | by right].
    + auto.
Qed.

(** The zero trace for a missing component. *)
Definition zero_trace (template : Trace F) (component : string) : Trace F :=
  set_channel (set_data template (map (fun _ => fzero) (data template)))
              (first_two (stats_channel template) ++ component).

(** The loop that appends a zero trace per missing component. *)
Lemma zero_loop_run (tr_template : loc) (template : Trace F)
  (ml : list string) (s0 : Stream) w :
  heap w !! tr_template = Some template ->
  for_fold ml
    (fun adj_stream component =>
       template <- deref tr_template ;;
       zero_adj <- alloc template ;;
       modify zero_adj
         (fun t => set_data t (map (fun _ => fzero) (data t))) ;;;
       modify zero_adj
         (fun t => set_channel t
                     (first_two (stats_channel template) ++ component)) ;;;
       ret (adj_stream ++ [zero_adj]))
    s0 w
  = (Ok (s0 ++ seq (length (heap w)) (length ml)),
     mkWorld (heap w ++ map (zero_trace template) ml) (effects w)).
Proof.
  revert s0 w. induction ml as [|c ml IH]; intros s0 w Htpl.
  - simpl. unfold ret. rewrite !app_nil_r. by destruct w.
  - rewrite for_fold_cons.
    erewrite bind_Ok.
    2:{ rewrite (bind_Ok _ _ _ _ _ (deref_Some _ _ _ Htpl)).
        unfold bind at 1, alloc at 1.
        rewrite !(bind_Ok _ _ _ _ _ (modify_last _ _ _ _)). done. }
    rewrite IH by (simpl; by apply lookup_app_l_Some).
    simpl. rewrite length_app. simpl. rewrite Nat.add_1_r.
    by rewrite <- !app_assoc.
Qed.

Lemma last_char_app_one (p : string) (ch : ascii) :
  last_char (p ++ String ch "") = Some (String ch "").
Proof.
  induction p as [|a p IH]; [done|]. simpl.
  destruct (p ++ String ch "")%string eqn:Hp; [by destruct p | done].
Qed.

(** A fill that returns has appended, behind the traces of the stream,
    a zero trace for every component of Z, R, T that the stream did not
    carry: afterwards the stream carries all three. *)
Lemma fill_missing_components_inv (s : Stream) w s' w' :
  fill_missing_components s w = (Ok s', w') ->
  exists tr_template template cs ml,
    head s = Some tr_template /\ heap w !! tr_template = Some template /\
    has_components (heap w) s cs /\
    (forall x, x ∈ ["Z"; "R"; "T"] -> x ∈ cs \/ x ∈ ml) /\
    (forall x, x ∈ ml -> x ∈ ["Z"; "R"; "T"]) /\
    s' = s ++ seq (length (heap w)) (length ml) /\
    w' = mkWorld (heap w ++ map (zero_trace template) ml) (effects w) /\
    has_components (heap w') s' (cs ++ ml).
Proof.
  unfold fill_missing_components. intros Hrun.
  step Hrun as l0 w0 Hhead. apply first_item_Ok_inv in Hhead as [Hhead ->].
  step Hrun as ml w0 Hloop.
  apply missing_loop_inv in Hloop as (-> & cs & Hcs & Hin & Hsub).
  assert (exists template, heap w !! l0 = Some template) as [template Htpl].
  { destruct s as [|l s]; [done|]. injection Hhead as ->.
    apply Forall2_cons_inv_l in Hcs as (c & cs' & (t & Ht & _) & _ & _).
    by exists t. }
  rewrite (zero_loop_run l0 template ml s w Htpl) in Hrun.
  injection Hrun as <- <-.
  exists l0, template, cs, ml. split_and!; [done..|].
  apply Forall2_app; [by apply has_components_ext|]. simpl.
  assert (forall n, Forall2
            (fun l c => exists t,
               (heap w ++ map (zero_trace template) ml) !! l = Some t /\
               last_char (stats_channel t) = Some c)
            (seq (length (heap w) + n) (length (drop n ml))) (drop n ml))
    as Hnew.
  2:{ specialize (Hnew 0%nat). by rewrite Nat.add_0_r, drop_0 in Hnew. }
  intros n. remember (drop n ml) as rest eqn:Hrest.
  revert n Hrest. induction rest as [|c rest IH]; intros n Hrest; [constructor|].
  assert (ml !! n = Some c) as Hn.
  { rewrite <- (Nat.add_0_r n), <- lookup_drop, <- Hrest. done. }
  simpl. constructor.
  - exists (zero_trace template c). split.
    + rewrite lookup_app_r by lia.
      replace (length (heap w) + n - length (heap w))%nat with n by lia.
      by rewrite list_lookup_fmap, Hn.
    + assert (c ∈ ["Z"; "R"; "T"]) as Hc.
      { apply Hsub. by eapply list_elem_of_lookup_2. }
      simpl. repeat (apply elem_of_cons in Hc as [->|Hc]);
        [apply last_char_app_one.. | by apply elem_of_nil in Hc].
  - replace (S (length (heap w) + n)) with (length (heap w) + S n)%nat by lia.
    apply IH. by rewrite <- Nat.add_1_r, <- drop_drop, <- Hrest.
Qed.

(** ** Post-processing: rotation *)

Lemma calculate_baz_inv (elat elon slat slon : F) w baz w1 :
  calculate_baz elat elon slat slon w = (Ok baz, w1) ->
  (exists d bz, gps2DistAzimuth elat elon slat slon = Ok (d, baz, bz)) /\
  w1 = mkWorld (heap w)
         (effects w ++ [CallGps2DistAzimuth elat elon slat slon]).
Proof.
  intros Hrun. split; [|by eapply calculate_baz_effects].
  unfold calculate_baz, bind, emit, lift in Hrun. simpl in Hrun.
  destruct (gps2DistAzimuth _ _ _ _) as [[[d az] bz]|e]; [|done].
  injection Hrun as <- _. eauto.
Qed.

Lemma deref_all_inv (s : Stream) w ts w' :
  deref_all s w = (Ok ts, w') -> w' = w.
Proof.
  revert ts w'. induction s as [|l s IH]; intros ts w'; simpl.
  - by intros [= _ <-].
  - intros Hrun. step Hrun as t w0 Hl. apply deref_Ok_inv in Hl as [_ ->].
    step Hrun as ts0 w0 Hrest. apply IH in Hrest as ->. by injection Hrun.
Qed.

Lemma assign_all_effects (s : Stream) (ts : list (Trace F)) w :
  exists w', assign_all s ts w = (Ok tt, w') /\ effects w' = effects w.
Proof.
  revert ts w. induction s as [|l s IH]; intros ts w; [by exists w|].
  destruct ts as [|t ts]; [by exists w|]. simpl.
  destruct (IH ts (mkWorld (<[l := t]> (heap w)) (effects w)))
    as (w' & Hrun & Heff).
  exists w'. split; [|done]. by unfold bind, assign.
Qed.

(** The rotation step: the geodesy routine is always asked, first; and
    when the stream carries R and T, the rotation is attempted with the
    angle that [calculate_baz] returned. *)
Lemma rotate_adj_stream_inv (p : Prepared) (s : Stream) w w' cs :
  has_components (heap w) s cs ->
  rotate_adj_stream p s w = (Ok tt, w') ->
  exists d baz bz,
    gps2DistAzimuth (elat p) (elon p) (slat p) (slon p) = Ok (d, baz, bz) /\
    if mem "R" cs && mem "T" cs then
      exists post,
        effects w' =
        effects w ++
        [CallGps2DistAzimuth (elat p) (elon p) (slat p) (slon p);
         CallRotate baz] ++ post
    else
      effects w' =
      effects w ++ [CallGps2DistAzimuth (elat p) (elon p) (slat p) (slon p)].
Proof.
  intros Hcs Hrun. unfold rotate_adj_stream in Hrun.
  step Hrun as baz w1 Hbaz.
  apply calculate_baz_inv in Hbaz as [(d & bz & Hgps) ->].
  exists d, baz, bz. split; [done|].
  erewrite bind_Ok in Hrun by (by apply stream_components_run).
  destruct (mem "R" cs && mem "T" cs).
  - step Hrun as u w2 Hemit. injection Hemit as _ <-.
    step Hrun as ts w2 Hts. apply deref_all_inv in Hts as ->.
    destruct (stream_rotate baz ts) as [ts' failure].
    step Hrun as u' w2 Hassign.
    destruct (assign_all_effects s ts'
                (mkWorld (heap w)
                   ((effects w ++
                     [CallGps2DistAzimuth (elat p) (elon p) (slat p) (slon p)])
                    ++ [CallRotate baz]))) as (w2' & Hassign' & Heff).
    simpl in Hassign, Hassign'. rewrite Hassign' in Hassign.
    injection Hassign as Hw2. subst w2. simpl in Heff.
    destruct failure as [e|].
    + injection Hrun as <-. simpl. rewrite Heff. exists [PrintExn e].
      by rewrite <- !app_assoc.
    + injection Hrun as <-. rewrite Heff. exists [].
      by rewrite <- !app_assoc.
  - by injection Hrun as <-.
Qed.

Lemma _convert_trace_to_adj_inv (tr : loc) (adj : AdjointSource F) w a w' :
  _convert_trace_to_adj tr adj w = (Ok a, w') -> w' = w.
Proof.
  unfold _convert_trace_to_adj. intros Hrun.
  step Hrun as t w0 Hl. apply deref_Ok_inv in Hl as [_ ->].
  destruct (last_char (stats_channel t)); [by injection Hrun | done].
Qed.

Lemma final_adjsrcs_loop (_adj : AdjointSource F) (s : Stream)
  (acc : list (AdjointSource F)) w final w' :
  for_fold s
    (fun final_adjsrcs tr =>
       a <- _convert_trace_to_adj tr _adj ;; ret (final_adjsrcs ++ [a]))
    acc w = (Ok final, w') -> w' = w.
Proof.
  revert acc. induction s as [|l s IH]; intros acc.
  - by intros [= _ <-].
  - rewrite for_fold_cons. intros Hrun. step Hrun as acc' w1 Hstep.
    step Hstep as a w2 Hconv. apply _convert_trace_to_adj_inv in Hconv as ->.
    injection Hstep as _ <-. by eapply IH.
Qed.

Lemma final_adjsrcs_inv (adjsrcs : dict (AdjointSource F)) (s : Stream)
  w final w' :
  final_adjsrcs adjsrcs s w = (Ok final, w') -> w' = w.
Proof.
  unfold final_adjsrcs. intros Hrun.
  step Hrun as id0 w0 Hid. apply first_item_Ok_inv in Hid as [_ ->].
  step Hrun as a0 w0 Ha0.
  assert (w0 = w) as ->.
  { destruct (dict_get adjsrcs id0); [by injection Ha0 | done]. }
  by eapply final_adjsrcs_loop.
Qed.

(** C1, as the code has it: whenever [postprocess_adjsrc] returns, the
    stream carries Z, R and T after the fill of missing components,
    whatever the adjoint sources carried (Z alone included); the
    geodesy routine has been asked for the azimuth, before the stream
    is looked at; and the rotation has been attempted with that
    azimuth. *)
Theorem postprocess_adjsrc_rotates_after_fill
  (adjsrcs : dict (AdjointSource F)) (adj_starttime : F)
  (raw_synthetic : Stream) (inventory : Inventory F) (event : Event F)
  (sum_over_comp_flag : bool) (weight_dict : option (dict (dict F)))
  w final offset w' :
  postprocess_adjsrc adjsrcs adj_starttime raw_synthetic inventory event
    sum_over_comp_flag weight_dict w = (Ok (final, offset), w') ->
  exists p w1 filled w2 components d baz bz post,
    prepare_adj_stream adjsrcs adj_starttime raw_synthetic inventory event
      sum_over_comp_flag weight_dict w = (Ok p, w1) /\
    fill_missing_components (adj_stream p) w1 = (Ok filled, w2) /\
    stream_components filled w2 = (Ok components, w2) /\
    "Z" ∈ components /\ "R" ∈ components /\ "T" ∈ components /\
    gps2DistAzimuth (elat p) (elon p) (slat p) (slon p) = Ok (d, baz, bz) /\
    effects w' =
    effects w2 ++
    [CallGps2DistAzimuth (elat p) (elon p) (slat p) (slon p);
     CallRotate baz] ++ post.
Proof.
  intros Hrun. unfold postprocess_adjsrc in Hrun.
  step Hrun as p w1 Hprep. step Hrun as filled w2 Hfill.
  step Hrun as u w3 Hrot. step Hrun as final' w4 Hfinal.
  injection Hrun as _ _ <-. apply final_adjsrcs_inv in Hfinal as ->.
  destruct (fill_missing_components_inv _ _ _ _ Hfill)
    as (l0 & tpl & cs & ml & _ & _ & _ & Hall & _ & _ & _ & Hcs).
  assert (forall x, x ∈ ["Z"; "R"; "T"] -> x ∈ cs ++ ml) as Hin.
  { intros x Hx. apply elem_of_app. auto. }
  assert (forall x, x ∈ cs ++ ml -> mem x (cs ++ ml) = true) as Hmem.
  { intros x Hx. unfold mem. apply existsb_exists. exists x.
    split; [by apply list_elem_of_In | apply String.eqb_refl]. }
  destruct u.
  destruct (rotate_adj_stream_inv p filled w2 w3 (cs ++ ml) Hcs Hrot)
    as (d & baz & bz & Hgps & Heff).
  assert ("Z" ∈ cs ++ ml) as HZ by (apply Hin; left).
  assert ("R" ∈ cs ++ ml) as HR by (apply Hin; right; left).
  assert ("T" ∈ cs ++ ml) as HT by (apply Hin; right; right; left).
  rewrite !Hmem in Heff by done.
  destruct Heff as [post Heff].
  exists p, w1, filled, w2, (cs ++ ml), d, baz, bz, post.
  split_and!; [done | done | by apply stream_components_run | done..].
Qed.

(** ** Post-processing: a common time base *)

(** Start time, sample interval and sample count. *)
Definition time_base t : F * F * nat :=
  (stats_starttime t, stats_delta t, npts t).

(** What obspy documents of [Trace.interpolate]: the trace starts at
    the time asked for, has the number of samples asked for, and its
    sample interval is the inverse of the sampling rate. *)
Definition interpolate_contract : Prop :=
  forall r s0 n t t', trace_interpolate r s0 n t = Ok t' ->
    stats_starttime t' = s0 /\ fdiv fone r = Some (stats_delta t') /\
    npts t' = n.

Lemma stream_interpolate_inv (stream : Stream) (r s0 : F) (n : nat) w w' :
  stream_interpolate stream r s0 n w = (Ok tt, w') ->
  length (heap w') = length (heap w) /\
  (forall l, l ∉ stream -> heap w' !! l = heap w !! l) /\
  forall l, l ∈ stream ->
    exists t t', heap w' !! l = Some t' /\ trace_interpolate r s0 n t = Ok t'.
Proof.
  unfold stream_interpolate. revert w.
  induction stream as [|l0 stream IH]; intros w.
  - intros [= <-]. split_and!; [done..|]. by intros l ?%elem_of_nil.
  - rewrite for_each_cons. intros Hrun. step Hrun as u w1 Hstep.
    step Hstep as t w0 Hl. apply deref_Ok_inv in Hl as [Hl ->].
    step Hstep as u' w0 Hemit. injection Hemit as _ <-.
    step Hstep as t' w0 Hint. apply lift_Ok_inv in Hint as [Hint ->].
    injection Hstep as _ <-. destruct u.
    apply IH in Hrun as (Hlen & Hout & Hin). simpl in *.
    assert (l0 < length (heap w)) as Hlt by (by eapply lookup_lt_Some).
    split_and!.
    + by rewrite Hlen, length_insert.
    + intros l [Hne Hl']%not_elem_of_cons.
      rewrite Hout by done. by apply list_lookup_insert_ne.
    + intros l Hl'. destruct (decide (l ∈ stream)) as [|Hnot]; [by apply Hin|].
      apply elem_of_cons in Hl' as [->|?]; [|done].
      exists t, t'. split; [|done]. rewrite Hout by done.
      by apply list_lookup_insert_eq.
Qed.

(** A trace that has changed in its samples (not in their number) and
    in its location code (cleared or not) at most. *)
Definition same_shape t t' : Prop :=
  stats_network t' = stats_network t /\
  stats_station t' = stats_station t /\
  stats_channel t' = stats_channel t /\
  time_base t' = time_base t /\
  (stats_location t' = stats_location t \/ stats_location t' = "").

(** Every trace is still there, in the same shape. *)
Definition keeps_shapes h h' : Prop :=
  length h' = length h /\
  forall l t, h !! l = Some t -> exists t', h' !! l = Some t' /\ same_shape t t'.

(** The trace behind [l] has no location code. *)
Definition cleared h l : Prop :=
  exists t, h !! l = Some t /\ stats_location t = "".

Lemma same_shape_refl t : same_shape t t.
Proof. unfold same_shape. split_and!; auto. Qed.

Lemma same_shape_trans t1 t2 t3 :
  same_shape t1 t2 -> same_shape t2 t3 -> same_shape t1 t3.
Proof.
  intros (Hn & Hs & Hc & Htb & Hl) (Hn' & Hs' & Hc' & Htb' & Hl').
  unfold same_shape. split_and!; [congruence..|].
  destruct Hl' as [Hl'|]; [|by right].
  destruct Hl as [Hl|Hl]; [left | right]; congruence.
Qed.

Lemma keeps_shapes_refl h : keeps_shapes h h.
Proof.
  split; [done|]. intros l t Hl. exists t.
  split; [done | apply same_shape_refl].
Qed.

Lemma keeps_shapes_trans h1 h2 h3 :
  keeps_shapes h1 h2 -> keeps_shapes h2 h3 -> keeps_shapes h1 h3.
Proof.
  intros [Hlen1 H1] [Hlen2 H2]. split; [congruence|].
  intros l t Hl. destruct (H1 l t Hl) as (t' & Hl' & Hsh).
  destruct (H2 l t' Hl') as (t'' & Hl'' & Hsh'). exists t''.
  split; [done | by eapply same_shape_trans].
Qed.

Lemma cleared_keeps h h' l : keeps_shapes h h' -> cleared h l -> cleared h' l.
Proof.
  intros [_ Hk] (t & Hl & Hloc). destruct (Hk l t Hl) as (t' & Hl' & Hsh).
  exists t'. split; [done|].
  destruct Hsh as (_ & _ & _ & _ & [Heq|Heq]); congruence.
Qed.

Lemma modify_keeps_shapes l (f : Trace F -> Trace F) w u w' :
  modify l f w = (Ok u, w') ->
  (forall t, heap w !! l = Some t -> same_shape t (f t)) ->
  keeps_shapes (heap w) (heap w') /\ effects w' = effects w.
Proof.
  intros Hrun Hf. apply modify_Ok_inv in Hrun as (t & Hl & ->). simpl.
  split; [|done]. split; [by rewrite length_insert|].
  intros l' t' Hl'. destruct (decide (l = l')) as [<-|Hne].
  - exists (f t). rewrite list_lookup_insert_eq by (by eapply lookup_lt_Some).
    split; [done|]. rewrite Hl in Hl'. injection Hl' as <-. by apply Hf.
  - exists t'. rewrite list_lookup_insert_ne by done.
    split; [done | apply same_shape_refl].
Qed.

Lemma iadd_length (a b d : list F) : iadd a b = Ok d -> length d = length a.
Proof.
  unfold iadd. destruct (Nat.eqb_spec (length b) (length a)) as [Heq|_].
  - intros [= <-]. rewrite length_zip_with. lia.
  - destruct b as [|x [|y b]]; [done| |done]. intros [= <-].
    by rewrite length_map.
Qed.

(** The references the summation holds are references of its input,
    to traces whose location code it has cleared. *)
Definition holds_input (s : Stream) h (st : SumState) : Prop :=
  Forall (fun l => l ∈ s /\ cleared h l) (new_stream st) /\
  forall l, comp_tr st = Some l -> l ∈ s /\ cleared h l.

Lemma holds_input_keeps (s : Stream) h h' st :
  keeps_shapes h h' -> holds_input s h st -> holds_input s h' st.
Proof.
  intros Hk [Hns Hct]. split.
  - eapply list.Forall_impl; [exact Hns|]. intros l [? ?].
    split; [done | by eapply cleared_keeps].
  - intros l Hl. destruct (Hct l Hl). split; [done | by eapply cleared_keeps].
Qed.

Lemma sum_channel_inv (s : Stream) comp st chan w st' w' :
  sum_channel s comp st chan w = (Ok st', w') -> holds_input s (heap w) st ->
  keeps_shapes (heap w) (heap w') /\ effects w' = effects w /\
  holds_input s (heap w') st'.
Proof.
  destruct chan as [chan_id chan_weight]. unfold sum_channel.
  intros Hrun Hst.
  destruct (negb (existsb (String.eqb comp) (done_comps st))).
  - step Hrun as sel w0 Hsel. injection Hsel as <- <-.
    step Hrun as tr w0 Htr. apply first_item_Ok_inv in Htr as [Htr ->].
    apply select_by_head in Htr as (_ & _ & _ & Htr).
    step Hrun as u1 w1 Hm1. step Hrun as u2 w2 Hm2.
    injection Hrun as <- <-.
    pose proof Hm2 as Hm2'.
    apply modify_keeps_shapes in Hm1 as [Hk1 He1].
    2:{ intros t _. unfold same_shape, time_base, npts. simpl.
        rewrite length_map. split_and!; auto. }
    apply modify_keeps_shapes in Hm2 as [Hk2 He2].
    2:{ intros t _. unfold same_shape. simpl. split_and!; auto. }
    assert (keeps_shapes (heap w) (heap w2)) as Hk
      by (by eapply keeps_shapes_trans).
    split_and!; [done | congruence |].
    destruct (holds_input_keeps s _ _ st Hk Hst) as [Hns _].
    split; [done|]. simpl. intros l [= <-]. split; [done|].
    apply modify_Ok_inv in Hm2' as (t & Hl & ->). simpl.
    exists (set_location t ""). split; [|done].
    apply list_lookup_insert_eq. by eapply lookup_lt_Some.
  - destruct (comp_tr st) as [tr|] eqn:Hctr; [|done].
    step Hrun as t w0 Hl. apply deref_Ok_inv in Hl as [Hl ->].
    step Hrun as sel w0 Hsel. injection Hsel as <- <-.
    step Hrun as other w0 Hother.
    apply first_item_Ok_inv in Hother as [_ ->].
    step Hrun as o w0 Ho. apply deref_Ok_inv in Ho as [_ ->].
    step Hrun as d w0 Hd. apply lift_Ok_inv in Hd as [Hd ->].
    apply iadd_length in Hd.
    step Hrun as u w1 Hm. injection Hrun as <- <-.
    apply modify_keeps_shapes in Hm as [Hk He].
    2:{ intros t0 Ht0. rewrite Hl in Ht0. injection Ht0 as <-.
        unfold same_shape, time_base, npts. simpl. rewrite Hd.
        split_and!; auto. }
    split_and!; [done..|]. by eapply holds_input_keeps.
Qed.

Lemma sum_channels_inv (s : Stream) comp (cw : dict F) st w st' w' :
  for_fold cw (sum_channel s comp) st w = (Ok st', w') ->
  holds_input s (heap w) st ->
  keeps_shapes (heap w) (heap w') /\ effects w' = effects w /\
  holds_input s (heap w') st'.
Proof.
  revert st w. induction cw as [|chan cw IH]; intros st w.
  - intros [= <- <-] Hst. split_and!; [apply keeps_shapes_refl|done..].
  - rewrite for_fold_cons. intros Hrun Hst. step Hrun as st1 w1 Hstep.
    apply sum_channel_inv in Hstep as (Hk1 & He1 & Hst1); [|done].
    apply IH in Hrun as (Hk & He & Hst'); [|done].
    split_and!; [by eapply keeps_shapes_trans | congruence | done].
Qed.

Lemma sum_components_inv (s : Stream) (wd : dict (dict F)) st w st' w' :
  for_fold wd (sum_component s) st w = (Ok st', w') ->
  holds_input s (heap w) st ->
  keeps_shapes (heap w) (heap w') /\ effects w' = effects w /\
  holds_input s (heap w') st'.
Proof.
  revert st w. induction wd as [|[comp cw] wd IH]; intros st w.
  - intros [= <- <-] Hst. split_and!; [apply keeps_shapes_refl|done..].
  - rewrite for_fold_cons. intros Hrun Hst. step Hrun as st1 w1 Hstep.
    unfold sum_component in Hstep. step Hstep as st0 w0 Hinner.
    apply sum_channels_inv in Hinner as (Hk0 & He0 & [Hns0 Hct0]); [|done].
    destruct (comp_tr st0) as [tr|] eqn:Hctr; [|done].
    injection Hstep as <- <-.
    apply IH in Hrun as (Hk & He & Hst').
    + split_and!; [by eapply keeps_shapes_trans | congruence | done].
    + split; simpl; [|intros l [= <-]; by apply Hct0].
      apply Forall_app. split; [done|]. apply Forall_singleton. by apply Hct0.
Qed.

(** Whatever the weights, a summation that returns has created no
    trace and has kept every trace in its shape; it returns references
    of its input, to traces that by now have no location code. *)
Lemma sum_adj_on_component_inv (s : Stream) (wd : dict (dict F)) w ns w' :
  sum_adj_on_component s wd w = (Ok ns, w') ->
  keeps_shapes (heap w) (heap w') /\ effects w' = effects w /\
  Forall (fun l => l ∈ s /\ cleared (heap w') l) ns.
Proof.
  unfold sum_adj_on_component. intros Hrun. step Hrun as st w0 Hloop.
  injection Hrun as <- <-.
  apply sum_components_inv in Hloop as (Hk & He & [Hns _]); [done|].
  split; [constructor | done].
Qed.

(** C10: [sum_adj_on_component] works on the traces of its input.
    Whenever it returns, it has created no trace; every reference it
    returns is a reference of the input stream, to a trace that is
    changed in place: its location code is now empty, and it is
    otherwise in the shape it had (same network, station, channel and
    time base). On a ready input the returned traces are the first
    traces of the components, and the samples of each are now its
    samples times its weight, plus the weighted arrays of the other
    channels; traces that are not returned are as they were. *)
Theorem sum_adj_on_component_mutates_input (adj_stream : Stream)
  (weight_dict : dict (dict F)) w new_stream w' :
  sum_adj_on_component adj_stream weight_dict w = (Ok new_stream, w') ->
  length (heap w') = length (heap w) /\
  Forall
    (fun l => l ∈ adj_stream /\ exists t t',
       heap w !! l = Some t /\ heap w' !! l = Some t' /\
       stats_location t' = "" /\ same_shape t t')
    new_stream /\
  (sum_ready (heap w) adj_stream weight_dict ->
   Forall2
     (fun entry l => exists id1 k1 rest t1 d,
        entry.2 = (id1, k1) :: rest /\
        resolve (heap w) adj_stream id1 = Some l /\
        heap w !! l = Some t1 /\
        foldl (add_channel (heap w) adj_stream)
              (Some (map (fun x => fmul x k1) (data t1))) rest = Some d /\
        heap w' !! l = Some (set_location (set_data t1 d) ""))
     weight_dict new_stream /\
   forall l, l ∉ new_stream -> heap w' !! l = heap w !! l).
Proof.
  intros Hrun.
  destruct (sum_adj_on_component_inv _ _ _ _ _ Hrun) as ([Hlen Hk] & _ & Hns).
  split_and!; [done| |].
  - eapply list.Forall_impl; [exact Hns|].
    intros l [Hl (t' & Ht' & Hloc)]. split; [done|].
    destruct (lookup_lt_is_Some_2 (heap w) l) as [t Ht].
    { rewrite <- Hlen. by eapply lookup_lt_Some. }
    destruct (Hk l t Ht) as (t'' & Ht'' & Hsh).
    rewrite Ht' in Ht''. injection Ht'' as <-. by exists t, t'.
  - intros Hready.
    destruct (sum_adj_on_component_run adj_stream weight_dict w Hready)
      as (ns & w2 & Hrun' & _ & _ & Hout & Hsum).
    rewrite Hrun in Hrun'. injection Hrun' as <- <-. split; [|done].
    eapply list.Forall2_impl; [exact Hsum|].
    intros [comp cw] l (id1 & t1 & d & Hhd & Hres & Ht1 & Hd & Hl).
    simpl in *. destruct cw as [|[id1' k1] rest]; [done|].
    injection Hhd as ->. exists id1, k1, rest, t1, d.
    split_and!; [done..| |done].
    unfold weighted_sum, samples in Hd. rewrite Hres in Hd. simpl in Hd.
    by rewrite Ht1 in Hd.
Qed.

Lemma interpolate_contract_time_base (r s0 : F) (n : nat) t t' u u' :
  interpolate_contract ->
  trace_interpolate r s0 n t = Ok t' -> trace_interpolate r s0 n u = Ok u' ->
  time_base t' = time_base u'.
Proof.
  intros Hc Ht Hu. apply Hc in Ht as (Hs & Hd & Hn).
  apply Hc in Hu as (Hs' & Hd' & Hn'). unfold time_base.
  rewrite Hd in Hd'. injection Hd' as Hd'. congruence.
Qed.

(** After the preparation (conversion, padding, interpolation and the
    optional summation) all traces of the stream have one time base. *)
Lemma prepare_adj_stream_uniform (adjsrcs : dict (AdjointSource F))
  (adj_starttime : F) (raw_synthetic : Stream) (inventory : Inventory F)
  (event : Event F) (sum_over_comp_flag : bool)
  (weight_dict : option (dict (dict F))) w p w1 :
  interpolate_contract ->
  prepare_adj_stream adjsrcs adj_starttime raw_synthetic inventory event
    sum_over_comp_flag weight_dict w = (Ok p, w1) ->
  forall l l' t t', l ∈ adj_stream p -> l' ∈ adj_stream p ->
    heap w1 !! l = Some t -> heap w1 !! l' = Some t' ->
    time_base t = time_base t'.
Proof.
  intros Hc Hrun. unfold prepare_adj_stream in Hrun.
  step Hrun as origin wa Horigin. step Hrun as net0 wb Hnet.
  step Hrun as sta0 wc Hsta. step Hrun as s0 wd Hconv.
  step Hrun as raw0 we Hraw0. step Hrun as raw_tr wf Hraw.
  step Hrun as u1 wg Hpad. step Hrun as rate w3 Hrate.
  step Hrun as u2 w4 Hint. destruct u2.
  apply stream_interpolate_inv in Hint as (_ & _ & Hint).
  step Hrun as ns w5 Hsum. injection Hrun as <- <-. simpl.
  assert (keeps_shapes (heap w4) (heap w5) /\ Forall (fun l => l ∈ s0) ns)
    as [[_ Hk] Hns].
  { destruct sum_over_comp_flag.
    - destruct weight_dict as [weights|]; [|done].
      apply sum_adj_on_component_inv in Hsum as (? & _ & Hns).
      split; [done|]. eapply list.Forall_impl; [exact Hns|]. by intros l [? _].
    - injection Hsum as <- <-. split; [apply keeps_shapes_refl|].
      by apply list.Forall_forall. }
  rewrite list.Forall_forall in Hns.
  assert (forall l t, l ∈ ns -> heap w5 !! l = Some t ->
            exists t0 t4, trace_interpolate rate (stats_starttime raw_tr)
                            (npts raw_tr) t0 = Ok t4 /\
                          time_base t = time_base t4) as Hall.
  { intros l t Hl Ht. destruct (Hint l (Hns l Hl)) as (t0 & t4 & Ht4 & Hi).
    destruct (Hk l t4 Ht4) as (t5 & Ht5 & _ & _ & _ & Htb & _). exists t0, t4.
    split; [done|]. congruence. }
  intros l l' t t' Hl Hl' Ht Ht'.
  destruct (Hall l t Hl Ht) as (t0 & t4 & Hi & ->).
  destruct (Hall l' t' Hl' Ht') as (t0' & t4' & Hi' & ->).
  by eapply interpolate_contract_time_base.
Qed.

(** Striking the components [cs] off the list [ml], one by one. *)
Fixpoint strike (ml cs : list string) : Result (list string) :=
  match cs with
  | [] => Ok ml
  | c :: cs =>
      match list_remove ml c with
      | Ok ml' => strike ml' cs
      | Raise e => Raise e
      end
  end.

Lemma missing_loop_run (s : Stream) (cs ml : list string) w :
  has_components (heap w) s cs ->
  for_fold s
    (fun missinglist tr =>
       t <- deref tr ;;
       match last_char (stats_channel t) with
       | None => raise IndexError
       | Some c => lift (list_remove missinglist c)
       end) ml w = (strike ml cs, w).
Proof.
  intros Hcs. revert ml.
  induction Hcs as [|l c s cs (t & Hl & Hc) _ IH]; intros ml; [done|].
  rewrite for_fold_cons. simpl.
  destruct (list_remove ml c) as [ml'|e] eqn:Hrem.
  - erewrite bind_Ok; [apply IH|].
    rewrite (bind_Ok _ _ _ _ _ (deref_Some _ _ _ Hl)), Hc. by rewrite Hrem.
  - erewrite bind_Raise; [done|].
    rewrite (bind_Ok _ _ _ _ _ (deref_Some _ _ _ Hl)), Hc. by rewrite Hrem.
Qed.

(** C6: when the prepared stream carries Z and R and nothing else, the
    fill appends exactly one trace, for T. It is a copy of the first
    trace of the stream but for its channel, which ends in T, and its
    samples, which are all zero; and its start time, sample interval
    and sample count are those of the Z trace. *)
Theorem fill_missing_components_zero_T (adjsrcs : dict (AdjointSource F))
  (adj_starttime : F) (raw_synthetic : Stream) (inventory : Inventory F)
  (event : Event F) (sum_over_comp_flag : bool)
  (weight_dict : option (dict (dict F))) w p w1 cs :
  interpolate_contract ->
  prepare_adj_stream adjsrcs adj_starttime raw_synthetic inventory event
    sum_over_comp_flag weight_dict w = (Ok p, w1) ->
  has_components (heap w1) (adj_stream p) cs ->
  cs = ["Z"; "R"] \/ cs = ["R"; "Z"] ->
  exists tr_T w2 t_T tr_template template tr_Z t_Z,
    fill_missing_components (adj_stream p) w1
    = (Ok (adj_stream p ++ [tr_T]), w2) /\
    heap w2 !! tr_T = Some t_T /\
    head (adj_stream p) = Some tr_template /\
    heap w1 !! tr_template = Some template /\
    t_T = set_channel (set_data template (map (fun _ => fzero) (data template)))
            (first_two (stats_channel template) ++ "T") /\
    Forall (fun x => x = fzero) (data t_T) /\
    last_char (stats_channel t_T) = Some "T" /\
    tr_Z ∈ adj_stream p /\ heap w2 !! tr_Z = Some t_Z /\
    last_char (stats_channel t_Z) = Some "Z" /\
    stats_starttime t_T = stats_starttime t_Z /\
    stats_delta t_T = stats_delta t_Z /\
    npts t_T = npts t_Z.
Proof.
  intros Hc Hprep Hcs Hcase.
  pose proof (prepare_adj_stream_uniform _ _ _ _ _ _ _ _ _ _ Hc Hprep) as Huni.
  assert (exists a b ta tb ca cb,
            adj_stream p = [a; b] /\ cs = [ca; cb] /\
            heap w1 !! a = Some ta /\ last_char (stats_channel ta) = Some ca /\
            heap w1 !! b = Some tb /\ last_char (stats_channel tb) = Some cb)
    as (a & b & ta & tb & ca & cb & Hs & Hcs' & Ha & Hca & Hb & Hcb).
  { destruct Hcase as [-> | ->];
      apply Forall2_cons_inv_r in Hcs as (a & s1 & (ta & ? & ?) & Hcs & ->);
      apply Forall2_cons_inv_r in Hcs as (b & s2 & (tb & ? & ?) & Hcs & ->);
      apply Forall2_nil_inv_r in Hcs as ->; by eexists a, b, ta, tb, _, _. }
  assert (strike ["Z"; "R"; "T"] cs = Ok ["T"]) as Hstrike.
  { by destruct Hcase as [-> | ->]. }
  set (t_T := zero_trace ta "T").
  assert (fill_missing_components (adj_stream p) w1
          = (Ok (adj_stream p ++ [length (heap w1)]),
             mkWorld (heap w1 ++ [t_T]) (effects w1))) as Hfill.
  { pose proof (missing_loop_run (adj_stream p) cs ["Z"; "R"; "T"] w1 Hcs)
      as Hloop.
    rewrite Hstrike in Hloop. unfold fill_missing_components.
    assert (@first_item F loc (adj_stream p) = ret a) as ->
      by (by rewrite Hs).
    rewrite bind_ret, (bind_Ok _ _ _ _ _ Hloop).
    by rewrite (zero_loop_run a ta ["T"] (adj_stream p) w1 Ha). }
  assert (time_base ta = time_base tb) as Htb.
  { apply (Huni a b); [rewrite Hs; left | rewrite Hs; right; left | done..]. }
  assert (exists tr_Z t_Z,
            tr_Z ∈ adj_stream p /\ heap w1 !! tr_Z = Some t_Z /\
            last_char (stats_channel t_Z) = Some "Z" /\
            time_base ta = time_base t_Z) as (tr_Z & t_Z & HZ & HtZ & HcZ & HtbZ).
  { destruct Hcase as [-> | ->]; injection Hcs' as <- <-.
    - exists a, ta. rewrite Hs. split_and!; [left | done..].
    - exists b, tb. rewrite Hs. split_and!; [right; left | done..]. }
  exists (length (heap w1)), (mkWorld (heap w1 ++ [t_T]) (effects w1)), t_T,
    a, ta, tr_Z, t_Z.
  unfold time_base in HtbZ. injection HtbZ as Hst Hdt Hn.
  split_and!; try done.
  - simpl. by apply list_lookup_middle.
  - by rewrite Hs.
  - simpl. apply list.Forall_forall. intros x Hx.
    apply list_elem_of_fmap in Hx as (y & -> & _). done.
  - apply last_char_app_one.
  - simpl. by apply lookup_app_l_Some.
  - unfold npts in *. simpl. by rewrite length_map.
Qed.

End Properties.

(** * Further properties *)

(** ** [plot_adjsrc_figure] *)

Lemma string_app_assoc (a b c : string) : ((a ++ b) ++ c = a ++ b ++ c)%string.
Proof.
  induction a as [|x a IH]; [done|].
  change (String x ((a ++ b) ++ c) = String x (a ++ b ++ c))%string.
  by f_equal.
Qed.

Lemma startswith_slash_app (s rest : string) :
  startswith_slash (s ++ "." ++ rest)%string = startswith_slash s.
Proof. by destruct s. Qed.

(** X1: [plot_adjsrc_figure] plots once, last, into a file whose name
    ends with the figure identity, a dot and the format. When the figure
    identity starts with a slash the name is just that and the directory
    is ignored; otherwise the directory comes first, with a slash in
    between unless the directory is empty or ends with one. Verbosity
    adds one printed line before the plot and changes nothing else. *)
Theorem plot_adjsrc_figure_filename {F} (figure_dir figure_id : string)
  (adjsrc : AdjointSource F) (_verbose : bool) (figure_format : string) :
  exists prefix,
    plot_adjsrc_figure figure_dir figure_id adjsrc _verbose figure_format
    = (if _verbose
       then [PrintLine ("Output fig: " ++ prefix ++ figure_id ++ "." ++
                        figure_format)%string]
       else []) ++
      [CallPlot adjsrc (prefix ++ figure_id ++ "." ++ figure_format)%string] /\
    prefix = if startswith_slash figure_id then ""
             else if String.eqb figure_dir "" || endswith_slash figure_dir
                  then figure_dir
                  else (figure_dir ++ "/")%string.
Proof.
  unfold plot_adjsrc_figure, path_join. rewrite startswith_slash_app.
  destruct (startswith_slash figure_id); [by exists ""|].
  destruct (String.eqb figure_dir "" || endswith_slash figure_dir).
  - by exists figure_dir.
  - exists (figure_dir ++ "/")%string. by rewrite !string_app_assoc.
Qed.

Section DictMore.
Context {V : Type}.
Implicit Types (d : dict V) (k : string) (v : V).

Lemma dict_keys_set_eq d k v :
  dict_keys (dict_set d k v) =
  if decide (k ∈ dict_keys d) then dict_keys d else dict_keys d ++ [k].
Proof.
  induction d as [|[k' v'] d IH]; simpl; [done|].
  destruct (String.eqb_spec k' k) as [->|Hne]; simpl.
  - rewrite decide_True by left. done.
  - rewrite IH. destruct (decide (k ∈ dict_keys d)) as [Hin|Hin].
    + rewrite decide_True by (by right). done.
    + rewrite decide_False; [done|].
      intros [?|?]%elem_of_cons; [congruence | done].
Qed.

Lemma dict_set_wf d k v : dict_wf d -> dict_wf (dict_set d k v).
Proof.
  unfold dict_wf. intros Hwf. rewrite dict_keys_set_eq.
  destruct (decide (k ∈ dict_keys d)) as [|Hin]; [done|].
  apply list.NoDup_app. split_and!; [done| |apply NoDup_singleton].
  intros x Hx ->%list_elem_of_singleton. done.
Qed.

End DictMore.

Section MoreProperties.
Context {F : Type} {NF : Num F} {X : Externals F}.
Implicit Types (w : World F) (h : list (Trace F)) (t : Trace F) (l : loc).

(** ** [_stats_channel_window] *)

(** The channel a window list is filed under: the identity of its first
    window. *)
Definition group_id (chan_win : list (Window F)) : option string :=
  channel_id <$> head chan_win.

(** The last window list of [windows] filed under [id]. *)
Definition last_group (windows : list (list (Window F))) (id : string)
  : option (list (Window F)) :=
  list.last
    (List.filter (fun g => bool_decide (group_id g = Some id)) windows).

Lemma last_cons_eq {A} (x : A) (xs : list A) :
  list.last (x :: xs) =
  match list.last xs with Some y => Some y | None => Some x end.
Proof.
  destruct xs as [|y xs]; [done|].
  change (list.last (x :: y :: xs)) with (list.last (y :: xs)).
  destruct (list.last (y :: xs)) eqn:E; [done|]. by apply last_None in E.
Qed.

(** The loop of [_stats_channel_window], from any dictionary built so
    far. *)
Lemma _stats_channel_window_loop (windows : list (list (Window F)))
  (d0 : dict nat) :
  match foldl (fun acc chan_win =>
           match acc with
           | Raise e => Raise e
           | Ok channel_win_dict =>
               match chan_win with
               | [] => Raise IndexError
               | w :: _ =>
                   Ok (dict_set channel_win_dict (channel_id w) (length chan_win))
               end
           end) (Ok d0) windows with
  | Ok d =>
      ([] ∉ windows) /\
      forall id, dict_get d id =
        match last_group windows id with
        | Some g => Some (length g)
        | None => dict_get d0 id
        end
  | Raise e => e = IndexError /\ [] ∈ windows
  end.
Proof.
  revert d0. induction windows as [|g windows IH]; intros d0; simpl.
  - split; [apply not_elem_of_nil | done].
  - destruct g as [|w0 g'].
    + assert (forall ws e, foldl (fun acc (chan_win : list (Window F)) =>
           match acc with
           | Raise e => Raise e
           | Ok channel_win_dict =>
               match chan_win with
               | [] => Raise IndexError
               | w :: _ =>
                   Ok (dict_set channel_win_dict (channel_id w) (length chan_win))
               end
           end) (Raise e) ws = Raise e) as Hstuck.
      { induction ws as [|? ws IHws]; intros e; [done | apply IHws]. }
      rewrite Hstuck. split; [done | left].
    + specialize (IH (dict_set d0 (channel_id w0) (length (w0 :: g')))).
      destruct (foldl _ _ windows) as [d|e].
      * destruct IH as [Hne Hget]. split.
        { intros [?|?]%elem_of_cons; done. }
        intros id. rewrite Hget. unfold last_group. simpl.
        destruct (bool_decide_reflect (group_id (w0 :: g') = Some id))
          as [Hid|Hid].
        -- injection Hid as <-.
           rewrite last_cons_eq. destruct (list.last _); [done|].
           by rewrite dict_get_set, String.eqb_refl.
        -- destruct (list.last _); [done|].
           rewrite dict_get_set.
           destruct (String.eqb_spec (channel_id w0) id) as [Heq|]; [|done].
           destruct Hid. unfold group_id. simpl. by rewrite Heq.
      * destruct IH as [-> Hin]. split; [done | by right].
Qed.

Lemma _stats_channel_window_empty (windows : list (list (Window F))) :
  [] ∈ windows -> _stats_channel_window windows = Raise IndexError.
Proof.
  intros Hin. pose proof (_stats_channel_window_loop windows []) as Hloop.
  change (foldl _ (Ok []) windows) with (_stats_channel_window windows) in Hloop.
  destruct (_stats_channel_window windows) as [d|e]; [by destruct Hloop | ].
  by destruct Hloop as [-> _].
Qed.

Lemma _stats_channel_window_Ok (windows : list (list (Window F))) d :
  _stats_channel_window windows = Ok d ->
  ([] ∉ windows) /\
  forall id, dict_get d id = length <$> last_group windows id.
Proof.
  intros Hrun. pose proof (_stats_channel_window_loop windows []) as Hloop.
  change (foldl _ (Ok []) windows) with (_stats_channel_window windows) in Hloop.
  rewrite Hrun in Hloop. destruct Hloop as [Hne Hget]. split; [done|].
  intros id. rewrite Hget. by destruct (last_group windows id).
Qed.

(** X2: [_stats_channel_window] files every window list under the
    channel of its first window: the count of a channel is the length of
    the last window list filed under it, and a channel under which
    nothing is filed has no count. It raises [IndexError] when, and only
    when, one of the window lists is empty. *)
Theorem stats_channel_window_counts (windows : list (list (Window F))) :
  match _stats_channel_window windows with
  | Ok channel_win_dict =>
      ([] ∉ windows) /\
      forall id, dict_get channel_win_dict id =
                 length <$> last_group windows id
  | Raise e => e = IndexError /\ [] ∈ windows
  end.
Proof.
  destruct (_stats_channel_window windows) as [d|e] eqn:Hrun.
  - by apply _stats_channel_window_Ok.
  - pose proof (_stats_channel_window_loop windows []) as Hloop.
    change (foldl _ (Ok []) windows) with (_stats_channel_window windows) in Hloop.
    by rewrite Hrun in Hloop.
Qed.

Lemma last_group_Some (windows : list (list (Window F))) g id :
  g ∈ windows -> group_id g = Some id ->
  exists g', last_group windows id = Some g' /\ group_id g' = Some id /\
             g' ∈ windows.
Proof.
  intros Hin Hid. unfold last_group.
  set (p := fun g : list (Window F) => bool_decide (group_id g = Some id)).
  assert (In g (List.filter p windows)) as Hg.
  { apply filter_In. split; [by apply list_elem_of_In|].
    unfold p. by apply bool_decide_eq_true_2. }
  destruct (list.last (List.filter p windows)) as [g'|] eqn:Hlast.
  - exists g'. split; [done|].
    assert (In g' (List.filter p windows)) as Hg'.
    { apply list_elem_of_In. apply last_Some in Hlast as [pre ->].
      apply elem_of_app. right. left. }
    apply filter_In in Hg' as [Hin' Hp]. unfold p in Hp.
    apply bool_decide_eq_true_1 in Hp. split; [done | by apply list_elem_of_In].
  - apply last_None in Hlast. rewrite Hlast in Hg. done.
Qed.

(** ** [calculate_adjsrc_on_trace] *)

(** X3: Whatever its arguments, [calculate_adjsrc_on_trace] raises
    nothing but the [ValueError] of its own argument checks, and then
    nothing has happened: the engine was not asked. An exception of the
    engine never comes out; the function returns [None] instead. When it
    returns an adjoint source, the arguments passed the checks and the
    source is what the engine returned on the two traces, asked once. *)
Theorem calculate_adjsrc_on_trace_outcomes (obs syn : PyObj F)
  (windows : list (list F)) (config : PyObj F) (adj_src_type : string)
  (adjoint_src_flag plot_flag : bool) w :
  match calculate_adjsrc_on_trace obs syn windows config adj_src_type
          adjoint_src_flag plot_flag w with
  | (Raise e, w') => (exists msg, e = ValueError msg) /\ w' = w
  | (Ok r, w') =>
      heap w' = heap w /\
      exists o s c,
        obs = PTrace o /\ syn = PTrace s /\ config = PConfig c /\
        shape_is_n_by_2 windows = true /\
        forall adjsrc, r = Some adjsrc ->
          exists obs_tr syn_tr,
            heap w !! o = Some obs_tr /\ heap w !! s = Some syn_tr /\
            calculate_adjoint_source adj_src_type obs_tr syn_tr c windows
              adjoint_src_flag plot_flag = Ok adjsrc /\
            effects w' = effects w ++ [CallAdjointSource obs_tr syn_tr windows]
  end.
Proof.
  unfold calculate_adjsrc_on_trace.
  destruct obs as [?|o|?|]; try (split; [by eexists | done]).
  destruct syn as [?|s|?|]; try (split; [by eexists | done]).
  destruct config as [?|?|c|]; try (split; [by eexists | done]).
  destruct (shape_is_n_by_2 windows) eqn:Hshape; simpl;
    [|split; [by eexists | done]].
  unfold try_except, bind, deref.
  destruct (heap w !! o) as [obs_tr|] eqn:Ho; simpl.
  2:{ split; [done|]. exists o, s, c. by split_and!. }
  destruct (heap w !! s) as [syn_tr|] eqn:Hs; simpl.
  2:{ split; [done|]. exists o, s, c. by split_and!. }
  unfold lift.
  destruct (calculate_adjoint_source _ _ _ _ _ _ _) as [a|e] eqn:Hengine;
    simpl.
  - split; [done|]. exists o, s, c. split_and!; [done..|].
    intros adjsrc [= <-]. by exists obs_tr, syn_tr.
  - split; [done|]. exists o, s, c. by split_and!.
Qed.

(** What the loop of [calculate_adjsrc_on_stream] relies on. *)
Lemma calculate_adjsrc_on_trace_inv (obs syn : PyObj F)
  (windows : list (list F)) (config : PyObj F) (ty : string)
  (adjoint_src_flag plot_flag : bool) w :
  match calculate_adjsrc_on_trace obs syn windows config ty adjoint_src_flag
          plot_flag w with
  | (Raise e, w') => (exists msg, e = ValueError msg) /\ w' = w
  | (Ok r, w') => heap w' = heap w
  end.
Proof.
  unfold calculate_adjsrc_on_trace.
  destruct obs as [?|o|?|]; try (split; [by eexists | done]).
  destruct syn as [?|s|?|]; try (split; [by eexists | done]).
  destruct config as [?|?|c|]; try (split; [by eexists | done]).
  destruct (shape_is_n_by_2 windows); simpl; [|split; [by eexists | done]].
  unfold try_except, bind, deref.
  destruct (heap w !! o) as [obs_tr|]; simpl; [|done].
  destruct (heap w !! s) as [syn_tr|]; simpl; [|done].
  unfold lift. by destruct (calculate_adjoint_source _ _ _ _ _ _ _).
Qed.

(** ** [calculate_adjsrc_on_stream], whatever its arguments *)

(** One turn of the loop: the traces stay as they are; the dictionary
    is as before or has one more entry, under the channel of the window
    list; and nothing but [ValueError] is raised. *)
Lemma adjsrc_on_channel_inv (observed synthetic : Stream) (config : PyObj F)
  ty plot_flag adj_flag d (g : list (Window F)) w :
  match adjsrc_on_channel observed synthetic config ty plot_flag adj_flag d g
          w with
  | (Ok d', w') =>
      heap w' = heap w /\
      (d' = d \/ exists a id, group_id g = Some id /\ d' = dict_set d id a)
  | (Raise e, w') => heap w' = heap w /\ exists msg, e = ValueError msg
  end.
Proof.
  unfold adjsrc_on_channel. destruct g as [|w0 rest]; [by split; [|left]|].
  unfold bind at 1, try_except at 1, bind at 1, select_id, first_item.
  destruct (select_by (heap w) (matches_id (channel_id w0)) observed)
    as [|obs sel]; [by split; [|eexists]|].
  unfold ret at 1.
  unfold bind at 1, try_except at 1, bind at 1, deref at 1.
  destruct (heap w !! obs) as [obs_tr|]; [|by split; [|eexists]].
  destruct (last_char (stats_channel obs_tr)) as [c|]; [|by split; [|eexists]].
  unfold bind at 1, select_channel, first_item.
  destruct (select_by (heap w) (matches_channel ("*" ++ c)) synthetic)
    as [|syn sel']; [by split; [|eexists]|].
  unfold ret at 1. unfold bind.
  pose proof (calculate_adjsrc_on_trace_inv (PTrace obs) (PTrace syn)
    (map (fun _win => [relative_starttime _win; relative_endtime _win])
         (w0 :: rest)) config ty adj_flag plot_flag w) as Htrace.
  destruct (calculate_adjsrc_on_trace _ _ _ _ _ _ _ w) as [[[a|]|e] w'].
  - split; [done|]. right. by exists a, (channel_id w0).
  - split; [done | by left].
  - destruct Htrace as [Hmsg ->]. done.
Qed.

Lemma calculate_adjsrc_on_stream_loop_inv (observed synthetic : Stream)
  (windows : list (list (Window F))) (config : PyObj F) ty plot_flag adj_flag
  d0 w :
  match for_fold windows
          (adjsrc_on_channel observed synthetic config ty plot_flag adj_flag)
          d0 w with
  | (Ok d, w') =>
      heap w' = heap w /\ (dict_wf d0 -> dict_wf d) /\
      forall id, id ∈ dict_keys d ->
        id ∈ dict_keys d0 \/
        exists g, g ∈ windows /\ group_id g = Some id
  | (Raise e, w') => heap w' = heap w /\ exists msg, e = ValueError msg
  end.
Proof.
  revert d0 w. induction windows as [|g windows IH]; intros d0 w.
  - simpl. split_and!; [done..|]. intros id ?. by left.
  - rewrite for_fold_cons. unfold bind.
    pose proof (adjsrc_on_channel_inv observed synthetic config ty plot_flag
                  adj_flag d0 g w) as Hstep.
    destruct (adjsrc_on_channel _ _ _ _ _ _ _ _ w) as [[d1|e] w1]; [|done].
    destruct Hstep as [Hheap1 Hd1]. specialize (IH d1 w1).
    destruct (for_fold windows
                (adjsrc_on_channel observed synthetic config ty plot_flag
                   adj_flag) d1 w1) as [[d|e] w'].
    + destruct IH as (Hheap & Hwf & Hkeys). split_and!; [congruence| |].
      * intros Hwf0. apply Hwf.
        destruct Hd1 as [->|(a & id & _ & ->)]; [done | by apply dict_set_wf].
      * intros id Hid. destruct (Hkeys id Hid) as [Hin|(g' & Hg' & Hid')].
        -- destruct Hd1 as [->|(a & id1 & Hid1 & ->)]; [by left|].
           apply dict_keys_set in Hin as [->|Hin]; [|by left].
           right. exists g. split; [left | done].
        -- right. exists g'. split; [by right | done].
    + destruct IH as [Hheap Hmsg]. split; [congruence | done].
Qed.

(** X4: Whatever its arguments (the engine, the traces, a configuration
    of any type), [calculate_adjsrc_on_stream] leaves the traces as they
    are and raises nothing but [ValueError]. The channels of its result
    are pairwise distinct, and each heads one of the window lists. *)
Theorem calculate_adjsrc_on_stream_outcomes (observed synthetic : Stream)
  (windows : list (list (Window F))) (config : PyObj F)
  (adj_src_type : string) (plot_flag adjoint_src_flag : bool) w :
  match calculate_adjsrc_on_stream observed synthetic windows config
          adj_src_type plot_flag adjoint_src_flag w with
  | (Ok channel_adj_dict, w') =>
      heap w' = heap w /\ dict_wf channel_adj_dict /\
      forall id, id ∈ dict_keys channel_adj_dict ->
        exists chan_win, chan_win ∈ windows /\ group_id chan_win = Some id
  | (Raise e, w') => heap w' = heap w /\ exists msg, e = ValueError msg
  end.
Proof.
  unfold calculate_adjsrc_on_stream.
  pose proof (calculate_adjsrc_on_stream_loop_inv observed synthetic windows
                config adj_src_type plot_flag adjoint_src_flag [] w) as Hloop.
  destruct (for_fold windows
              (adjsrc_on_channel observed synthetic config adj_src_type
                 plot_flag adjoint_src_flag) [] w) as [[d|e] w']; [|done].
  destruct Hloop as (Hheap & Hwf & Hkeys). split_and!; [done| |].
  - apply Hwf. apply NoDup_nil_2.
  - intros id Hid. destruct (Hkeys id Hid) as [Hin|?]; [|done].
    by apply elem_of_nil in Hin.
Qed.

(** X5: A window list whose observed trace, or the synthetic trace of
    the same component, is not in the streams makes
    [calculate_adjsrc_on_stream] raise [ValueError], whatever the engine
    does on the other channels. *)
Theorem calculate_adjsrc_on_stream_missing_trace
  (observed synthetic : Stream) (windows : list (list (Window F)))
  (config : Config F) (adj_src_type : string)
  (plot_flag adjoint_src_flag : bool) w chan_win :
  chan_win ∈ windows -> chan_win <> [] ->
  channel_measurement (heap w) observed synthetic config adj_src_type
    adjoint_src_flag plot_flag chan_win = None ->
  exists msg w',
    calculate_adjsrc_on_stream observed synthetic windows (PConfig config)
      adj_src_type plot_flag adjoint_src_flag w = (Raise (ValueError msg), w') /\
    heap w' = heap w.
Proof.
  intros Hin Hne Hnone. unfold calculate_adjsrc_on_stream.
  generalize (@nil (string * AdjointSource F)) as d0. revert w Hnone.
  induction windows as [|g windows IH]; intros w Hnone d0.
  - by apply elem_of_nil in Hin.
  - rewrite for_fold_cons.
    destruct (channel_measurement (heap w) observed synthetic config
                adj_src_type adjoint_src_flag plot_flag g) as [[id r]|] eqn:Hg.
    + destruct (adjsrc_on_channel_measured observed synthetic config
                  adj_src_type plot_flag adjoint_src_flag d0 g w id r Hg)
        as (w1 & Hstep & Hheap1).
      rewrite (bind_Ok _ _ _ _ _ Hstep).
      apply elem_of_cons in Hin as [->|Hin]; [congruence|].
      destruct (IH Hin w1) with (d0 := match r with
                                       | Ok a => dict_set d0 id a
                                       | Raise _ => d0
                                       end)
        as (msg & w' & Hrun & Hheap); [by rewrite Hheap1|].
      exists msg, w'. split; [done | congruence].
    + destruct (decide (g = [])) as [->|Hg_ne].
      * apply elem_of_cons in Hin as [->|Hin]; [done|].
        simpl. rewrite bind_ret. by apply IH.
      * destruct (adjsrc_on_channel_missing observed synthetic (PConfig config)
                    adj_src_type plot_flag adjoint_src_flag d0 g w config
                    Hg_ne Hg) as (msg & Hstep).
        exists msg, w. split; [|done]. by rewrite (bind_Raise _ _ _ _ _ Hstep).
Qed.

(** ** [calculate_adjsrc_on_stream]: what the engine is asked *)

(** The rows that the loop builds from a window list. *)
Definition window_rows (chan_win : list (Window F)) : list (list F) :=
  map (fun _win => [relative_starttime _win; relative_endtime _win]) chan_win.

(** The question put to the engine for one window list: the observed
    trace with the identity of the first window, the first synthetic
    trace of the same component, and the rows of the windows. *)
Definition engine_call h (observed synthetic : Stream)
  (chan_win : list (Window F)) : option (Effect F) :=
  w0 ← head chan_win;
  obs ← head (select_by h (matches_id (channel_id w0)) observed);
  obs_tr ← h !! obs;
  c ← last_char (stats_channel obs_tr);
  syn ← head (select_by h (matches_channel ("*" ++ c)) synthetic);
  syn_tr ← h !! syn;
  Some (CallAdjointSource obs_tr syn_tr (window_rows chan_win)).

Lemma adjsrc_on_channel_call (observed synthetic : Stream)
  (config : Config F) ty plot_flag adj_flag d chan_win w call :
  engine_call (heap w) observed synthetic chan_win = Some call ->
  exists d',
    adjsrc_on_channel observed synthetic (PConfig config) ty plot_flag
      adj_flag d chan_win w =
    (Ok d', mkWorld (heap w) (effects w ++ [call])).
Proof.
  unfold engine_call. intros Hm.
  destruct chan_win as [|w0 rest] eqn:Hcw; [done|]. rewrite <- Hcw in *.
  assert (chan_win <> []) as Hne by (by rewrite Hcw).
  assert (head chan_win = Some w0) as Hhead by (by rewrite Hcw).
  rewrite Hhead in Hm. simpl in Hm.
  destruct (head (select_by _ (matches_id _) observed)) as [obs|] eqn:Hobs;
    [|done]. simpl in Hm.
  destruct (heap w !! obs) as [obs_tr|] eqn:Hobs_tr; [|done]. simpl in Hm.
  destruct (last_char (stats_channel obs_tr)) as [c|] eqn:Hc; [|done].
  simpl in Hm.
  destruct (head (select_by _ (matches_channel _) synthetic)) as [syn|] eqn:Hsyn;
    [|done]. simpl in Hm.
  destruct (heap w !! syn) as [syn_tr|] eqn:Hsyn_tr; [|done]. simpl in Hm.
  injection Hm as <-.
  unfold adjsrc_on_channel. rewrite Hcw. rewrite <- Hcw.
  unfold bind at 1, try_except, select_id, bind, first_item.
  destruct (select_by (heap w) (matches_id (channel_id w0)) observed)
    as [|obs' sel] eqn:Hsel; [done|]. injection Hobs as ->.
  unfold ret. unfold deref at 1. rewrite Hobs_tr, Hc.
  unfold select_channel.
  destruct (select_by (heap w) (matches_channel ("*" ++ c)) synthetic)
    as [|syn' sel'] eqn:Hsel'; [done|]. injection Hsyn as ->.
  unfold calculate_adjsrc_on_trace.
  rewrite (window_rows_shape chan_win Hne). simpl.
  unfold try_except, bind, deref. rewrite Hobs_tr, Hsyn_tr.
  unfold emit, lift. simpl. unfold window_rows.
  destruct (calculate_adjoint_source _ _ _ _ _ _ _) as [a|e]; simpl;
    by eexists.
Qed.

(** X6: When the traces of every channel with windows are there, the
    engine is asked exactly once per non-empty window list, in the order
    of [windows] (twice for a channel that heads two window lists), each
    time with the rows of start and end of the windows of that list, in
    their order; and nothing else is asked of the outside world. *)
Theorem calculate_adjsrc_on_stream_engine_calls
  (observed synthetic : Stream) (windows : list (list (Window F)))
  (config : Config F) (adj_src_type : string)
  (plot_flag adjoint_src_flag : bool) w :
  (forall chan_win, chan_win ∈ windows -> chan_win <> [] ->
     is_Some (engine_call (heap w) observed synthetic chan_win)) ->
  exists channel_adj_dict w',
    calculate_adjsrc_on_stream observed synthetic windows (PConfig config)
      adj_src_type plot_flag adjoint_src_flag w = (Ok channel_adj_dict, w') /\
    heap w' = heap w /\
    effects w' =
    effects w ++ omap (engine_call (heap w) observed synthetic) windows.
Proof.
  unfold calculate_adjsrc_on_stream.
  generalize (@nil (string * AdjointSource F)) as d0. revert w.
  induction windows as [|g windows IH]; intros w d0 Hall.
  - exists d0, w. simpl. by rewrite app_nil_r.
  - rewrite for_fold_cons. destruct (decide (g = [])) as [->|Hne].
    + simpl. rewrite bind_ret. apply IH. intros cw Hin. apply Hall. by right.
    + destruct (Hall g) as [call Hcall]; [left | done |].
      destruct (adjsrc_on_channel_call observed synthetic config adj_src_type
                  plot_flag adjoint_src_flag d0 g w call Hcall) as [d1 Hstep].
      rewrite (bind_Ok _ _ _ _ _ Hstep).
      destruct (IH (mkWorld (heap w) (effects w ++ [call])) d1)
        as (d & w' & Hrun & Hheap & Heff).
      { intros cw Hin. simpl. apply Hall. by right. }
      exists d, w'. split_and!; [done..|].
      rewrite Heff. simpl. rewrite Hcall. by rewrite <- app_assoc.
Qed.

(** ** [calculate_adjsrc_on_stream]: what the result holds *)

(** The adjoint source that one window list contributes under the
    channel [id]: what the engine returned, when the list is filed
    under [id] and the engine returned. *)
Definition measured_for h (observed synthetic : Stream) (config : Config F)
  (adj_src_type : string) (adjoint_src_flag plot_flag : bool) (id : string)
  (chan_win : list (Window F)) : option (AdjointSource F) :=
  match channel_measurement h observed synthetic config adj_src_type
          adjoint_src_flag plot_flag chan_win with
  | Some (id', Ok adjsrc) => if String.eqb id' id then Some adjsrc else None
  | _ => None
  end.

Lemma calculate_adjsrc_on_stream_values_loop (observed synthetic : Stream)
  (windows : list (list (Window F))) (config : Config F) ty plot_flag
  adj_flag d0 w :
  (forall chan_win, chan_win ∈ windows -> chan_win <> [] ->
     is_Some (channel_measurement (heap w) observed synthetic config ty
                adj_flag plot_flag chan_win)) ->
  exists d w',
    for_fold windows
      (adjsrc_on_channel observed synthetic (PConfig config) ty plot_flag
         adj_flag) d0 w = (Ok d, w') /\
    forall id, dict_get d id =
      match list.last (omap (measured_for (heap w) observed synthetic config
                               ty adj_flag plot_flag id) windows) with
      | Some a => Some a
      | None => dict_get d0 id
      end.
Proof.
  revert d0 w. induction windows as [|g windows IH]; intros d0 w Hres.
  - by exists d0, w.
  - rewrite for_fold_cons. destruct (decide (g = [])) as [->|Hne].
    + simpl. rewrite bind_ret. apply IH. intros cw Hin. apply Hres. by right.
    + destruct (Hres g) as [[id0 r] Hm]; [by left | done |].
      destruct (adjsrc_on_channel_measured observed synthetic config ty
                  plot_flag adj_flag d0 g w id0 r Hm)
        as (w1 & Hstep & Hheap1).
      rewrite (bind_Ok _ _ _ _ _ Hstep).
      destruct (IH (match r with Ok a => dict_set d0 id0 a | Raise _ => d0 end)
                  w1) as (d & w' & Hrun & Hget).
      { rewrite Hheap1. intros cw Hin. apply Hres. by right. }
      exists d, w'. split; [done|]. intros id. rewrite Hget, Hheap1.
      simpl. unfold measured_for at 2. rewrite Hm.
      destruct r as [a|e].
      * destruct (String.eqb_spec id0 id) as [->|Hid].
        -- rewrite last_cons_eq. destruct (list.last _); [done|].
           by rewrite dict_get_set, String.eqb_refl.
        -- destruct (list.last _); [done|]. rewrite dict_get_set.
           by destruct (String.eqb_spec id0 id).
      * done.
Qed.

(** X24: When the traces of every channel with windows are there, the
    dictionary that [calculate_adjsrc_on_stream] returns holds, for each
    channel, what the engine returned for the last window list filed
    under that channel on which the engine returned: a later measurement
    of a channel replaces an earlier one, and a later failure leaves the
    earlier result in place. *)
Theorem calculate_adjsrc_on_stream_values (observed synthetic : Stream)
  (windows : list (list (Window F))) (config : Config F)
  (adj_src_type : string) (plot_flag adjoint_src_flag : bool) w :
  (forall chan_win, chan_win ∈ windows -> chan_win <> [] ->
     is_Some (channel_measurement (heap w) observed synthetic config
                adj_src_type adjoint_src_flag plot_flag chan_win)) ->
  exists channel_adj_dict w',
    calculate_adjsrc_on_stream observed synthetic windows (PConfig config)
      adj_src_type plot_flag adjoint_src_flag w = (Ok channel_adj_dict, w') /\
    forall id, dict_get channel_adj_dict id =
      list.last (omap (measured_for (heap w) observed synthetic config
                         adj_src_type adjoint_src_flag plot_flag id) windows).
Proof.
  intros Hres. unfold calculate_adjsrc_on_stream.
  destruct (calculate_adjsrc_on_stream_values_loop observed synthetic windows
              config adj_src_type plot_flag adjoint_src_flag [] w Hres)
    as (d & w' & Hrun & Hget).
  exists d, w'. split; [done|]. intros id. rewrite Hget.
  by destruct (list.last _).
Qed.

(** ** [adjsrc_function], whatever its arguments *)

Lemma adjsrc_function_inv (observed synthetic : PyObj F)
  (windows : option (list (list (Window F)))) (config : PyObj F)
  (ty : string) w :
  match adjsrc_function observed synthetic windows config ty w with
  | (Ok None, w') => w' = w /\ (windows = None \/ windows = Some [])
  | (Ok (Some (adj, nwin)), w') =>
      heap w' = heap w /\
      exists ws, windows = Some ws /\ ([] ∉ ws) /\
        dict_wf adj /\ dict_keys nwin = dict_keys adj /\
        forall id, id ∈ dict_keys adj ->
          exists g, last_group ws id = Some g /\ g ∈ ws /\
                    dict_get nwin id = Some (length g)
  | (Raise e, w') =>
      heap w' = heap w /\
      ((exists msg, e = ValueError msg) \/
       (e = IndexError /\ w' = w /\ exists ws, windows = Some ws /\ [] ∈ ws))
  end.
Proof.
  unfold adjsrc_function.
  destruct observed as [observed|?|?|]; try (split; [done | left; by eexists]).
  destruct synthetic as [synthetic|?|?|];
    try (split; [done | left; by eexists]).
  destruct windows as [[|g ws]|]; [by split; [|right] | | by split; [|left]].
  destruct config as [?|?|c|]; try (split; [done | left; by eexists]).
  set (windows := g :: ws). unfold bind at 1, lift at 1.
  pose proof (stats_loop := _stats_channel_window_loop windows []).
  change (foldl _ (Ok []) windows) with (_stats_channel_window windows)
    in stats_loop.
  destruct (_stats_channel_window windows) as [nwin0|e] eqn:Hstats.
  2:{ destruct stats_loop as [-> Hin]. split; [done|]. right.
      split_and!; [done..|]. by exists windows. }
  apply _stats_channel_window_Ok in Hstats as [Hne Hcount]. clear stats_loop.
  unfold bind at 1.
  pose proof (calculate_adjsrc_on_stream_loop_inv observed synthetic windows
                (PConfig c) ty false true [] w) as Hloop.
  unfold calculate_adjsrc_on_stream.
  destruct (for_fold windows
              (adjsrc_on_channel observed synthetic (PConfig c) ty false true)
              [] w) as [[adj|e] w'];
    [|destruct Hloop; by split; [|left]].
  destruct Hloop as (Hheap & Hwf & Hkeys).
  assert (dict_wf adj) as Hadj by (apply Hwf; apply NoDup_nil_2).
  assert (forall id, id ∈ dict_keys adj ->
            exists g', last_group windows id = Some g' /\ g' ∈ windows /\
                       dict_get nwin0 id = Some (length g')) as Hall.
  { intros id Hid. destruct (Hkeys id Hid) as [Hin|(g0 & Hg0 & Hid0)].
    - by apply elem_of_nil in Hin.
    - destruct (last_group_Some windows g0 id Hg0 Hid0)
        as (g' & Hlast & _ & Hin').
      exists g'. split_and!; [done..|]. by rewrite Hcount, Hlast. }
  unfold bind, lift, _clean_adj_results.
  pose proof (_clean_adj_loop_spec adj nwin0 [] []) as Hclean.
  destruct (_clean_adj_loop adj nwin0 [] []) as [[a n]|e].
  - destruct Hclean as (-> & vs & -> & Hvs); [done..|]. simpl.
    split; [done|]. exists windows. split_and!; [done..| |].
    + by apply (dict_get_counts _ _ _ "" Hvs).
    + intros id Hid. destruct (Hall id Hid) as (g' & Hlast & Hin' & Hget).
      exists g'. split_and!; [done..|].
      destruct (dict_get_counts _ _ _ id Hvs) as [_ Hsame].
      by rewrite Hsame.
  - destruct Hclean as (k & -> & Hk & Hnone); [done..|].
    destruct (Hall k Hk) as (g' & _ & _ & Hget). congruence.
Qed.

(** X7: An empty window list among the windows makes [adjsrc_function]
    raise [IndexError], from [_stats_channel_window] and before any
    measurement: nothing has happened. (On its own,
    [calculate_adjsrc_on_stream] skips an empty window list.) *)
Theorem adjsrc_function_empty_window_list (observed synthetic : Stream)
  (windows : list (list (Window F))) (config : Config F)
  (adj_src_type : string) w :
  [] ∈ windows ->
  adjsrc_function (PStream observed) (PStream synthetic) (Some windows)
    (PConfig config) adj_src_type w = (Raise IndexError, w).
Proof.
  intros Hin. unfold adjsrc_function.
  destruct windows as [|g ws]; [by apply elem_of_nil in Hin|].
  unfold bind, lift. by rewrite (_stats_channel_window_empty _ Hin).
Qed.

(** X8: When [adjsrc_function] returns its pair, the two dictionaries
    have the same channels, pairwise distinct, and the count of each
    channel is the number of windows of the last window list filed under
    it; the traces are as they were. *)
Theorem adjsrc_function_window_counts (observed synthetic : PyObj F)
  (windows : option (list (list (Window F)))) (config : PyObj F)
  (adj_src_type : string) w adj nwin w' :
  adjsrc_function observed synthetic windows config adj_src_type w
  = (Ok (Some (adj, nwin)), w') ->
  heap w' = heap w /\
  exists ws, windows = Some ws /\
    dict_wf adj /\ dict_keys nwin = dict_keys adj /\
    forall id, id ∈ dict_keys adj ->
      exists chan_win, last_group ws id = Some chan_win /\
                       dict_get nwin id = Some (length chan_win).
Proof.
  intros Hrun.
  pose proof (adjsrc_function_inv observed synthetic windows config
                adj_src_type w) as Hinv.
  rewrite Hrun in Hinv. destruct Hinv as (Hheap & ws & -> & _ & Hwf & Hk & Hall).
  split; [done|]. exists ws. split_and!; [done..|].
  intros id Hid. destruct (Hall id Hid) as (g & ? & _ & ?). by exists g.
Qed.

(** X9: [adjsrc_function] never raises the [KeyError] of
    [_clean_adj_results]: what it raises is a [ValueError] (its own
    argument checks, or a missing trace), or the [IndexError] of an
    empty window list; and it never changes a trace. *)
Theorem adjsrc_function_exceptions (observed synthetic : PyObj F)
  (windows : option (list (list (Window F)))) (config : PyObj F)
  (adj_src_type : string) w e w' :
  adjsrc_function observed synthetic windows config adj_src_type w
  = (Raise e, w') ->
  heap w' = heap w /\
  ((exists msg, e = ValueError msg) \/
   (e = IndexError /\ w' = w /\ exists ws, windows = Some ws /\ [] ∈ ws)).
Proof.
  intros Hrun.
  pose proof (adjsrc_function_inv observed synthetic windows config
                adj_src_type w) as Hinv.
  by rewrite Hrun in Hinv.
Qed.

(** X10: [adjsrc_function] returns [None] only through its bare
    [return]: [observed] and [synthetic] are streams and there are no
    windows; nothing has happened. *)
Theorem adjsrc_function_none_without_windows (observed synthetic : PyObj F)
  (windows : option (list (list (Window F)))) (config : PyObj F)
  (adj_src_type : string) w w' :
  adjsrc_function observed synthetic windows config adj_src_type w
  = (Ok None, w') ->
  w' = w /\ (windows = None \/ windows = Some []) /\
  exists obs syn, observed = PStream obs /\ synthetic = PStream syn.
Proof.
  intros Hrun.
  pose proof (adjsrc_function_inv observed synthetic windows config
                adj_src_type w) as Hinv.
  rewrite Hrun in Hinv. destruct Hinv as [-> Hw]. split_and!; [done..|].
  unfold adjsrc_function in Hrun.
  destruct observed as [obs|?|?|]; try done.
  destruct synthetic as [syn|?|?|]; try done. by exists obs, syn.
Qed.

(** ** The conversions between adjoint sources and traces *)







(** X12: A channel identity with fewer than three parts (fewer than two
    dots) makes [_convert_adj_to_trace] raise [IndexError]. *)
Theorem convert_adj_to_trace_short_identity (adj : AdjointSource F)
  (starttime : F) (chan_id : string) w :
  length (split_dot chan_id) < 3 ->
  exists w',
    _convert_adj_to_trace adj starttime chan_id w = (Raise IndexError, w') /\
    effects w' = effects w.
Proof.
  intros Hlen. unfold _convert_adj_to_trace.
  unfold bind at 1, alloc at 1.
  rewrite !(bind_Ok _ _ _ _ _ (modify_last _ _ _ _)).
  unfold bind at 1, last_item.
  destruct (list.last (split_dot chan_id)) as [chan|]; [|by eexists].
  unfold ret at 1.
  rewrite !(bind_Ok _ _ _ _ _ (modify_last _ _ _ _)).
  unfold bind at 1, item.
  destruct (split_dot chan_id !! 2%nat) as [loc_code|] eqn:Hloc.
  - apply lookup_lt_Some in Hloc. lia.
  - by eexists.
Qed.


(** ** [sum_adj_on_component]: a component without channels *)

Lemma for_fold_app {A S} (xs ys : list A) (body : S -> A -> M F S) (acc : S)
  w :
  for_fold (xs ++ ys) body acc w =
  bind (for_fold xs body acc) (fun acc' => for_fold ys body acc') w.
Proof.
  revert acc w. induction xs as [|x xs IH]; intros acc w; simpl; [done|].
  unfold bind. destruct (body acc x w) as [[a|e] w1]; [|done].
  rewrite IH. done.
Qed.

Lemma sum_channel_new_stream (s : Stream) comp st chan w st' w' :
  sum_channel s comp st chan w = (Ok st', w') ->
  new_stream st' = new_stream st.
Proof.
  destruct chan as [chan_id chan_weight]. unfold sum_channel. intros Hrun.
  destruct (negb (existsb (String.eqb comp) (done_comps st))).
  - step Hrun as sel w0 Hsel. step Hrun as tr w1 Htr.
    step Hrun as u1 w2 Hm1. step Hrun as u2 w3 Hm2. by injection Hrun as <- _.
  - destruct (comp_tr st) as [tr|]; [|done].
    step Hrun as t w0 Hl. step Hrun as sel w1 Hsel.
    step Hrun as other w2 Hother. step Hrun as o w3 Ho.
    step Hrun as d w4 Hd. step Hrun as u w5 Hm. by injection Hrun as <- _.
Qed.

Lemma sum_channels_new_stream (s : Stream) comp (cw : dict F) st w st' w' :
  for_fold cw (sum_channel s comp) st w = (Ok st', w') ->
  new_stream st' = new_stream st.
Proof.
  revert st w. induction cw as [|chan cw IH]; intros st w.
  - by intros [= <- _].
  - rewrite for_fold_cons. intros Hrun. step Hrun as st1 w1 Hstep.
    apply sum_channel_new_stream in Hstep. apply IH in Hrun. congruence.
Qed.

(** Each turn of the outer loop appends the current [comp_tr]. *)
Lemma sum_component_appends (s : Stream) st (e : string * dict F) w st' w' :
  sum_component s st e w = (Ok st', w') ->
  exists l, new_stream st' = new_stream st ++ [l] /\ comp_tr st' = Some l.
Proof.
  destruct e as [comp cw]. unfold sum_component. intros Hrun.
  step Hrun as st1 w1 Hinner. apply sum_channels_new_stream in Hinner.
  destruct (comp_tr st1) as [l|] eqn:Hl; [|done].
  injection Hrun as <- _. exists l. simpl. by rewrite Hinner.
Qed.

Lemma sum_components_shape (s : Stream) (wd : dict (dict F)) st w st' w' :
  for_fold wd (sum_component s) st w = (Ok st', w') ->
  exists added,
    new_stream st' = new_stream st ++ added /\ length added = length wd /\
    match list.last added with
    | Some l => comp_tr st' = Some l
    | None => st' = st
    end.
Proof.
  revert st w. induction wd as [|e wd IH]; intros st w.
  - intros [= <- _]. exists []. by rewrite app_nil_r.
  - rewrite for_fold_cons. intros Hrun. step Hrun as st1 w1 Hstep.
    apply sum_component_appends in Hstep as (l & Hns & Hl).
    apply IH in Hrun as (added & Hns' & Hlen & Hlast).
    exists (l :: added). split_and!.
    + by rewrite Hns', Hns, <- app_assoc.
    + simpl. by rewrite Hlen.
    + rewrite last_cons_eq. destruct (list.last added); [done | by subst].
Qed.

(** X16: A component whose weight dictionary is empty assigns no trace.
    As the first component it makes [sum_adj_on_component] raise
    [UnboundLocalError], before anything is changed. After other
    components the variable still holds the trace of the component
    before, and that trace is appended a second time: when the function
    returns, it returns one reference per component, and the reference
    for the empty component is the one for the component before it. *)
Theorem sum_adj_on_component_empty_weights (adj_stream : Stream)
  (comp : string) (wd1 wd2 : dict (dict F)) w :
  match sum_adj_on_component adj_stream (wd1 ++ (comp, []) :: wd2) w with
  | (Ok new_stream, w') =>
      wd1 <> [] /\
      length new_stream = length (wd1 ++ (comp, []) :: wd2) /\
      exists l, new_stream !! (length wd1 - 1)%nat = Some l /\
                new_stream !! length wd1 = Some l
  | (Raise e, w') => wd1 = [] -> e = UnboundLocalError "comp_tr" /\ w' = w
  end.
Proof.
  unfold sum_adj_on_component. unfold bind.
  destruct (for_fold (wd1 ++ (comp, []) :: wd2) (sum_component adj_stream)
              (mkSumState [] [] None) w) as [[st'|e] w'] eqn:Hrun.
  - simpl. rewrite for_fold_app in Hrun. step Hrun as st1 w1 H1.
    rewrite for_fold_cons in Hrun. step Hrun as st2 w2 H2.
    apply sum_components_shape in H1 as (added1 & Hns1 & Hlen1 & Hlast1).
    apply sum_components_shape in Hrun as (added2 & Hns2 & Hlen2 & _).
    unfold sum_component in H2. simpl in H2. rewrite bind_ret in H2.
    destruct (comp_tr st1) as [l|] eqn:Hl; [|done]. injection H2 as <- <-.
    simpl in *. destruct (list.last added1) as [l1|] eqn:Hl1.
    2:{ subst st1. done. }
    injection Hlast1 as <-.
    apply last_Some in Hl1 as [pre ->]. rewrite length_app in Hlen1.
    simpl in Hlen1.
    assert (wd1 <> []) as Hne by (destruct wd1; [simpl in Hlen1; lia | done]).
    split; [done|]. rewrite Hns2, Hns1. split.
    + rewrite !length_app. simpl. lia.
    + exists l. rewrite <- !app_assoc. simpl. split.
      * apply list_lookup_middle. lia.
      * change (pre ++ l :: l :: added2) with (pre ++ [l] ++ l :: added2).
        rewrite app_assoc. apply list_lookup_middle.
        rewrite length_app. simpl. lia.
  - simpl. intros ->. simpl in Hrun. by injection Hrun as <- <-.
Qed.

(** ** Post-processing: arguments without geometry *)

(** X25: An event without origin, or an inventory without a first
    station, makes [postprocess_adjsrc] raise [IndexError] before
    anything is created or asked: the world is as it was. *)
Theorem postprocess_adjsrc_missing_geometry
  (adjsrcs : dict (AdjointSource F)) (adj_starttime : F)
  (raw_synthetic : Stream) (inventory : Inventory F) (event : Event F)
  (sum_over_comp_flag : bool) (weight_dict : option (dict (dict F))) w :
  event_origin event = None \/ head inventory ≫= head = None ->
  postprocess_adjsrc adjsrcs adj_starttime raw_synthetic inventory event
    sum_over_comp_flag weight_dict w = (Raise IndexError, w).
Proof.
  intros Hmissing. unfold postprocess_adjsrc.
  erewrite bind_Raise; [done|]. unfold prepare_adj_stream, event_origin in *.
  destruct (preferred_origin event) as [o|].
  - destruct Hmissing as [?|Hinv]; [done|]. rewrite bind_ret.
    destruct inventory as [|net0 rest]; [done|]. simpl in Hinv.
    simpl. rewrite bind_ret. by destruct net0.
  - destruct (origins event) as [|o rest]; [done|].
    destruct Hmissing as [?|Hinv]; [done|]. simpl. rewrite bind_ret.
    destruct inventory as [|net0 rest']; [done|]. simpl in Hinv.
    simpl. rewrite bind_ret. by destruct net0.
Qed.

(** ** Post-processing: when the fill goes through *)

Lemma list_remove_perm (xs : list string) c xs' :
  list_remove xs c = Ok xs' -> xs ≡ₚ c :: xs'.
Proof.
  revert xs'. induction xs as [|y xs IH]; intros xs'; simpl; [done|].
  destruct (String.eqb_spec y c) as [->|Hne]; [by intros [= ->]|].
  destruct (list_remove xs c) as [xs0|]; [|done]. intros [= <-].
  rewrite (IH xs0 eq_refl). apply Permutation_swap.
Qed.

Lemma list_remove_elem (xs : list string) c :
  c ∈ xs -> exists xs', list_remove xs c = Ok xs'.
Proof.
  induction xs as [|y xs IH]; simpl; [by intros ?%elem_of_nil|].
  intros Hin. destruct (String.eqb_spec y c) as [->|Hne]; [by eexists|].
  apply elem_of_cons in Hin as [?|Hin]; [congruence|].
  destruct (IH Hin) as [xs' ->]. by eexists.
Qed.

Lemma list_remove_Raise (xs : list string) c e :
  list_remove xs c = Raise e ->
  e = ValueError "list.remove(x): x not in list" /\ c ∉ xs.
Proof.
  intros Hrun. split.
  - induction xs as [|y xs IH]; simpl in Hrun; [congruence|].
    destruct (String.eqb y c); [done|].
    destruct (list_remove xs c); [done|]. injection Hrun as <-. by apply IH.
  - intros [xs' Hok]%list_remove_elem. congruence.
Qed.

Lemma strike_perm (ml cs ml' : list string) :
  strike ml cs = Ok ml' -> ml ≡ₚ cs ++ ml'.
Proof.
  revert ml. induction cs as [|c cs IH]; intros ml; simpl; [by intros [= ->]|].
  destruct (list_remove ml c) as [ml1|] eqn:Hrem; [|done].
  intros Hrun. rewrite (list_remove_perm _ _ _ Hrem). by rewrite (IH _ Hrun).
Qed.

Lemma strike_Raise (ml cs : list string) e :
  NoDup ml -> strike ml cs = Raise e ->
  e = ValueError "list.remove(x): x not in list" /\
  ~ (NoDup cs /\ forall c, c ∈ cs -> c ∈ ml).
Proof.
  revert ml. induction cs as [|c cs IH]; intros ml Hnd; simpl; [done|].
  destruct (list_remove ml c) as [ml1|e1] eqn:Hrem.
  - intros Hrun. pose proof (list_remove_perm _ _ _ Hrem) as Hperm.
    assert (NoDup (c :: ml1)) as Hnd1 by (by rewrite <- Hperm).
    apply list.NoDup_cons in Hnd1 as [Hc Hnd1].
    destruct (IH ml1 Hnd1 Hrun) as [-> Hnot]. split; [done|].
    intros [Hcs Hsub]. apply list.NoDup_cons in Hcs as [Hc' Hcs].
    apply Hnot. split; [done|]. intros x Hx.
    assert (x ∈ c :: ml1) as Hin by (rewrite <- Hperm; apply Hsub; by right).
    apply elem_of_cons in Hin as [->|Hin]; done.
  - intros [= <-]. apply list_remove_Raise in Hrem as [-> Hc].
    split; [done|]. intros [_ Hsub]. apply Hc, Hsub. left.
Qed.

Lemma deref_all_run (s : Stream) (cs : list string) w :
  has_components (heap w) s cs ->
  exists ts, deref_all s w = (Ok ts, w) /\ length ts = length s.
Proof.
  induction 1 as [|l c s cs (t & Hl & _) _ (ts & IH & Hlen)]; simpl.
  - by exists [].
  - exists (t :: ts). rewrite (bind_Ok _ _ _ _ _ (deref_Some _ _ _ Hl)).
    rewrite (bind_Ok _ _ _ _ _ IH). split; [done|]. simpl. by rewrite Hlen.
Qed.

Lemma has_components_functional h (s : Stream) (cs cs' : list string) :
  has_components h s cs -> has_components h s cs' -> cs' = cs.
Proof.
  intros Hcs. revert cs'.
  induction Hcs as [|l c s cs (t & Hl & Hc) _ IH]; intros cs' Hcs'.
  - by apply Forall2_nil_inv_l in Hcs'.
  - apply Forall2_cons_inv_l in Hcs'
      as (c' & cs0 & (t' & Hl' & Hc') & Hcs0 & ->).
    f_equal; [congruence | by apply IH].
Qed.

(** The zero traces carry the letters they were made for. *)
Lemma zero_traces_components h (template : Trace F) (ml : list string) :
  (forall c, c ∈ ml -> c ∈ ["Z"; "R"; "T"]) ->
  has_components (h ++ map (zero_trace template) ml)
    (seq (length h) (length ml)) ml.
Proof.
  intros Hsub. apply Forall2_same_length_lookup_2.
  - by rewrite length_seq.
  - intros i l c Hl Hc. apply lookup_seq in Hl as [-> Hi].
    exists (zero_trace template c). split.
    + rewrite lookup_app_r by lia.
      replace (length h + i - length h)%nat with i by lia.
      by rewrite list_lookup_fmap, Hc.
    + assert (c ∈ ["Z"; "R"; "T"]) as Hin.
      { apply Hsub. by eapply list_elem_of_lookup_2. }
      simpl. repeat (apply elem_of_cons in Hin as [->|Hin]);
        [apply last_char_app_one.. | by apply elem_of_nil in Hin].
Qed.

(** The fill, as one step: the components present are struck off the
    list Z, R, T, and a zero trace is appended for each one left. *)
Lemma fill_missing_components_run (s : Stream) (cs : list string) w l0 t0 :
  head s = Some l0 -> heap w !! l0 = Some t0 ->
  has_components (heap w) s cs ->
  fill_missing_components s w =
  match strike ["Z"; "R"; "T"] cs with
  | Ok ml =>
      (Ok (s ++ seq (length (heap w)) (length ml)),
       mkWorld (heap w ++ map (zero_trace t0) ml) (effects w))
  | Raise e => (Raise e, w)
  end.
Proof.
  intros Hhead Ht0 Hcs. unfold fill_missing_components.
  assert (@first_item F loc s = ret l0) as ->.
  { destruct s; [done|]. by injection Hhead as ->. }
  rewrite bind_ret.
  pose proof (missing_loop_run s cs ["Z"; "R"; "T"] w Hcs) as Hloop.
  destruct (strike ["Z"; "R"; "T"] cs) as [ml|e].
  - rewrite (bind_Ok _ _ _ _ _ Hloop). by apply zero_loop_run.
  - by rewrite (bind_Raise _ _ _ _ _ Hloop).
Qed.

(** X20: On a stream that is not empty, the fill goes through when, and
    only when, the component letters of the traces are pairwise distinct
    and all among Z, R, T. Then the stream has exactly three traces
    afterwards, the old ones followed by the new zero traces, and
    carries each of Z, R, T once. Otherwise (two traces of one
    component, or a component such as N or E) [list.remove] raises
    [ValueError], and nothing has changed. *)
Theorem fill_missing_components_outcomes (adj_stream : Stream)
  (cs : list string) w r w' :
  has_components (heap w) adj_stream cs -> adj_stream <> [] ->
  fill_missing_components adj_stream w = (r, w') ->
  match r with
  | Ok filled =>
      NoDup cs /\ (forall c, c ∈ cs -> c ∈ ["Z"; "R"; "T"]) /\
      exists ml,
        cs ++ ml ≡ₚ ["Z"; "R"; "T"] /\
        filled = adj_stream ++ seq (length (heap w)) (length ml) /\
        has_components (heap w') filled (cs ++ ml) /\
        length filled = 3%nat
  | Raise e =>
      e = ValueError "list.remove(x): x not in list" /\ w' = w /\
      ~ (NoDup cs /\ forall c, c ∈ cs -> c ∈ ["Z"; "R"; "T"])
  end.
Proof.
  intros Hcs Hne Hrun.
  assert (NoDup ["Z"; "R"; "T"]) as Hzrt.
  { apply (bool_decide_eq_true_1 (NoDup ["Z"; "R"; "T"])). reflexivity. }
  destruct adj_stream as [|l0 s0] eqn:Hs; [done|]. rewrite <- Hs in *.
  destruct (Forall2_cons_inv_l _ _ _ _ ltac:(rewrite Hs in Hcs; exact Hcs))
    as (c0 & cs0 & (t0 & Ht0 & _) & _ & _).
  rewrite (fill_missing_components_run adj_stream cs w l0 t0
             ltac:(by rewrite Hs) Ht0 Hcs) in Hrun.
  destruct (strike ["Z"; "R"; "T"] cs) as [ml|e] eqn:Hstrike.
  - injection Hrun as <- <-.
    pose proof (strike_perm _ _ _ Hstrike) as Hperm.
    assert (NoDup (cs ++ ml)) as Hnd by (by rewrite <- Hperm).
    apply list.NoDup_app in Hnd as (Hnd & _ & _).
    split; [done|]. split.
    { intros c Hc. rewrite Hperm. apply elem_of_app. by left. }
    exists ml. split_and!; [done | done | |].
    + apply Forall2_app; [by apply has_components_ext|]. simpl.
      apply zero_traces_components. intros c Hc. rewrite Hperm.
      apply elem_of_app. by right.
    + rewrite length_app, length_seq. apply Forall2_length in Hcs.
      rewrite Hcs, <- length_app, <- Hperm. done.
  - injection Hrun as <- <-.
    destruct (strike_Raise _ _ _ Hzrt Hstrike) as [-> Hnot]. done.
Qed.

(** A fill that returns leaves three traces. *)
Lemma fill_missing_components_length (s : Stream) w s' w' :
  fill_missing_components s w = (Ok s', w') -> length s' = 3%nat.
Proof.
  intros Hfill.
  destruct (fill_missing_components_inv _ _ _ _ Hfill)
    as (l0 & tpl & cs & ml & Hhead & Htpl & Hcs & _).
  rewrite (fill_missing_components_run s cs w l0 tpl Hhead Htpl Hcs) in Hfill.
  destruct (strike ["Z"; "R"; "T"] cs) as [ml'|e] eqn:Hstrike; [|done].
  injection Hfill as <- _. apply strike_perm in Hstrike.
  rewrite length_app, length_seq. apply Forall2_length in Hcs.
  by rewrite Hcs, <- length_app, <- Hstrike.
Qed.

(** ** Post-processing: what is returned *)

Lemma final_adjsrcs_loop_shape (_adj : AdjointSource F) (s : Stream)
  (acc : list (AdjointSource F)) w final w' :
  for_fold s
    (fun final_adjsrcs tr =>
       a <- _convert_trace_to_adj tr _adj ;; ret (final_adjsrcs ++ [a]))
    acc w = (Ok final, w') ->
  exists added,
    final = acc ++ added /\ length added = length s /\
    Forall (fun a => adj_src_type a = adj_src_type _adj /\
                     misfit a = misfit _adj /\
                     min_period a = min_period _adj /\
                     max_period a = max_period _adj) added.
Proof.
  revert acc w. induction s as [|l s IH]; intros acc w.
  - intros [= <- _]. exists []. by rewrite app_nil_r.
  - rewrite for_fold_cons. intros Hrun. step Hrun as acc' w1 Hstep.
    step Hstep as a w2 Hconv. injection Hstep as <- <-.
    unfold _convert_trace_to_adj in Hconv. step Hconv as t w3 Hl.
    destruct (last_char (stats_channel t)) as [c|]; [|done].
    injection Hconv as <- _.
    apply IH in Hrun as (added & -> & Hlen & Hall).
    eexists (_ :: added). split_and!.
    + by rewrite <- app_assoc.
    + simpl. by rewrite Hlen.
    + constructor; [done | exact Hall].
Qed.

Lemma final_adjsrcs_shape (adjsrcs : dict (AdjointSource F)) (s : Stream)
  w final w' :
  final_adjsrcs adjsrcs s w = (Ok final, w') ->
  length final = length s /\
  exists id0 a0,
    head adjsrcs = Some (id0, a0) /\
    Forall (fun a => adj_src_type a = adj_src_type a0 /\
                     misfit a = fzero /\
                     min_period a = min_period a0 /\
                     max_period a = max_period a0) final.
Proof.
  unfold final_adjsrcs. intros Hrun.
  destruct adjsrcs as [|[id0 a0] rest]; [done|]. simpl in Hrun.
  rewrite bind_ret in Hrun. rewrite String.eqb_refl in Hrun.
  rewrite bind_ret in Hrun.
  apply final_adjsrcs_loop_shape in Hrun as (added & -> & Hlen & Hall).
  split; [done|]. by exists id0, a0.
Qed.

(** X22: Whenever [postprocess_adjsrc] returns, it returns exactly three
    adjoint sources, one per trace of the filled stream, whatever the
    number of adjoint sources it was given; each carries the type and
    the periods of the first item of [adjsrcs], and the misfit zero. *)
Theorem postprocess_adjsrc_returns_three (adjsrcs : dict (AdjointSource F))
  (adj_starttime : F) (raw_synthetic : Stream) (inventory : Inventory F)
  (event : Event F) (sum_over_comp_flag : bool)
  (weight_dict : option (dict (dict F))) w final offset w' :
  postprocess_adjsrc adjsrcs adj_starttime raw_synthetic inventory event
    sum_over_comp_flag weight_dict w = (Ok (final, offset), w') ->
  length final = 3%nat /\
  exists id0 a0,
    head adjsrcs = Some (id0, a0) /\
    Forall (fun a => adj_src_type a = adj_src_type a0 /\
                     misfit a = fzero /\
                     min_period a = min_period a0 /\
                     max_period a = max_period a0) final.
Proof.
  intros Hrun. unfold postprocess_adjsrc in Hrun.
  step Hrun as p w1 Hprep. step Hrun as filled w2 Hfill.
  step Hrun as u w3 Hrot. step Hrun as final' w4 Hfinal.
  injection Hrun as <- _ _.
  apply final_adjsrcs_shape in Hfinal as [Hlen Hstamp]. split; [|done].
  rewrite Hlen. by eapply fill_missing_components_length.
Qed.

(** X23: Without adjoint sources [postprocess_adjsrc] never returns: it
    raises, at the latest when it takes the first trace of the empty
    stream as template. *)
Theorem postprocess_adjsrc_no_adjsrcs (adj_starttime : F)
  (raw_synthetic : Stream) (inventory : Inventory F) (event : Event F)
  (sum_over_comp_flag : bool) (weight_dict : option (dict (dict F))) w :
  exists e w',
    postprocess_adjsrc [] adj_starttime raw_synthetic inventory event
      sum_over_comp_flag weight_dict w = (Raise e, w').
Proof.
  destruct (postprocess_adjsrc [] adj_starttime raw_synthetic inventory event
              sum_over_comp_flag weight_dict w) as [[[final offset]|e] w']
    eqn:Hrun; [exfalso | by eauto].
  unfold postprocess_adjsrc in Hrun.
  step Hrun as p w1 Hprep. step Hrun as filled w2 Hfill.
  assert (adj_stream p = []) as Hempty.
  { clear Hrun Hfill. unfold prepare_adj_stream in Hprep.
    step Hprep as origin wa Horigin. step Hprep as net0 wb Hnet.
    step Hprep as sta0 wc Hsta. step Hprep as s0 wd Hconv.
    injection Hconv as <- <-.
    step Hprep as raw0 we Hraw0. step Hprep as raw_tr wf Hraw.
    step Hprep as u1 wg Hpad. step Hprep as rate w3 Hrate.
    step Hprep as u2 w4 Hint. step Hprep as ns w5 Hsum.
    injection Hprep as <- _. simpl.
    destruct sum_over_comp_flag; [|by injection Hsum as <- _].
    destruct weight_dict as [weights|]; [|done].
    apply sum_adj_on_component_inv in Hsum as (_ & _ & Hns).
    destruct ns as [|l ns]; [done|].
    apply list.Forall_cons in Hns as [[Hl _] _]. by apply elem_of_nil in Hl. }
  unfold fill_missing_components in Hfill. by rewrite Hempty in Hfill.
Qed.

(** ** Post-processing: failures of the rotation step *)

(** X21: An exception of the geodesy routine comes out of the rotation
    step as it is. An exception of [Stream.rotate] does not: it is
    printed, and the step returns, with the traces as the rotation left
    them. *)
Theorem rotate_adj_stream_failures (p : Prepared) (adj_stream : Stream)
  (cs : list string) w :
  has_components (heap w) adj_stream cs ->
  (forall e,
     gps2DistAzimuth (elat p) (elon p) (slat p) (slon p) = Raise e ->
     rotate_adj_stream p adj_stream w =
     (Raise e,
      mkWorld (heap w)
        (effects w ++
         [CallGps2DistAzimuth (elat p) (elon p) (slat p) (slon p)]))) /\
  (forall d baz bz,
     gps2DistAzimuth (elat p) (elon p) (slat p) (slon p) = Ok (d, baz, bz) ->
     exists w',
       rotate_adj_stream p adj_stream w = (Ok tt, w') /\
       (mem "R" cs && mem "T" cs = true ->
        exists ts failure,
          deref_all adj_stream w = (Ok ts, w) /\
          (stream_rotate baz ts).2 = failure /\
          effects w' =
          effects w ++
          [CallGps2DistAzimuth (elat p) (elon p) (slat p) (slon p);
           CallRotate baz] ++
          match failure with
          | Some e => [PrintExn e]
          | None => []
          end)).
Proof.
  intros Hcs. split.
  { intros e Hgps. unfold rotate_adj_stream.
    unfold bind at 1, calculate_baz, bind at 1, emit, bind at 1, lift.
    by rewrite Hgps. }
  intros d baz bz Hgps. unfold rotate_adj_stream.
  unfold bind at 1, calculate_baz, bind at 1, emit, bind at 1, lift.
  rewrite Hgps. unfold ret at 1.
  set (w0 := mkWorld (heap w) _).
  assert (has_components (heap w0) adj_stream cs) as Hcs0 by done.
  rewrite (bind_Ok _ _ _ _ _ (stream_components_run _ _ _ Hcs0)).
  destruct (mem "R" cs && mem "T" cs); [|by exists w0].
  unfold bind at 1, emit.
  set (w1 := mkWorld (heap w0) _).
  assert (has_components (heap w1) adj_stream cs) as Hcs1 by done.
  destruct (deref_all_run _ _ _ Hcs1) as (ts & Hts & _).
  rewrite (bind_Ok _ _ _ _ _ Hts).
  assert (deref_all adj_stream w = (Ok ts, w)) as Hts0.
  { destruct (deref_all_run _ _ _ Hcs) as (ts0 & Hts0 & _). rewrite Hts0.
    f_equal. f_equal.
    clear -Hts Hts0. revert ts ts0 Hts Hts0.
    induction adj_stream as [|l s IH]; intros ts ts0; simpl.
    - by intros [= <-] [= <-].
    - unfold bind, deref. simpl.
      destruct (heap w !! l) as [t|]; [|done].
      destruct (deref_all s w1) as [[ts1|] ?] eqn:H1; [|done].
      destruct (deref_all s w) as [[ts2|] ?] eqn:H2; [|done].
      intros [= <-] [= <-]. f_equal.
      apply deref_all_inv in H1 as H1'. apply deref_all_inv in H2 as H2'.
      subst. by eapply IH. }
  destruct (stream_rotate baz ts) as [ts' failure] eqn:Hrot.
  destruct (assign_all_effects adj_stream ts' w1) as (w2 & Hassign & Heff).
  rewrite (bind_Ok _ _ _ _ _ Hassign).
  destruct failure as [e|].
  - eexists. split; [done|]. intros _. exists ts, (Some e).
    split_and!; [done | by rewrite Hrot |].
    simpl. rewrite Heff. simpl. by rewrite <- !app_assoc.
  - eexists. split; [done|]. intros _. exists ts, None.
    split_and!; [done | by rewrite Hrot |].
    rewrite Heff. simpl. by rewrite <- !app_assoc.
Qed.

(** ** Post-processing: summation without weights *)

(** X19: With [sum_over_comp_flag] set and no [weight_dict],
    [postprocess_adjsrc] raises [ValueError]; but only after the
    conversion, the zero padding and the interpolation, which have gone
    through exactly as they do without the flag. *)
Theorem postprocess_adjsrc_needs_weights (adjsrcs : dict (AdjointSource F))
  (adj_starttime : F) (raw_synthetic : Stream) (inventory : Inventory F)
  (event : Event F) w p w1 :
  prepare_adj_stream adjsrcs adj_starttime raw_synthetic inventory event
    false None w = (Ok p, w1) ->
  postprocess_adjsrc adjsrcs adj_starttime raw_synthetic inventory event
    true None w =
  (Raise (ValueError "weight_dict should be assigned if you wantto add"), w1).
Proof.
  intros Hprep. unfold postprocess_adjsrc.
  erewrite bind_Raise; [done|].
  unfold prepare_adj_stream in *.
  step Hprep as origin wa Horigin. rewrite (bind_Ok _ _ _ _ _ Horigin).
  step Hprep as net0 wb Hnet. rewrite (bind_Ok _ _ _ _ _ Hnet).
  step Hprep as sta0 wc Hsta. rewrite (bind_Ok _ _ _ _ _ Hsta).
  step Hprep as s0 wd Hconv. rewrite (bind_Ok _ _ _ _ _ Hconv).
  step Hprep as raw0 we Hraw0. rewrite (bind_Ok _ _ _ _ _ Hraw0).
  step Hprep as raw_tr wf Hraw. rewrite (bind_Ok _ _ _ _ _ Hraw).
  step Hprep as u1 wg Hpad. rewrite (bind_Ok _ _ _ _ _ Hpad).
  step Hprep as rate w3 Hrate. rewrite (bind_Ok _ _ _ _ _ Hrate).
  step Hprep as u2 w4 Hint. rewrite (bind_Ok _ _ _ _ _ Hint).
  step Hprep as ns w5 Hsum. injection Hsum as _ <-.
  injection Hprep as _ <-. done.
Qed.

(** ** Post-processing: the time axis of the raw synthetic *)

(** X18: When the interpolation keeps what obspy documents of it, after
    the preparation every trace of the stream is on the time axis of the
    first raw synthetic trace: it starts when that trace starts, has as
    many samples, and its sample interval is the inverse of the sampling
    rate asked for, which is the inverse of the sample interval of that
    trace. *)
Theorem prepare_adj_stream_time_axis (adjsrcs : dict (AdjointSource F))
  (adj_starttime : F) (raw_synthetic : Stream) (inventory : Inventory F)
  (event : Event F) (sum_over_comp_flag : bool)
  (weight_dict : option (dict (dict F))) w p w1 raw0 raw_tr :
  interpolate_contract ->
  head raw_synthetic = Some raw0 -> heap w !! raw0 = Some raw_tr ->
  prepare_adj_stream adjsrcs adj_starttime raw_synthetic inventory event
    sum_over_comp_flag weight_dict w = (Ok p, w1) ->
  exists rate,
    fdiv fone (stats_delta raw_tr) = Some rate /\
    Forall (fun l => exists t,
              heap w1 !! l = Some t /\
              stats_starttime t = stats_starttime raw_tr /\
              npts t = npts raw_tr /\
              fdiv fone rate = Some (stats_delta t))
           (adj_stream p).
Proof.
  intros Hc Hraw0 Hraw_tr Hrun. unfold prepare_adj_stream in Hrun.
  step Hrun as origin wa Horigin. step Hrun as net0 wb Hnet.
  step Hrun as sta0 wc Hsta. step Hrun as s0 wd Hconv.
  assert (wa = w) as ->.
  { destruct (preferred_origin event); [by injection Horigin |
      by apply first_item_Ok_inv in Horigin as [_ ->]]. }
  apply first_item_Ok_inv in Hnet as [_ ->].
  apply first_item_Ok_inv in Hsta as [_ ->].
  apply adjsrcs_to_stream_inv in Hconv as (_ & ts & Hheap).
  step Hrun as raw0' we Hraw. apply first_item_Ok_inv in Hraw as [Hraw ->].
  rewrite Hraw0 in Hraw. injection Hraw as <-.
  step Hrun as raw_tr' wf Hraw. apply deref_Ok_inv in Hraw as [Hraw ->].
  rewrite Hheap, (lookup_app_l_Some _ _ _ _ Hraw_tr) in Hraw.
  injection Hraw as <-.
  step Hrun as u1 wg Hpad. step Hrun as rate w3 Hrate.
  assert (fdiv fone (stats_delta raw_tr) = Some rate) as Hr.
  { destruct (fdiv fone (stats_delta raw_tr)); [by injection Hrate as -> | done]. }
  step Hrun as u2 w4 Hint. destruct u2.
  apply stream_interpolate_inv in Hint as (_ & _ & Hint).
  step Hrun as ns w5 Hsum. injection Hrun as <- <-. simpl.
  exists rate. split; [done|].
  assert (keeps_shapes (heap w4) (heap w5) /\ Forall (fun l => l ∈ s0) ns)
    as [[_ Hk] Hns].
  { destruct sum_over_comp_flag.
    - destruct weight_dict as [weights|]; [|done].
      apply sum_adj_on_component_inv in Hsum as (? & _ & Hns).
      split; [done|]. eapply list.Forall_impl; [exact Hns|]. by intros l [? _].
    - injection Hsum as <- <-. split; [apply keeps_shapes_refl|].
      by apply list.Forall_forall. }
  eapply list.Forall_impl; [exact Hns|]. simpl. intros l Hl.
  destruct (Hint l Hl) as (t0 & t4 & Ht4 & Hi).
  destruct (Hk l t4 Ht4) as (t5 & Ht5 & _ & _ & _ & Htb & _).
  apply Hc in Hi as (Hstart & Hdelta & Hn).
  unfold time_base in Htb. injection Htb as Hs5 Hd5 Hn5.
  exists t5. split_and!; [done | congruence | congruence | congruence].
Qed.

(** ** Post-processing: what the interpolation is asked *)

Lemma adjsrcs_to_stream_loop_run (adjsrcs : dict (AdjointSource F))
  (adj_starttime : F) s0 w s w' :
  for_fold adjsrcs
    (fun adj_stream entry =>
       let '(chan_id, adj) := entry in
       _tr <- _convert_adj_to_trace adj adj_starttime chan_id ;;
       ret (adj_stream ++ [_tr]))
    s0 w = (Ok s, w') ->
  s = s0 ++ seq (length (heap w)) (length adjsrcs) /\
  length (heap w') = (length (heap w) + length adjsrcs)%nat.
Proof.
  revert s0 w. induction adjsrcs as [|[chan_id adj] adjsrcs IH]; intros s0 w.
  - intros [= <- <-]. simpl. by rewrite app_nil_r, Nat.add_0_r.
  - rewrite for_fold_cons. intros Hrun.
    step Hrun as s1 w1 Hstep. step Hstep as l w2 Hconv.
    apply _convert_adj_to_trace_inv in Hconv as (-> & _ & t & Hheap).
    injection Hstep as <- <-.
    apply IH in Hrun as [-> Hlen]. rewrite Hheap, length_app in *. simpl in *.
    split; [|lia]. rewrite <- app_assoc. simpl. do 3 f_equal. lia.
Qed.

Lemma zero_padding_stream_effects (stream : Stream) (starttime endtime : F)
  w u w' :
  zero_padding_stream stream starttime endtime w = (Ok u, w') ->
  effects w' = effects w /\ length (heap w') = length (heap w).
Proof.
  unfold zero_padding_stream. destruct (fgtb starttime endtime); [done|].
  revert w. induction stream as [|l stream IH]; intros w.
  - by intros [= _ <-].
  - rewrite for_each_cons. intros Hrun. step Hrun as u1 w1 Hstep.
    apply IH in Hrun as [Heff Hlen]. rewrite Heff, Hlen. clear IH Heff Hlen.
    unfold zero_padding_trace in Hstep.
    step Hstep as t w0 Hl. apply deref_Ok_inv in Hl as [_ ->].
    assert (forall x dt n wa wb, padding_count x dt wa = (Ok n, wb) -> wb = wa)
      as Hcount.
    { intros x dt n wa wb. unfold padding_count.
      destruct (fdiv x dt) as [q|]; [|done]. unfold bind, lift.
      destruct (ftrunc q); [by intros [= _ <-] | done]. }
    step Hstep as nb w0 Hnb. apply Hcount in Hnb as ->.
    step Hstep as na w0 Hna. apply Hcount in Hna as ->.
    step Hstep as u2 w2 Hm1.
    apply modify_Ok_inv in Hm1 as (t1 & _ & ->).
    apply modify_Ok_inv in Hstep as (t2 & _ & ->). simpl.
    by rewrite !length_insert.
Qed.

Lemma stream_interpolate_effects (stream : Stream) (r s0 : F) (n : nat)
  w u w' :
  stream_interpolate stream r s0 n w = (Ok u, w') ->
  effects w' = effects w ++ map (CallInterpolate r s0 n) stream.
Proof.
  unfold stream_interpolate. revert w.
  induction stream as [|l stream IH]; intros w.
  - intros [= _ <-]. by rewrite app_nil_r.
  - rewrite for_each_cons. intros Hrun. step Hrun as u1 w1 Hstep.
    step Hstep as t w0 Hl. apply deref_Ok_inv in Hl as [_ ->].
    step Hstep as u' w0 Hemit. injection Hemit as _ <-.
    step Hstep as t' w0 Hint. apply lift_Ok_inv in Hint as [_ ->].
    injection Hstep as _ <-.
    apply IH in Hrun. rewrite Hrun. simpl. by rewrite <- app_assoc.
Qed.

(** X17: Whenever the preparation goes through, there is one trace per
    adjoint source, created in the order of the dictionary, and each has
    been interpolated exactly once, in that order: with the inverse of
    the sample interval of the first raw synthetic trace as sampling
    rate, its start time and its sample count. Nothing else was asked of
    the outside world. *)
Theorem prepare_adj_stream_interpolates_once
  (adjsrcs : dict (AdjointSource F)) (adj_starttime : F)
  (raw_synthetic : Stream) (inventory : Inventory F) (event : Event F)
  (sum_over_comp_flag : bool) (weight_dict : option (dict (dict F)))
  w p w1 raw0 raw_tr :
  head raw_synthetic = Some raw0 -> heap w !! raw0 = Some raw_tr ->
  prepare_adj_stream adjsrcs adj_starttime raw_synthetic inventory event
    sum_over_comp_flag weight_dict w = (Ok p, w1) ->
  exists rate,
    fdiv fone (stats_delta raw_tr) = Some rate /\
    length (heap w1) = (length (heap w) + length adjsrcs)%nat /\
    effects w1 =
    effects w ++
    map (CallInterpolate rate (stats_starttime raw_tr) (npts raw_tr))
        (seq (length (heap w)) (length adjsrcs)).
Proof.
  intros Hraw0 Hraw_tr Hrun. unfold prepare_adj_stream in Hrun.
  step Hrun as origin wa Horigin. step Hrun as net0 wb Hnet.
  step Hrun as sta0 wc Hsta. step Hrun as s0 wd Hconv.
  assert (wa = w) as ->.
  { destruct (preferred_origin event); [by injection Horigin |
      by apply first_item_Ok_inv in Horigin as [_ ->]]. }
  apply first_item_Ok_inv in Hnet as [_ ->].
  apply first_item_Ok_inv in Hsta as [_ ->].
  pose proof (adjsrcs_to_stream_inv _ _ _ _ _ Hconv) as (Heff0 & ts & Hheap).
  apply adjsrcs_to_stream_loop_run in Hconv as [Hs0 Hlen0]. simpl in Hs0.
  step Hrun as raw0' we Hraw. apply first_item_Ok_inv in Hraw as [Hraw ->].
  rewrite Hraw0 in Hraw. injection Hraw as <-.
  step Hrun as raw_tr' wf Hraw. apply deref_Ok_inv in Hraw as [Hraw ->].
  rewrite Hheap, (lookup_app_l_Some _ _ _ _ Hraw_tr) in Hraw.
  injection Hraw as <-.
  step Hrun as u1 wg Hpad.
  apply zero_padding_stream_effects in Hpad as [Heff1 Hlen1].
  step Hrun as rate w3 Hrate.
  assert (fdiv fone (stats_delta raw_tr) = Some rate /\ w3 = wg) as [Hr ->].
  { destruct (fdiv fone (stats_delta raw_tr)); [by injection Hrate as -> -> | done]. }
  step Hrun as u2 w4 Hint.
  pose proof (stream_interpolate_inv _ _ _ _ _ _
                ltac:(destruct u2; exact Hint)) as (Hlen2 & _).
  apply stream_interpolate_effects in Hint.
  step Hrun as ns w5 Hsum. injection Hrun as <- <-. simpl.
  assert (effects w5 = effects w4 /\ length (heap w5) = length (heap w4))
    as [Heff3 Hlen3].
  { destruct sum_over_comp_flag.
    - destruct weight_dict as [weights|]; [|done].
      apply sum_adj_on_component_inv in Hsum as ([? _] & ? & _). done.
    - by injection Hsum as _ <-. }
  exists rate. split_and!; [done | congruence |].
  rewrite Heff3, Hint, Heff1, Heff0, Hs0. done.
Qed.

End MoreProperties.

(** * Concrete runs

    ** An exact instance, and test doubles for the collaborators *)

(** Exact rational arithmetic: [int(x)] is the quotient of numerator by
    denominator, rounded toward zero. *)
Definition Qc_trunc (q : Qc) : Z := Z.quot (Qnum q) (Zpos (Qden q)).

#[export] Instance Num_Qc : Num Qc := {|
  fzero := 0%Qc;
  fone := 1%Qc;
  fadd := Qcplus;
  fsub := Qcminus;
  fmul := Qcmult;
  fdiv x y := if decide (y = 0%Qc) then None else Some (x / y)%Qc;
  fgtb x y := bool_decide (y < x)%Qc;
  ftrunc q := Ok (Qc_trunc q);
  of_Z z := Q2Qc (inject_Z z)
|}.

(** The shell patterns [*] and [?] of [fnmatch]; every other character
    stands for itself. *)
Fixpoint glob (pat : string) : string -> bool :=
  match pat with
  | EmptyString =>
      fun name => match name with EmptyString => true | _ => false end
  | String c pat' =>
      if Ascii.eqb c "*"%char then
        fix star (name : string) : bool :=
          glob pat' name ||
          match name with
          | EmptyString => false
          | String _ name' => star name'
          end
      else if Ascii.eqb c "?"%char then
        fun name =>
          match name with
          | EmptyString => false
          | String _ name' => glob pat' name'
          end
      else
        fun name =>
          match name with
          | EmptyString => false
          | String d name' => Ascii.eqb c d && glob pat' name'
          end
  end.

Definition qc (n : Z) (d : positive) : Qc := Q2Qc (n # d).

(** A measurement engine that fails on radial channels and otherwise
    returns the synthetic samples as adjoint source. *)
Definition engine_double (ty : string) (obs syn : Trace Qc)
  (config : Config Qc) (windows : list (list Qc)) (adjoint_src plot : bool)
  : Result (AdjointSource Qc) :=
  match last_char (stats_channel obs) with
  | Some "R" => Raise (ExternalError "measurement failed")
  | Some c =>
      Ok (mkAdjointSource ty 0%Qc (stats_delta obs) (qc 50 1) (qc 100 1) c
            (data syn) (stats_network obs) (stats_station obs))
  | None => Raise (ExternalError "no channel")
  end.

(** A geodesy routine that knows one pair of points: from (0N, 0E) to
    (0N, 90E) the distance is a quarter of the equator, the azimuth is 90
    degrees and the back azimuth 270 degrees. *)
Definition geodesy_double (lat1 lon1 lat2 lon2 : Qc)
  : Result (Qc * Qc * Qc) :=
  if bool_decide (lat1 = 0%Qc /\ lon1 = 0%Qc /\ lat2 = 0%Qc /\
                  lon2 = qc 90 1)
  then Ok (qc 10018754 1, qc 90 1, qc 270 1)
  else Raise (ExternalError "unknown points").

(** An interpolation that takes, for each new sample time, the sample
    of the trace at or before it; it raises outside the trace. *)
Definition interpolate_double (sampling_rate start : Qc) (n : nat)
  (tr : Trace Qc) : Result (Trace Qc) :=
  match fdiv fone sampling_rate with
  | None => Raise ZeroDivisionError
  | Some new_dt =>
      let pick (i : nat) : option Qc :=
        let t := (start + Q2Qc (inject_Z (Z.of_nat i)) * new_dt)%Qc in
        let k := Qc_trunc ((t - stats_starttime tr) / stats_delta tr)%Qc in
        if bool_decide (t < stats_starttime tr)%Qc then None
        else data tr !! Z.to_nat k in
      match mapM pick (seq 0 n) with
      | Some d =>
          Ok (mkTrace (stats_network tr) (stats_station tr)
                (stats_location tr) (stats_channel tr) start new_dt d)
      | None => Raise (ValueError "outside the trace")
      end
  end.

Definition replace_last (s c : string) : string :=
  substring 0 (String.length s - 1) s ++ c.

(** A rotation for back azimuth 90 degrees only, where N = T and
    E = -R: the first R and T traces become N and E in place. *)
Definition rotate_double (baz : Qc) (ts : list (Trace Qc))
  : list (Trace Qc) * option Exn :=
  match list_find (fun t => last_char (stats_channel t) = Some "R") ts,
        list_find (fun t => last_char (stats_channel t) = Some "T") ts with
  | Some (i, r), Some (j, t) =>
      if bool_decide (baz = qc 90 1) then
        if Nat.eqb (length (data r)) (length (data t)) then
          let n := set_channel (set_data r (data t))
                     (replace_last (stats_channel r) "N") in
          let e := set_channel (set_data t (map Qcopp (data r)))
                     (replace_last (stats_channel t) "E") in
          (<[j := e]> (<[i := n]> ts), None)
        else (ts, Some (ValueError
                "All components need to have the same time span."))
      else (ts, Some (ExternalError "unknown angle"))
  | _, _ => (ts, None)
  end.

#[export] Instance externals_double : Externals Qc := {|
  fnmatch name pat := glob pat name;
  calculate_adjoint_source := engine_double;
  gps2DistAzimuth := geodesy_double;
  trace_interpolate := interpolate_double;
  stream_rotate := rotate_double
|}.

Definition empty_world : World Qc := mkWorld [] [].

(** Equality is decidable on everything a run returns, so that concrete
    runs are settled by evaluation. *)
#[export] Instance Exn_eq_dec : EqDecision Exn.
Proof. solve_decision. Defined.
#[export] Instance Result_eq_dec {A} `{EqDecision A} : EqDecision (Result A).
Proof. solve_decision. Defined.
#[export] Instance Trace_eq_dec {F} `{EqDecision F} : EqDecision (Trace F).
Proof. solve_decision. Defined.
#[export] Instance AdjointSource_eq_dec {F} `{EqDecision F} :
  EqDecision (AdjointSource F).
Proof. solve_decision. Defined.
#[export] Instance Effect_eq_dec {F} `{EqDecision F} : EqDecision (Effect F).
Proof. solve_decision. Defined.
#[export] Instance World_eq_dec {F} `{EqDecision F} : EqDecision (World F).
Proof. solve_decision. Defined.
#[export] Instance Prepared_eq_dec {F} `{EqDecision F} :
  EqDecision (@Prepared F).
Proof. solve_decision. Defined.

Ltac by_evaluation :=
  match goal with
  | |- ~ ?P => apply (bool_decide_eq_false_1 P); vm_compute; reflexivity
  | |- ?P => apply (bool_decide_eq_true_1 P); vm_compute; reflexivity
  end.

(** A trace of station II.AAK. *)
Definition aak (loc_code chan : string) (start delta : Qc) (d : list Qc)
  : Trace Qc :=
  mkTrace "II" "AAK" loc_code chan start delta d.

(** ** [_clean_adj_results] *)

(** C8, against the claim as stated: an adjoint result without a window
    count is not discarded, it raises [KeyError]. *)
Lemma clean_adj_results_orphan_raises :
  _clean_adj_results [("II.AAK.00.BHZ", 7%nat)] [("II.AAK.00.BHR", 2%nat)]
  = Raise (KeyError "II.AAK.00.BHZ").
Proof. reflexivity. Qed.

Lemma clean_adj_results_witness :
  dict_wf [("II.AAK.00.BHZ", 7%nat)] /\
  match _clean_adj_results [("II.AAK.00.BHZ", 7%nat)]
          [("II.AAK.00.BHZ", 2%nat); ("II.AAK.00.BHR", 1%nat)] with
  | Ok (clean_adj_dict, clean_nwin_dict) =>
      clean_adj_dict = [("II.AAK.00.BHZ", 7%nat)] /\
      dict_keys clean_nwin_dict = dict_keys [("II.AAK.00.BHZ", 7%nat)] /\
      forall k, k ∈ dict_keys [("II.AAK.00.BHZ", 7%nat)] ->
        is_Some (dict_get [("II.AAK.00.BHZ", 2%nat); ("II.AAK.00.BHR", 1%nat)] k) /\
        dict_get clean_nwin_dict k =
        dict_get [("II.AAK.00.BHZ", 2%nat); ("II.AAK.00.BHR", 1%nat)] k
  | Raise e =>
      exists k, e = KeyError k /\ k ∈ dict_keys [("II.AAK.00.BHZ", 7%nat)] /\
                dict_get [("II.AAK.00.BHZ", 2%nat); ("II.AAK.00.BHR", 1%nat)] k
                = None
  end.
Proof.
  assert (dict_wf [("II.AAK.00.BHZ", 7%nat)]) as Hwf
    by (unfold dict_wf; by_evaluation).
  split; [exact Hwf|].
  exact (clean_adj_results_restricts_counts
           [("II.AAK.00.BHZ", 7%nat)]
           [("II.AAK.00.BHZ", 2%nat); ("II.AAK.00.BHR", 1%nat)] Hwf).
Defined.

(** ** [adjsrc_function] without windows *)

Definition no_windows : option (list (list (Window Qc))) := Some [].

Definition two_traces : World Qc :=
  mkWorld [aak "00" "BHZ" 0%Qc 1%Qc []; aak "" "MXZ" 0%Qc 1%Qc []] [].

Lemma adjsrc_function_no_windows_witness :
  (no_windows = None \/ no_windows = Some []) /\
  adjsrc_function (PStream [0%nat]) (PStream [1%nat]) no_windows POther
    default_adj_src_type two_traces
  = (Ok None, two_traces).
Proof.
  assert (no_windows = None \/ no_windows = Some []) as Hw by (by right).
  split; [exact Hw|].
  exact (adjsrc_function_no_windows [0%nat] [1%nat] no_windows POther
           default_adj_src_type two_traces Hw).
Defined.

(** ** [calculate_baz] *)

(** C4 at the event (0N, 0E) and the station (0N, 90E): the back
    azimuth, from the station to the event, is 270 degrees;
    [calculate_baz] returns 90 degrees, the azimuth from the event to
    the station. *)
Lemma calculate_baz_witness :
  gps2DistAzimuth 0%Qc 0%Qc 0%Qc (qc 90 1)
  = Ok (qc 10018754 1, qc 90 1, qc 270 1) /\
  calculate_baz 0%Qc 0%Qc 0%Qc (qc 90 1) empty_world
  = (Ok (qc 90 1),
     mkWorld (heap empty_world)
       (effects empty_world ++
        [CallGps2DistAzimuth 0%Qc 0%Qc 0%Qc (qc 90 1)])).
Proof.
  assert (gps2DistAzimuth 0%Qc 0%Qc 0%Qc (qc 90 1)
          = Ok (qc 10018754 1, qc 90 1, qc 270 1)) as Hg by reflexivity.
  split; [exact Hg|].
  exact (calculate_baz_middle 0%Qc 0%Qc 0%Qc (qc 90 1) empty_world _ _ _ Hg).
Defined.

Lemma calculate_baz_is_not_back_azimuth :
  (calculate_baz 0%Qc 0%Qc 0%Qc (qc 90 1) empty_world).1 <> Ok (qc 270 1).
Proof. by_evaluation. Qed.

(** ** Zero padding *)

(** A trace of three samples, one per second from time 0: its samples
    cover the interval from 0 to 3 exactly. *)
Definition covering_trace : Trace Qc :=
  aak "00" "BHZ" 0%Qc 1%Qc [qc 1 1; qc 2 1; qc 3 1].

Definition covering_world : World Qc := mkWorld [covering_trace] [].

(** The samples of [t] cover the interval from [starttime] to [endtime]
    exactly: the first one is at [starttime], and [endtime] is one
    sample interval after the last one. *)
Definition covers_exactly {F} `{Num F} (t : Trace F) (starttime endtime : F)
  : Prop :=
  stats_starttime t = starttime /\
  fadd starttime (fmul (of_Z (Z.of_nat (npts t))) (stats_delta t)) = endtime.

(** C2, against the claim as stated: padding a trace that covers the
    interval exactly adds one zero before it and two after it, and
    moves its start time one sample back. *)
Lemma zero_padding_changes_covering_trace :
  covers_exactly covering_trace 0%Qc (qc 3 1) /\
  (zero_padding_stream [0%nat] 0%Qc (qc 3 1) covering_world).1 = Ok tt /\
  heap (zero_padding_stream [0%nat] 0%Qc (qc 3 1) covering_world).2 !! 0%nat
  = Some (aak "00" "BHZ" (qc (-1) 1) 1%Qc
            [0%Qc; qc 1 1; qc 2 1; qc 3 1; 0%Qc; 0%Qc]) /\
  heap (zero_padding_stream [0%nat] 0%Qc (qc 3 1) covering_world).2 !! 0%nat
  <> Some covering_trace.
Proof.
  split_and!.
  - split; by_evaluation.
  - by_evaluation.
  - by_evaluation.
  - by_evaluation.
Qed.

Lemma zero_padding_stream_witness :
  (NoDup [0%nat] /\
   fgtb 0%Qc (qc 3 1) = false /\
   (forall l, l ∈ [0%nat] -> exists t i j,
      heap covering_world !! l = Some t /\ leading_quotient 0%Qc t i /\
      trailing_quotient (qc 3 1) t j)) /\
  exists w',
    zero_padding_stream [0%nat] 0%Qc (qc 3 1) covering_world = (Ok tt, w') /\
    effects w' = effects covering_world /\
    (forall l, l ∉ [0%nat] -> heap w' !! l = heap covering_world !! l) /\
    forall l t i j, l ∈ [0%nat] -> heap covering_world !! l = Some t ->
      leading_quotient 0%Qc t i -> trailing_quotient (qc 3 1) t j ->
      exists t',
        heap w' !! l = Some t' /\
        data t' = zeros (Z.to_nat (Z.max (i + 1) 0)) ++ data t ++
                  zeros (Z.to_nat (Z.max (j + 1) 0)) /\
        stats_starttime t' =
          fsub (stats_starttime t)
               (fmul (of_Z (Z.max (i + 1) 0)) (stats_delta t)) /\
        stats_delta t' = stats_delta t /\
        trace_id t' = trace_id t /\
        ((0 <= i)%Z -> length (data t) < length (data t')).
Proof.
  assert (NoDup [0%nat]) as Hnd by by_evaluation.
  assert (fgtb 0%Qc (qc 3 1) = false) as Hle by by_evaluation.
  assert (forall l, l ∈ [0%nat] -> exists t i j,
            heap covering_world !! l = Some t /\ leading_quotient 0%Qc t i /\
            trailing_quotient (qc 3 1) t j) as Hall.
  { intros l ->%list_elem_of_singleton.
    exists covering_trace, 0%Z, 1%Z. split_and!; [done| |].
    - exists 0%Qc. split; by_evaluation.
    - exists 1%Qc. split; by_evaluation. }
  split; [by split_and! |].
  exact (zero_padding_stream_adds_margin [0%nat] 0%Qc (qc 3 1) covering_world
           Hnd Hle Hall).
Defined.

(** In exact arithmetic the counts of the covering case are those of
    the example, for every trace: one leading zero, two trailing. *)
Lemma covering_quotients (t : Trace Qc) (endtime : Qc) :
  stats_delta t <> 0%Qc -> npts t <> 0%nat ->
  covers_exactly t (stats_starttime t) endtime ->
  leading_quotient (stats_starttime t) t 0 /\ trailing_quotient endtime t 1.
Proof.
  intros Hdt Hn [_ <-]. unfold leading_quotient, trailing_quotient.
  simpl. destruct (decide (stats_delta t = 0%Qc)) as [|_]; [done|]. split.
  - eexists. split; [done|]. f_equal.
    replace (stats_starttime t - stats_starttime t)%Qc with 0%Qc by ring.
    unfold Qcdiv. by rewrite Qcmult_0_l.
  - eexists. split; [done|]. f_equal. unfold stats_endtime.
    destruct (npts t) as [|n]; [done|].
    replace (_ / _)%Qc with 1%Qc; [done|].
    rewrite Nat2Z.inj_succ, <- Z.add_1_r.
    assert (Q2Qc (inject_Z (Z.of_nat n + 1)) =
            (Q2Qc (inject_Z (Z.of_nat n)) + 1)%Qc) as ->.
    { apply Qc_is_canon. simpl. rewrite !Qred_correct.
      rewrite inject_Z_plus. reflexivity. }
    change (fadd (stats_starttime t)
              (fmul (of_Z (Z.of_nat n)) (stats_delta t)))
      with (stats_starttime t +
            Q2Qc (inject_Z (Z.of_nat n)) * stats_delta t)%Qc.
    field. done.
Qed.

(** ** The window aggregator *)

(** Station II.AAK with three observed channels and three synthetic
    ones, windows on each component, and one empty window list. The
    engine double fails on the radial channel. *)
Definition station_world : World Qc :=
  mkWorld
    [aak "00" "BHZ" 0%Qc 1%Qc [qc 1 1; qc 2 1];
     aak "00" "BHR" 0%Qc 1%Qc [qc 3 1; qc 4 1];
     aak "00" "BHT" 0%Qc 1%Qc [qc 5 1; qc 6 1];
     aak "" "MXZ" 0%Qc 1%Qc [qc 1 1; qc 1 1];
     aak "" "MXR" 0%Qc 1%Qc [qc 2 1; qc 2 1];
     aak "" "MXT" 0%Qc 1%Qc [qc 3 1; qc 3 1]]
    [].

Definition station_observed : Stream := [0; 1; 2]%nat.
Definition station_synthetic : Stream := [3; 4; 5]%nat.

Definition station_windows : list (list (Window Qc)) :=
  [[mkWindow "II.AAK.00.BHZ" 0%Qc 1%Qc; mkWindow "II.AAK.00.BHZ" 1%Qc (qc 2 1)];
   [mkWindow "II.AAK.00.BHR" 0%Qc 1%Qc];
   [];
   [mkWindow "II.AAK.00.BHT" 0%Qc (qc 2 1)]].

Definition station_config : Config Qc := mkConfig (qc 50 1) (qc 100 1).

Lemma calculate_adjsrc_on_stream_witness :
  (forall chan_win, chan_win ∈ station_windows -> chan_win <> [] ->
     is_Some (channel_measurement (heap station_world) station_observed
                station_synthetic station_config default_adj_src_type true
                false chan_win)) /\
  exists channel_adj_dict w',
    calculate_adjsrc_on_stream station_observed station_synthetic
      station_windows (PConfig station_config) default_adj_src_type false
      true station_world = (Ok channel_adj_dict, w') /\
    heap w' = heap station_world /\
    forall id, id ∈ dict_keys channel_adj_dict <->
      exists chan_win adjsrc, chan_win ∈ station_windows /\
        channel_measurement (heap station_world) station_observed
          station_synthetic station_config default_adj_src_type true false
          chan_win = Some (id, Ok adjsrc).
Proof.
  assert (forall chan_win, chan_win ∈ station_windows -> chan_win <> [] ->
     is_Some (channel_measurement (heap station_world) station_observed
                station_synthetic station_config default_adj_src_type true
                false chan_win)) as Hres.
  { intros chan_win Hin Hne. unfold station_windows in Hin.
    repeat (apply elem_of_cons in Hin as [->|Hin]);
      [by_evaluation | by_evaluation | done | by_evaluation
      | by apply elem_of_nil in Hin]. }
  split; [exact Hres|].
  exact (calculate_adjsrc_on_stream_isolates_failures station_observed
           station_synthetic station_windows station_config
           default_adj_src_type false true station_world Hres).
Defined.

(** The run itself: the radial channel is left out, the other two are
    there, and the engine was asked three times. *)
Lemma calculate_adjsrc_on_stream_example :
  match calculate_adjsrc_on_stream station_observed station_synthetic
          station_windows (PConfig station_config) default_adj_src_type
          false true station_world with
  | (Ok channel_adj_dict, w') =>
      dict_keys channel_adj_dict = ["II.AAK.00.BHZ"; "II.AAK.00.BHT"] /\
      length (effects w') = 3%nat
  | (Raise _, _) => False
  end.
Proof. vm_compute. done. Qed.

(** ** Weighted summation *)

(** The example of the specification: two vertical channels with the
    sample arrays 2, 2, 2 and 0, 0, 0, and weights one half each. *)
Definition two_vertical : World Qc :=
  mkWorld
    [aak "00" "BHZ" 0%Qc 1%Qc [qc 2 1; qc 2 1; qc 2 1];
     aak "10" "BHZ" 0%Qc 1%Qc [0%Qc; 0%Qc; 0%Qc]]
    [].

Definition halves : dict (dict Qc) :=
  [("Z", [("II.AAK.00.BHZ", qc 1 2); ("II.AAK.10.BHZ", qc 1 2)])].

Lemma halves_ready : sum_ready (heap two_vertical) [0; 1]%nat halves.
Proof. split; by_evaluation. Qed.

Lemma sum_adj_on_component_witness :
  sum_ready (heap two_vertical) [0; 1]%nat halves /\
  exists new_stream w',
    sum_adj_on_component [0; 1]%nat halves two_vertical
    = (Ok new_stream, w') /\
    Forall2
      (fun entry l => exists tr,
         heap w' !! l = Some tr /\
         weighted_sum (heap two_vertical) [0; 1]%nat entry.2 = Some (data tr) /\
         stats_location tr = "")
      halves new_stream.
Proof.
  split; [exact halves_ready|].
  exact (sum_adj_on_component_weighted_sum [0; 1]%nat halves two_vertical
           halves_ready).
Defined.

(** The run itself: one trace, with the samples 1, 1, 1. *)
Lemma sum_adj_on_component_example :
  (sum_adj_on_component [0; 1]%nat halves two_vertical).1 = Ok [0%nat] /\
  heap (sum_adj_on_component [0; 1]%nat halves two_vertical).2 !! 0%nat
  = Some (aak "" "BHZ" 0%Qc 1%Qc [1%Qc; 1%Qc; 1%Qc]).
Proof. split; by_evaluation. Qed.

(** The example of the docstring: two instruments on Z and on R, one on
    T, which has no location code. *)
Definition five_traces : World Qc :=
  mkWorld
    [aak "00" "BHZ" 0%Qc 1%Qc [qc 2 1; qc 4 1];
     aak "10" "BHZ" 0%Qc 1%Qc [qc 6 1; qc 8 1];
     aak "00" "BHR" 0%Qc 1%Qc [qc 10 1; qc 10 1];
     aak "10" "BHR" 0%Qc 1%Qc [qc 20 1; qc 30 1];
     aak "" "BHT" 0%Qc 1%Qc [qc 5 1; qc 7 1]]
    [].

Definition docstring_weights : dict (dict Qc) :=
  [("Z", [("II.AAK.00.BHZ", qc 1 2); ("II.AAK.10.BHZ", qc 1 2)]);
   ("R", [("II.AAK.00.BHR", qc 3 10); ("II.AAK.10.BHR", qc 7 10)]);
   ("T", [("II.AAK..BHT", 1%Qc)])].

Lemma docstring_weights_ready :
  sum_ready (heap five_traces) [0; 1; 2; 3; 4]%nat docstring_weights.
Proof. split; by_evaluation. Qed.

Definition docstring_result : Stream := [0; 2; 4]%nat.

Definition docstring_world : World Qc :=
  (sum_adj_on_component [0; 1; 2; 3; 4]%nat docstring_weights five_traces).2.

Lemma docstring_returns :
  sum_adj_on_component [0; 1; 2; 3; 4]%nat docstring_weights five_traces
  = (Ok docstring_result, docstring_world).
Proof. by_evaluation. Qed.

Lemma sum_adj_on_component_mutation_witness :
  sum_adj_on_component [0; 1; 2; 3; 4]%nat docstring_weights five_traces
  = (Ok docstring_result, docstring_world) /\
  length (heap docstring_world) = length (heap five_traces) /\
  Forall
    (fun l => l ∈ [0; 1; 2; 3; 4]%nat /\ exists t t',
       heap five_traces !! l = Some t /\ heap docstring_world !! l = Some t' /\
       stats_location t' = "" /\ same_shape t t')
    docstring_result /\
  (sum_ready (heap five_traces) [0; 1; 2; 3; 4]%nat docstring_weights ->
   Forall2
     (fun entry l => exists id1 k1 rest t1 d,
        entry.2 = (id1, k1) :: rest /\
        resolve (heap five_traces) [0; 1; 2; 3; 4]%nat id1 = Some l /\
        heap five_traces !! l = Some t1 /\
        foldl (add_channel (heap five_traces) [0; 1; 2; 3; 4]%nat)
              (Some (map (fun x => fmul x k1) (data t1))) rest = Some d /\
        heap docstring_world !! l = Some (set_location (set_data t1 d) ""))
     docstring_weights docstring_result /\
   forall l, l ∉ docstring_result ->
     heap docstring_world !! l = heap five_traces !! l).
Proof.
  split; [exact docstring_returns|].
  exact (sum_adj_on_component_mutates_input [0; 1; 2; 3; 4]%nat
           docstring_weights five_traces docstring_result docstring_world
           docstring_returns).
Defined.

(** The run itself: the caller's traces 0, 2 and 4 are returned, and
    the first two are no longer what they were. *)
Lemma sum_adj_on_component_mutation_example :
  (sum_adj_on_component [0; 1; 2; 3; 4]%nat docstring_weights five_traces).1
  = Ok [0; 2; 4]%nat /\
  heap (sum_adj_on_component [0; 1; 2; 3; 4]%nat docstring_weights
          five_traces).2
  = [aak "" "BHZ" 0%Qc 1%Qc [qc 4 1; qc 6 1];
     aak "10" "BHZ" 0%Qc 1%Qc [qc 6 1; qc 8 1];
     aak "" "BHR" 0%Qc 1%Qc [qc 17 1; qc 24 1];
     aak "10" "BHR" 0%Qc 1%Qc [qc 20 1; qc 30 1];
     aak "" "BHT" 0%Qc 1%Qc [qc 5 1; qc 7 1]] /\
  heap (sum_adj_on_component [0; 1; 2; 3; 4]%nat docstring_weights
          five_traces).2 !! 0%nat
  <> heap five_traces !! 0%nat.
Proof. split_and!; by_evaluation. Qed.

(** C7 at an input that is not ready: the example of the
    specification, when the second channel has no location code. Once
    the first trace has lost its location code it answers to the
    identity of the second channel, and is added to itself: one half of
    2, 2, 2 plus one half of 0, 0, 0 comes out as 3/2, 3/2, 3/2, and the
    weighted sum is 1, 1, 1. *)
Definition clashing : World Qc :=
  mkWorld
    [aak "00" "BHZ" 0%Qc 1%Qc [qc 2 1; qc 2 1; qc 2 1];
     aak "" "BHZ" 0%Qc 1%Qc [0%Qc; 0%Qc; 0%Qc]]
    [].

Definition clashing_weights : dict (dict Qc) :=
  [("Z", [("II.AAK.00.BHZ", qc 1 2); ("II.AAK..BHZ", qc 1 2)])].

Lemma sum_adj_on_component_clash :
  (sum_adj_on_component [0; 1]%nat clashing_weights clashing).1 = Ok [0%nat] /\
  heap (sum_adj_on_component [0; 1]%nat clashing_weights clashing).2 !! 0%nat
  = Some (aak "" "BHZ" 0%Qc 1%Qc [qc 3 2; qc 3 2; qc 3 2]) /\
  weighted_sum (heap clashing) [0; 1]%nat
    [("II.AAK.00.BHZ", qc 1 2); ("II.AAK..BHZ", qc 1 2)]
  = Some [1%Qc; 1%Qc; 1%Qc].
Proof. split_and!; by_evaluation. Qed.

(** ** Post-processing *)

(** The interpolation double keeps the contract. *)
Lemma interpolate_double_contract : interpolate_contract.
Proof.
  intros r s0 n t t'. simpl. unfold interpolate_double.
  destruct (fdiv fone r) as [new_dt|] eqn:Hdt; [|done].
  destruct (mapM _ (seq 0 n)) as [d|] eqn:Hd; [|done].
  intros [= <-]. simpl. split_and!; [done..|].
  unfold npts. simpl. apply length_mapM in Hd. by rewrite length_seq in Hd.
Qed.

(** An event at (0N, 0E) at time 100, a station at (0N, 90E), a raw
    synthetic of four samples that starts at time 105, and adjoint
    sources of three samples that start at time 105. *)
Definition the_event : Event Qc :=
  mkEvent (Some (mkOrigin 0%Qc 0%Qc (qc 100 1))) [].

Definition the_inventory : Inventory Qc := [[mkStation 0%Qc (qc 90 1)]].

Definition raw_world : World Qc :=
  mkWorld [aak "" "MXZ" (qc 105 1) 1%Qc [0%Qc; 0%Qc; 0%Qc; 0%Qc]] [].

Definition adjoint (comp : string) (d : list Qc) : AdjointSource Qc :=
  mkAdjointSource "multitaper_misfit" 0%Qc 1%Qc (qc 50 1) (qc 100 1) comp d
    "II" "AAK".

Definition only_Z : dict (AdjointSource Qc) :=
  [("II.AAK.00.BHZ", adjoint "Z" [qc 1 1; qc 2 1; qc 3 1])].

Definition Z_and_R : dict (AdjointSource Qc) :=
  [("II.AAK.00.BHR", adjoint "R" [qc 4 1; qc 5 1; qc 6 1]);
   ("II.AAK.00.BHZ", adjoint "Z" [qc 1 1; qc 2 1; qc 3 1])].

Definition only_Z_run : Result (list (AdjointSource Qc) * Qc) * World Qc :=
  postprocess_adjsrc only_Z (qc 105 1) [0%nat] the_inventory the_event false
    None raw_world.

Definition only_Z_final : list (AdjointSource Qc) :=
  match only_Z_run.1 with Ok (final, _) => final | Raise _ => [] end.

Definition only_Z_offset : Qc :=
  match only_Z_run.1 with Ok (_, offset) => offset | Raise _ => 0%Qc end.

Definition only_Z_world : World Qc := only_Z_run.2.

Lemma only_Z_returns :
  postprocess_adjsrc only_Z (qc 105 1) [0%nat] the_inventory the_event false
    None raw_world
  = (Ok (only_Z_final, only_Z_offset), only_Z_world).
Proof. by_evaluation. Qed.

(** C1, against the claim as stated: with a vertical adjoint source
    alone, the geodesy routine is asked for the azimuth and the
    rotation is attempted (on the zero traces filled in for R and T);
    what comes back is Z, N, E. *)
Lemma postprocess_adjsrc_only_Z_rotates :
  dict_keys only_Z = ["II.AAK.00.BHZ"] /\
  effects only_Z_world =
    [CallInterpolate 1%Qc (qc 105 1) 4 1;
     CallGps2DistAzimuth 0%Qc 0%Qc 0%Qc (qc 90 1);
     CallRotate (qc 90 1)] /\
  component <$> only_Z_final = ["Z"; "N"; "E"] /\
  adjoint_source <$> only_Z_final =
    [[qc 1 1; qc 2 1; qc 3 1; 0%Qc]; [0%Qc; 0%Qc; 0%Qc; 0%Qc];
     [0%Qc; 0%Qc; 0%Qc; 0%Qc]].
Proof. split_and!; by_evaluation. Qed.

Lemma postprocess_adjsrc_rotates_witness :
  postprocess_adjsrc only_Z (qc 105 1) [0%nat] the_inventory the_event false
    None raw_world
  = (Ok (only_Z_final, only_Z_offset), only_Z_world) /\
  exists p w1 filled w2 components d baz bz post,
    prepare_adj_stream only_Z (qc 105 1) [0%nat] the_inventory the_event
      false None raw_world = (Ok p, w1) /\
    fill_missing_components (adj_stream p) w1 = (Ok filled, w2) /\
    stream_components filled w2 = (Ok components, w2) /\
    "Z" ∈ components /\ "R" ∈ components /\ "T" ∈ components /\
    gps2DistAzimuth (elat p) (elon p) (slat p) (slon p) = Ok (d, baz, bz) /\
    effects only_Z_world =
    effects w2 ++
    [CallGps2DistAzimuth (elat p) (elon p) (slat p) (slon p);
     CallRotate baz] ++ post.
Proof.
  split; [exact only_Z_returns|].
  exact (postprocess_adjsrc_rotates_after_fill only_Z (qc 105 1) [0%nat]
           the_inventory the_event false None raw_world only_Z_final
           only_Z_offset only_Z_world only_Z_returns).
Defined.

(** A run with Z and R: the synthetic starts 5 after the origin time. *)
Definition Z_and_R_run : Result (list (AdjointSource Qc) * Qc) * World Qc :=
  postprocess_adjsrc Z_and_R (qc 105 1) [0%nat] the_inventory the_event false
    None raw_world.

Definition Z_and_R_final : list (AdjointSource Qc) :=
  match Z_and_R_run.1 with Ok (final, _) => final | Raise _ => [] end.

Definition Z_and_R_offset : Qc :=
  match Z_and_R_run.1 with Ok (_, offset) => offset | Raise _ => 0%Qc end.

Definition Z_and_R_world : World Qc := Z_and_R_run.2.

Definition raw_trace : Trace Qc :=
  aak "" "MXZ" (qc 105 1) 1%Qc [0%Qc; 0%Qc; 0%Qc; 0%Qc].

Definition the_origin : Origin Qc := mkOrigin 0%Qc 0%Qc (qc 100 1).

Lemma Z_and_R_returns :
  postprocess_adjsrc Z_and_R (qc 105 1) [0%nat] the_inventory the_event false
    None raw_world
  = (Ok (Z_and_R_final, Z_and_R_offset), Z_and_R_world).
Proof. by_evaluation. Qed.

Lemma postprocess_adjsrc_time_offset_witness :
  (head [0%nat] = Some 0%nat /\
   heap raw_world !! 0%nat = Some raw_trace /\
   event_origin the_event = Some the_origin /\
   postprocess_adjsrc Z_and_R (qc 105 1) [0%nat] the_inventory the_event
     false None raw_world
   = (Ok (Z_and_R_final, Z_and_R_offset), Z_and_R_world)) /\
  Z_and_R_offset = fsub (stats_starttime raw_trace) (time the_origin) /\
  forall T0 d, time the_origin = T0 -> stats_starttime raw_trace = fadd T0 d ->
    fsub (fadd T0 d) T0 = d -> Z_and_R_offset = d.
Proof.
  split; [by split_and!; [done | done | done | exact Z_and_R_returns]|].
  exact (postprocess_adjsrc_time_offset Z_and_R (qc 105 1) [0%nat]
           the_inventory the_event false None raw_world Z_and_R_final
           Z_and_R_offset Z_and_R_world 0%nat raw_trace the_origin
           eq_refl eq_refl eq_refl Z_and_R_returns).
Defined.

(** The scenario of the specification, in exact arithmetic: it is 5. *)
Lemma postprocess_adjsrc_time_offset_example :
  Z_and_R_offset = qc 5 1 /\
  forall T0 d : Qc, fsub (fadd T0 d) T0 = d.
Proof. split; [by_evaluation|]. intros T0 d. simpl. ring. Qed.

(** The state after the preparation of that run. *)
Definition Z_and_R_prepared : Result Prepared * World Qc :=
  prepare_adj_stream Z_and_R (qc 105 1) [0%nat] the_inventory the_event false
    None raw_world.

Definition Z_and_R_p : Prepared :=
  match Z_and_R_prepared.1 with
  | Ok p => p
  | Raise _ => mkPrepared 0%Qc 0%Qc 0%Qc 0%Qc 0%Qc []
  end.

Definition Z_and_R_w1 : World Qc := Z_and_R_prepared.2.

Lemma Z_and_R_prepared_returns :
  prepare_adj_stream Z_and_R (qc 105 1) [0%nat] the_inventory the_event false
    None raw_world
  = (Ok Z_and_R_p, Z_and_R_w1).
Proof. by_evaluation. Qed.

Lemma Z_and_R_components :
  has_components (heap Z_and_R_w1) (adj_stream Z_and_R_p) ["R"; "Z"].
Proof.
  assert (adj_stream Z_and_R_p = [1; 2]%nat) as -> by by_evaluation.
  constructor; [|constructor; [|constructor]].
  - exists (aak "00" "BHR" (qc 105 1) 1%Qc [qc 4 1; qc 5 1; qc 6 1; 0%Qc]).
    split; by_evaluation.
  - exists (aak "00" "BHZ" (qc 105 1) 1%Qc [qc 1 1; qc 2 1; qc 3 1; 0%Qc]).
    split; by_evaluation.
Qed.

Lemma fill_missing_components_witness :
  (interpolate_contract /\
   prepare_adj_stream Z_and_R (qc 105 1) [0%nat] the_inventory the_event
     false None raw_world = (Ok Z_and_R_p, Z_and_R_w1) /\
   has_components (heap Z_and_R_w1) (adj_stream Z_and_R_p) ["R"; "Z"] /\
   (["R"; "Z"] = ["Z"; "R"] \/ ["R"; "Z"] = ["R"; "Z"])) /\
  exists tr_T w2 t_T tr_template template tr_Z t_Z,
    fill_missing_components (adj_stream Z_and_R_p) Z_and_R_w1
    = (Ok (adj_stream Z_and_R_p ++ [tr_T]), w2) /\
    heap w2 !! tr_T = Some t_T /\
    head (adj_stream Z_and_R_p) = Some tr_template /\
    heap Z_and_R_w1 !! tr_template = Some template /\
    t_T = set_channel (set_data template (map (fun _ => fzero) (data template)))
            (first_two (stats_channel template) ++ "T") /\
    Forall (fun x => x = fzero) (data t_T) /\
    last_char (stats_channel t_T) = Some "T" /\
    tr_Z ∈ adj_stream Z_and_R_p /\ heap w2 !! tr_Z = Some t_Z /\
    last_char (stats_channel t_Z) = Some "Z" /\
    stats_starttime t_T = stats_starttime t_Z /\
    stats_delta t_T = stats_delta t_Z /\
    npts t_T = npts t_Z.
Proof.
  assert (["R"; "Z"] = ["Z"; "R"] \/ ["R"; "Z"] = ["R"; "Z"]) as Hcase
    by (by right).
  split;
    [by split_and!;
       [exact interpolate_double_contract | exact Z_and_R_prepared_returns
       | exact Z_and_R_components | exact Hcase]|].
  exact (fill_missing_components_zero_T Z_and_R (qc 105 1) [0%nat]
           the_inventory the_event false None raw_world Z_and_R_p Z_and_R_w1
           ["R"; "Z"] interpolate_double_contract Z_and_R_prepared_returns
           Z_and_R_components Hcase).
Defined.

(** The run itself: the filled trace is II.AAK.00.BHT, four zeros from
    time 105 on, one per second, as the Z trace. *)
Lemma fill_missing_components_example :
  (fill_missing_components (adj_stream Z_and_R_p) Z_and_R_w1).1
  = Ok [1; 2; 3]%nat /\
  heap (fill_missing_components (adj_stream Z_and_R_p) Z_and_R_w1).2 !! 3%nat
  = Some (aak "00" "BHT" (qc 105 1) 1%Qc [0%Qc; 0%Qc; 0%Qc; 0%Qc]) /\
  heap (fill_missing_components (adj_stream Z_and_R_p) Z_and_R_w1).2 !! 2%nat
  = Some (aak "00" "BHZ" (qc 105 1) 1%Qc [qc 1 1; qc 2 1; qc 3 1; 0%Qc]).
Proof. split_and!; by_evaluation. Qed.

(** ** Further properties in exact arithmetic *)













(** ** Runs for the further properties *)

Lemma adjsrc_function_empty_window_list_witness :
  [] ∈ station_windows /\
  adjsrc_function (PStream station_observed) (PStream station_synthetic)
    (Some station_windows) (PConfig station_config) default_adj_src_type
    station_world = (Raise IndexError, station_world).
Proof.
  assert ([] ∈ station_windows) as Hin by (right; right; left).
  split; [exact Hin|].
  exact (adjsrc_function_empty_window_list station_observed station_synthetic
           station_windows station_config default_adj_src_type station_world
           Hin).
Defined.

(** The same station, without the empty window list. *)
Definition measured_windows : list (list (Window Qc)) :=
  [[mkWindow "II.AAK.00.BHZ" 0%Qc 1%Qc; mkWindow "II.AAK.00.BHZ" 1%Qc (qc 2 1)];
   [mkWindow "II.AAK.00.BHR" 0%Qc 1%Qc];
   [mkWindow "II.AAK.00.BHT" 0%Qc (qc 2 1)]].

Definition station_run
  : Result (option (dict (AdjointSource Qc) * dict nat)) * World Qc :=
  adjsrc_function (PStream station_observed) (PStream station_synthetic)
    (Some measured_windows) (PConfig station_config) default_adj_src_type
    station_world.

Definition station_adj : dict (AdjointSource Qc) :=
  match station_run.1 with Ok (Some (adj, _)) => adj | _ => [] end.

Definition station_nwin : dict nat :=
  match station_run.1 with Ok (Some (_, nwin)) => nwin | _ => [] end.

Definition station_after : World Qc := station_run.2.

Lemma station_returns :
  adjsrc_function (PStream station_observed) (PStream station_synthetic)
    (Some measured_windows) (PConfig station_config) default_adj_src_type
    station_world
  = (Ok (Some (station_adj, station_nwin)), station_after).
Proof. by_evaluation. Qed.

Lemma adjsrc_function_window_counts_witness :
  adjsrc_function (PStream station_observed) (PStream station_synthetic)
    (Some measured_windows) (PConfig station_config) default_adj_src_type
    station_world
  = (Ok (Some (station_adj, station_nwin)), station_after) /\
  heap station_after = heap station_world /\
  exists ws, Some measured_windows = Some ws /\
    dict_wf station_adj /\ dict_keys station_nwin = dict_keys station_adj /\
    forall id, id ∈ dict_keys station_adj ->
      exists chan_win, last_group ws id = Some chan_win /\
                       dict_get station_nwin id = Some (length chan_win).
Proof.
  split; [exact station_returns|].
  exact (adjsrc_function_window_counts (PStream station_observed)
           (PStream station_synthetic) (Some measured_windows)
           (PConfig station_config) default_adj_src_type station_world
           station_adj station_nwin station_after station_returns).
Defined.

(** The run itself: the radial channel, on which the engine fails, has
    neither an adjoint source nor a count. *)
Lemma adjsrc_function_example :
  dict_keys station_adj = ["II.AAK.00.BHZ"; "II.AAK.00.BHT"] /\
  station_nwin = [("II.AAK.00.BHZ", 2%nat); ("II.AAK.00.BHT", 1%nat)].
Proof. split; by_evaluation. Qed.

(** A window on a channel that the observed stream does not have. *)
Definition stray_windows : list (list (Window Qc)) :=
  [[mkWindow "II.AAK.00.BHZ" 0%Qc 1%Qc];
   [mkWindow "II.AAK.00.BHE" 0%Qc 1%Qc]].

Definition stray_after : World Qc :=
  (adjsrc_function (PStream station_observed) (PStream station_synthetic)
     (Some stray_windows) (PConfig station_config) default_adj_src_type
     station_world).2.

Lemma stray_raises :
  adjsrc_function (PStream station_observed) (PStream station_synthetic)
    (Some stray_windows) (PConfig station_config) default_adj_src_type
    station_world
  = (Raise (ValueError "Missing observed trace for window: II.AAK.00.BHE"),
     stray_after).
Proof. by_evaluation. Qed.

Lemma adjsrc_function_exceptions_witness :
  adjsrc_function (PStream station_observed) (PStream station_synthetic)
    (Some stray_windows) (PConfig station_config) default_adj_src_type
    station_world
  = (Raise (ValueError "Missing observed trace for window: II.AAK.00.BHE"),
     stray_after) /\
  heap stray_after = heap station_world /\
  ((exists msg,
      ValueError "Missing observed trace for window: II.AAK.00.BHE"
      = ValueError msg) \/
   (ValueError "Missing observed trace for window: II.AAK.00.BHE" = IndexError /\
    stray_after = station_world /\
    exists ws, Some stray_windows = Some ws /\ [] ∈ ws)).
Proof.
  split; [exact stray_raises|].
  exact (adjsrc_function_exceptions (PStream station_observed)
           (PStream station_synthetic) (Some stray_windows)
           (PConfig station_config) default_adj_src_type station_world
           _ stray_after stray_raises).
Defined.

Definition stray_group : list (Window Qc) :=
  [mkWindow "II.AAK.00.BHE" 0%Qc 1%Qc].

Lemma stray_group_unmeasured :
  channel_measurement (heap station_world) station_observed station_synthetic
    station_config default_adj_src_type true false stray_group = None.
Proof. vm_compute. reflexivity. Qed.

Lemma calculate_adjsrc_on_stream_missing_trace_witness :
  (stray_group ∈ stray_windows /\ stray_group <> [] /\
   channel_measurement (heap station_world) station_observed station_synthetic
     station_config default_adj_src_type true false stray_group = None) /\
  exists msg w',
    calculate_adjsrc_on_stream station_observed station_synthetic
      stray_windows (PConfig station_config) default_adj_src_type false true
      station_world = (Raise (ValueError msg), w') /\
    heap w' = heap station_world.
Proof.
  assert (stray_group ∈ stray_windows) as Hin by (right; left).
  assert (stray_group <> []) as Hne by done.
  split; [by split_and!; [exact Hin | exact Hne | exact stray_group_unmeasured]|].
  exact (calculate_adjsrc_on_stream_missing_trace station_observed
           station_synthetic stray_windows station_config
           default_adj_src_type false true station_world stray_group
           Hin Hne stray_group_unmeasured).
Defined.


Lemma convert_adj_to_trace_short_identity_witness :
  length (split_dot "AAK.BHZ") < 3 /\
  exists w',
    _convert_adj_to_trace (adjoint "Z" [qc 1 1; qc 2 1]) (qc 105 1) "AAK.BHZ"
      empty_world = (Raise IndexError, w') /\
    effects w' = effects empty_world.
Proof.
  assert (length (split_dot "AAK.BHZ") < 3) as Hlen by (simpl; lia).
  split; [exact Hlen|].
  exact (convert_adj_to_trace_short_identity (adjoint "Z" [qc 1 1; qc 2 1])
           (qc 105 1) "AAK.BHZ" empty_world Hlen).
Defined.





Lemma Z_and_R_stream_not_empty : adj_stream Z_and_R_p <> [].
Proof. by_evaluation. Qed.

Definition Z_and_R_w2 : World Qc :=
  (fill_missing_components (adj_stream Z_and_R_p) Z_and_R_w1).2.

Lemma Z_and_R_fill_returns :
  fill_missing_components (adj_stream Z_and_R_p) Z_and_R_w1
  = (Ok [1; 2; 3]%nat, Z_and_R_w2).
Proof. by_evaluation. Qed.

Lemma fill_missing_components_outcomes_witness :
  (has_components (heap Z_and_R_w1) (adj_stream Z_and_R_p) ["R"; "Z"] /\
   adj_stream Z_and_R_p <> [] /\
   fill_missing_components (adj_stream Z_and_R_p) Z_and_R_w1
   = (Ok [1; 2; 3]%nat, Z_and_R_w2)) /\
  NoDup ["R"; "Z"] /\ (forall c, c ∈ ["R"; "Z"] -> c ∈ ["Z"; "R"; "T"]) /\
  exists ml,
    ["R"; "Z"] ++ ml ≡ₚ ["Z"; "R"; "T"] /\
    [1; 2; 3]%nat = adj_stream Z_and_R_p ++
                    seq (length (heap Z_and_R_w1)) (length ml) /\
    has_components (heap Z_and_R_w2) [1; 2; 3]%nat (["R"; "Z"] ++ ml) /\
    length [1; 2; 3]%nat = 3%nat.
Proof.
  split; [by split_and!; [exact Z_and_R_components
                         | exact Z_and_R_stream_not_empty
                         | exact Z_and_R_fill_returns]|].
  exact (fill_missing_components_outcomes (adj_stream Z_and_R_p) ["R"; "Z"]
           Z_and_R_w1 (Ok [1; 2; 3]%nat) Z_and_R_w2 Z_and_R_components
           Z_and_R_stream_not_empty Z_and_R_fill_returns).
Defined.

(** Two vertical channels and no summation: the fill raises. *)
Lemma fill_missing_components_duplicate_example :
  fill_missing_components [0; 1]%nat two_vertical
  = (Raise (ValueError "list.remove(x): x not in list"), two_vertical).
Proof. by_evaluation. Qed.

Lemma postprocess_adjsrc_returns_three_witness :
  postprocess_adjsrc Z_and_R (qc 105 1) [0%nat] the_inventory the_event false
    None raw_world
  = (Ok (Z_and_R_final, Z_and_R_offset), Z_and_R_world) /\
  length Z_and_R_final = 3%nat /\
  exists id0 a0,
    head Z_and_R = Some (id0, a0) /\
    Forall (fun a => adj_src_type a = adj_src_type a0 /\
                     misfit a = fzero /\
                     min_period a = min_period a0 /\
                     max_period a = max_period a0) Z_and_R_final.
Proof.
  split; [exact Z_and_R_returns|].
  exact (postprocess_adjsrc_returns_three Z_and_R (qc 105 1) [0%nat]
           the_inventory the_event false None raw_world Z_and_R_final
           Z_and_R_offset Z_and_R_world Z_and_R_returns).
Defined.

Lemma rotate_adj_stream_failures_witness :
  has_components (heap Z_and_R_w1) (adj_stream Z_and_R_p) ["R"; "Z"] /\
  (forall e,
     gps2DistAzimuth (elat Z_and_R_p) (elon Z_and_R_p) (slat Z_and_R_p)
       (slon Z_and_R_p) = Raise e ->
     rotate_adj_stream Z_and_R_p (adj_stream Z_and_R_p) Z_and_R_w1 =
     (Raise e,
      mkWorld (heap Z_and_R_w1)
        (effects Z_and_R_w1 ++
         [CallGps2DistAzimuth (elat Z_and_R_p) (elon Z_and_R_p)
            (slat Z_and_R_p) (slon Z_and_R_p)]))) /\
  (forall d baz bz,
     gps2DistAzimuth (elat Z_and_R_p) (elon Z_and_R_p) (slat Z_and_R_p)
       (slon Z_and_R_p) = Ok (d, baz, bz) ->
     exists w',
       rotate_adj_stream Z_and_R_p (adj_stream Z_and_R_p) Z_and_R_w1
       = (Ok tt, w') /\
       (mem "R" ["R"; "Z"] && mem "T" ["R"; "Z"] = true ->
        exists ts failure,
          deref_all (adj_stream Z_and_R_p) Z_and_R_w1 = (Ok ts, Z_and_R_w1) /\
          (stream_rotate baz ts).2 = failure /\
          effects w' =
          effects Z_and_R_w1 ++
          [CallGps2DistAzimuth (elat Z_and_R_p) (elon Z_and_R_p)
             (slat Z_and_R_p) (slon Z_and_R_p);
           CallRotate baz] ++
          match failure with
          | Some e => [PrintExn e]
          | None => []
          end)).
Proof.
  split; [exact Z_and_R_components|].
  exact (rotate_adj_stream_failures Z_and_R_p (adj_stream Z_and_R_p)
           ["R"; "Z"] Z_and_R_w1 Z_and_R_components).
Defined.

Lemma postprocess_adjsrc_needs_weights_witness :
  prepare_adj_stream Z_and_R (qc 105 1) [0%nat] the_inventory the_event false
    None raw_world
  = (Ok Z_and_R_p, Z_and_R_w1) /\
  postprocess_adjsrc Z_and_R (qc 105 1) [0%nat] the_inventory the_event true
    None raw_world =
  (Raise (ValueError "weight_dict should be assigned if you wantto add"),
   Z_and_R_w1).
Proof.
  split; [exact Z_and_R_prepared_returns|].
  exact (postprocess_adjsrc_needs_weights Z_and_R (qc 105 1) [0%nat]
           the_inventory the_event raw_world Z_and_R_p Z_and_R_w1
           Z_and_R_prepared_returns).
Defined.

Lemma prepare_adj_stream_time_axis_witness :
  (@interpolate_contract Qc _ _ /\ head [0%nat] = Some 0%nat /\
   heap raw_world !! 0%nat = Some raw_trace /\
   prepare_adj_stream Z_and_R (qc 105 1) [0%nat] the_inventory the_event
     false None raw_world = (Ok Z_and_R_p, Z_and_R_w1)) /\
  exists rate,
    fdiv fone (stats_delta raw_trace) = Some rate /\
    Forall (fun l => exists t,
              heap Z_and_R_w1 !! l = Some t /\
              stats_starttime t = stats_starttime raw_trace /\
              npts t = npts raw_trace /\
              fdiv fone rate = Some (stats_delta t))
           (adj_stream Z_and_R_p).
Proof.
  split; [by split_and!; [exact interpolate_double_contract | done | done
                         | exact Z_and_R_prepared_returns]|].
  exact (prepare_adj_stream_time_axis Z_and_R (qc 105 1) [0%nat]
           the_inventory the_event false None raw_world Z_and_R_p Z_and_R_w1
           0%nat raw_trace interpolate_double_contract eq_refl eq_refl
           Z_and_R_prepared_returns).
Defined.

Lemma two_traces_no_windows :
  adjsrc_function (PStream [0%nat]) (PStream [1%nat]) no_windows POther
    default_adj_src_type two_traces
  = (Ok None, two_traces).
Proof. reflexivity. Qed.

Lemma adjsrc_function_none_without_windows_witness :
  adjsrc_function (PStream [0%nat]) (PStream [1%nat]) no_windows POther
    default_adj_src_type two_traces
  = (Ok None, two_traces) /\
  two_traces = two_traces /\ (no_windows = None \/ no_windows = Some []) /\
  exists obs syn,
    @PStream Qc [0%nat] = PStream obs /\ @PStream Qc [1%nat] = PStream syn.
Proof.
  split; [exact two_traces_no_windows|].
  exact (adjsrc_function_none_without_windows (PStream [0%nat])
           (PStream [1%nat]) no_windows POther default_adj_src_type
           two_traces two_traces two_traces_no_windows).
Defined.

Lemma station_windows_resolved :
  forall chan_win, chan_win ∈ station_windows -> chan_win <> [] ->
    is_Some (engine_call (heap station_world) station_observed
               station_synthetic chan_win).
Proof.
  intros chan_win Hin Hne. unfold station_windows in Hin.
  repeat (apply elem_of_cons in Hin as [->|Hin]);
    [by eexists | by eexists | done | by eexists
    | by apply elem_of_nil in Hin].
Qed.

Lemma calculate_adjsrc_on_stream_engine_calls_witness :
  (forall chan_win, chan_win ∈ station_windows -> chan_win <> [] ->
     is_Some (engine_call (heap station_world) station_observed
                station_synthetic chan_win)) /\
  exists channel_adj_dict w',
    calculate_adjsrc_on_stream station_observed station_synthetic
      station_windows (PConfig station_config) default_adj_src_type false
      true station_world = (Ok channel_adj_dict, w') /\
    heap w' = heap station_world /\
    effects w' =
    effects station_world ++
    omap (engine_call (heap station_world) station_observed station_synthetic)
         station_windows.
Proof.
  split; [exact station_windows_resolved|].
  exact (calculate_adjsrc_on_stream_engine_calls station_observed
           station_synthetic station_windows station_config
           default_adj_src_type false true station_world
           station_windows_resolved).
Defined.

Lemma prepare_adj_stream_interpolates_once_witness :
  (head [0%nat] = Some 0%nat /\
   heap raw_world !! 0%nat = Some raw_trace /\
   prepare_adj_stream Z_and_R (qc 105 1) [0%nat] the_inventory the_event
     false None raw_world = (Ok Z_and_R_p, Z_and_R_w1)) /\
  exists rate,
    fdiv fone (stats_delta raw_trace) = Some rate /\
    length (heap Z_and_R_w1) = (length (heap raw_world) + length Z_and_R)%nat /\
    effects Z_and_R_w1 =
    effects raw_world ++
    map (CallInterpolate rate (stats_starttime raw_trace) (npts raw_trace))
        (seq (length (heap raw_world)) (length Z_and_R)).
Proof.
  split; [by split_and!; [done | done | exact Z_and_R_prepared_returns]|].
  exact (prepare_adj_stream_interpolates_once Z_and_R (qc 105 1) [0%nat]
           the_inventory the_event false None raw_world Z_and_R_p Z_and_R_w1
           0%nat raw_trace eq_refl eq_refl Z_and_R_prepared_returns).
Defined.

Lemma calculate_adjsrc_on_stream_values_witness :
  (forall chan_win, chan_win ∈ station_windows -> chan_win <> [] ->
     is_Some (channel_measurement (heap station_world) station_observed
                station_synthetic station_config default_adj_src_type true
                false chan_win)) /\
  exists channel_adj_dict w',
    calculate_adjsrc_on_stream station_observed station_synthetic
      station_windows (PConfig station_config) default_adj_src_type false
      true station_world = (Ok channel_adj_dict, w') /\
    forall id, dict_get channel_adj_dict id =
      list.last (omap (measured_for (heap station_world) station_observed
                         station_synthetic station_config
                         default_adj_src_type true false id)
                      station_windows).
Proof.
  assert (forall chan_win, chan_win ∈ station_windows -> chan_win <> [] ->
     is_Some (channel_measurement (heap station_world) station_observed
                station_synthetic station_config default_adj_src_type true
                false chan_win)) as Hres.
  { intros chan_win Hin Hne. unfold station_windows in Hin.
    repeat (apply elem_of_cons in Hin as [->|Hin]);
      [by_evaluation | by_evaluation | done | by_evaluation
      | by apply elem_of_nil in Hin]. }
  split; [exact Hres|].
  exact (calculate_adjsrc_on_stream_values station_observed
           station_synthetic station_windows station_config
           default_adj_src_type false true station_world Hres).
Defined.

(** An event of which no origin is known. *)
Definition unlocated_event : Event Qc := mkEvent None [].

Lemma postprocess_adjsrc_missing_geometry_witness :
  (event_origin unlocated_event = None \/
   head the_inventory ≫= head = None) /\
  postprocess_adjsrc Z_and_R (qc 105 1) [0%nat] the_inventory unlocated_event
    false None raw_world = (Raise IndexError, raw_world).
Proof.
  assert (event_origin unlocated_event = None \/
          head the_inventory ≫= head = None) as Hmissing by (by left).
  split; [exact Hmissing|].
  exact (postprocess_adjsrc_missing_geometry Z_and_R (qc 105 1) [0%nat]
           the_inventory unlocated_event false None raw_world Hmissing).
Defined.

(** A trace identity as figure identity, and an absolute one. *)
Lemma plot_adjsrc_figure_example :
  plot_adjsrc_figure "figs" "II.AAK.00.BHZ" (adjoint "Z" []) true "pdf"
  = [PrintLine "Output fig: figs/II.AAK.00.BHZ.pdf";
     CallPlot (adjoint "Z" []) "figs/II.AAK.00.BHZ.pdf"] /\
  plot_adjsrc_figure "figs" "/tmp/II.AAK.00.BHZ" (adjoint "Z" []) false "png"
  = [CallPlot (adjoint "Z" []) "/tmp/II.AAK.00.BHZ.png"].
Proof. split; reflexivity. Qed.

(** ** The same runs in binary64 *)

(** [int(x)] on a float: the integer part of a finite value. *)
Definition float_trunc (x : float) : Result Z :=
  match Prim2SF x with
  | S754_zero _ => Ok 0%Z
  | S754_finite s m e =>
      let magnitude :=
        match e with
        | Z0 => Zpos m
        | Zpos p => Z.shiftl (Zpos m) (Zpos p)
        | Zneg p => Z.shiftr (Zpos m) (Zpos p)
        end in
      Ok (if s then Z.opp magnitude else magnitude)
  | S754_infinity _ => Raise OverflowError
  | S754_nan => Raise (ValueError "cannot convert float NaN to integer")
  end.

#[export] Instance Num_float : Num float := {|
  fzero := 0%float;
  fone := 1%float;
  fadd := PrimFloat.add;
  fsub := PrimFloat.sub;
  fmul := PrimFloat.mul;
  fdiv x y :=
    if PrimFloat.eqb y 0%float then None else Some (PrimFloat.div x y);
  fgtb x y := PrimFloat.ltb y x;
  ftrunc := float_trunc;
  of_Z z := SF2Prim (binary_normalize prec emax z 0 false)
|}.

(** Only [fnmatch] is there; the other collaborators are absent. *)
#[export] Instance externals_float : Externals float := {|
  fnmatch name pat := glob pat name;
  calculate_adjoint_source _ _ _ _ _ _ _ := Raise (ExternalError "absent");
  gps2DistAzimuth _ _ _ _ := Raise (ExternalError "absent");
  trace_interpolate _ _ _ _ := Raise (ExternalError "absent");
  stream_rotate _ ts := (ts, Some (ExternalError "absent"))
|}.

Definition aak64 (loc_code chan : string) (start delta : float)
  (d : list float) : Trace float :=
  mkTrace "II" "AAK" loc_code chan start delta d.

(** The example of the specification for the summation. *)
Lemma sum_adj_on_component_binary64 :
  heap (sum_adj_on_component [0; 1]%nat
          [("Z", [("II.AAK.00.BHZ", 0.5%float); ("II.AAK.10.BHZ", 0.5%float)])]
          (mkWorld [aak64 "00" "BHZ" 0 1 [2; 2; 2]%float;
                    aak64 "10" "BHZ" 0 1 [0; 0; 0]%float] [])).2 !! 0%nat
  = Some (aak64 "" "BHZ" 0 1 [1; 1; 1]%float).
Proof. vm_compute. reflexivity. Qed.

(** The same with a second channel without location code: 1.5, not 1. *)
Lemma sum_adj_on_component_clash_binary64 :
  heap (sum_adj_on_component [0; 1]%nat
          [("Z", [("II.AAK.00.BHZ", 0.5%float); ("II.AAK..BHZ", 0.5%float)])]
          (mkWorld [aak64 "00" "BHZ" 0 1 [2; 2; 2]%float;
                    aak64 "" "BHZ" 0 1 [0; 0; 0]%float] [])).2 !! 0%nat
  = Some (aak64 "" "BHZ" 0 1 [1.5; 1.5; 1.5]%float).
Proof. vm_compute. reflexivity. Qed.

(** Padding the covering trace: one zero before, two after, from time
    -1 on. *)
Lemma zero_padding_binary64 :
  heap (zero_padding_stream [0%nat] 0%float 3%float
          (mkWorld [aak64 "00" "BHZ" 0 1 [1; 2; 3]%float] [])).2 !! 0%nat
  = Some (aak64 "00" "BHZ" (-1) 1 [0; 1; 2; 3; 0; 0]%float).
Proof. vm_compute. reflexivity. Qed.
